(** * rasterix.rasterize.exact: coverage of a raster grid by vector geometries

    A shallow embedding of [src/rasterix/rasterize/exact.py] and the
    properties of its specification.

    Modelling conventions.
    - numpy 1-D arrays are lists; float64 coordinates and coverage values are
      exact rationals ([Q]), so rounding is not modelled: what is stated of
      the bounding box is the code's own expressions, weak inequalities and
      values on exactly representable inputs;
    - [np.vectorize] refuses an input of size 0, and the constructor of
      [sparse.COO] sums neighbouring entries at the same position;
    - int64 index arrays (cell ids, COO coordinates) are lists of [Z];
      sizes and chunk sizes are [nat];
    - a Python exception is the left injection of [result];
    - the overlay engine ([exactextract.exact_extract]) is external: it is a
      parameter of the development, a pure function of the raster
      descriptor, the geometry table and the requested weighting; every call
      is recorded in a trace, so that "before any engine call" can be stated;
    - dask arrays are data plus a chunk layout; [map_blocks] builds a grid of
      suspended block computations which only [compute] runs. *)

From Stdlib Require Import ZArith QArith Qminmax Qabs Qreduction Lia Lqa List Bool Ascii String.
From stdpp Require Import base strings gmap.
Import ListNotations.

Close Scope Q_scope.
Local Open Scope nat_scope.

(** ** Exceptions and the error monad *)

Inductive exn : Type :=
| ValueError (msg : string)
| IndexError (msg : string)
| KeyError (msg : string).

Definition result (A : Type) : Type := (exn + A)%type.
Abbreviation Ok := (@inr exn _).
Abbreviation Err := (@inl exn _).

Definition rbind {A B} (m : result A) (k : A -> result B) : result B :=
  match m with
  | inl e => inl e
  | inr a => k a
  end.

Notation "'let?' x := m 'in' k" := (rbind m (fun x => k))
  (at level 10, x name, m at level 100, k at level 200).

Definition is_ok {A} (m : result A) : bool :=
  match m with inr _ => true | inl _ => false end.

(** ** numpy indexing and reductions *)

(** [a[i]] for a Python integer [i]: negative indices count from the end,
    anything outside [-len, len) raises IndexError. *)
Definition py_index {A} (a : list A) (i : Z) : result A :=
  let n := Z.of_nat (length a) in
  let j := if (i <? 0)%Z then (n + i)%Z else i in
  if ((0 <=? j)%Z && (j <? n)%Z)%bool then
    match nth_error a (Z.to_nat j) with
    | Some v => Ok v
    | None => Err (IndexError "index out of bounds")
    end
  else Err (IndexError "index out of bounds").

(** [a.min()] and [a.max()]: a left-to-right reduction; ValueError on an
    empty array. *)
Definition np_min (a : list Q) : result Q :=
  match a with
  | [] => Err (ValueError "zero-size array to reduction operation minimum")
  | v :: t => Ok (fold_left Qmin t v)
  end.

Definition np_max (a : list Q) : result Q :=
  match a with
  | [] => Err (ValueError "zero-size array to reduction operation maximum")
  | v :: t => Ok (fold_left Qmax t v)
  end.

(** [a > b] on floats. *)
Definition Qgt_bool (a b : Q) : bool := negb (Qle_bool a b).

(** ** Raster Source Adapter: [xy_to_raster_source] *)

(** [NumPyRasterSource]: the payload is [np.broadcast_to([1], shape)], a
    constant, so only its shape and fill are kept. *)
Record NumPyRasterSource : Type := mkRaster {
  rs_shape : nat * nat;          (* (ysize, xsize) *)
  rs_fill : Z;                   (* every cell holds this value *)
  rs_xmin : Q;
  rs_xmax : Q;
  rs_ymin : Q;
  rs_ymax : Q;
  rs_srs_wkt : option string
}.

Definition xy_to_raster_source (x y : list Q) (srs_wkt : option string)
  : result NumPyRasterSource :=
  let xsize := length x in
  let ysize := length y in
  let? x1 := py_index x 1 in
  let? x0 := py_index x 0 in
  let dx0 := ((x1 - x0) / 2)%Q in
  let? xl := py_index x (-1) in
  let? xl2 := py_index x (-2) in
  let dx1 := ((xl - xl2) / 2)%Q in
  let? y1 := py_index y 1 in
  let? y0 := py_index y 0 in
  let dy0 := (Qabs (y1 - y0) / 2)%Q in
  let? yl := py_index y (-1) in
  let? yl2 := py_index y (-2) in
  let dy1 := (Qabs (yl - yl2) / 2)%Q in
  let? y0' := py_index y 0 in
  let? yl' := py_index y (-1) in
  let '(dy0, dy1) := if Qgt_bool y0' yl' then (dy1, dy0) else (dy0, dy1) in
  let shape := (ysize, xsize) in
  let? mx := np_min x in
  let? Mx := np_max x in
  let? my := np_min y in
  let? My := np_max y in
  Ok {| rs_shape := shape;
        rs_fill := 1;
        rs_xmin := (mx - dx0)%Q;
        rs_xmax := (Mx + dx1)%Q;
        rs_ymin := (my - dy0)%Q;
        rs_ymax := (My + dy1)%Q;
        rs_srs_wkt := srs_wkt |}.

(** Reading the axis the way the specification words it. *)
Definition first_center (a : list Q) : Q := nth 0 a 0%Q.
Definition second_center (a : list Q) : Q := nth 1 a 0%Q.
Definition last_center (a : list Q) : Q := nth (length a - 1) a 0%Q.
Definition penultimate_center (a : list Q) : Q := nth (length a - 2) a 0%Q.

Definition is_least (m : Q) (a : list Q) : Prop :=
  In m a /\ forall v, In v a -> (m <= v)%Q.
Definition is_greatest (m : Q) (a : list Q) : Prop :=
  In m a /\ forall v, In v a -> (v <= m)%Q.

(** The half-distances the adapter uses on the y axis, after the swap. *)
Definition y_start_half (y : list Q) : Q :=
  if Qgt_bool (first_center y) (last_center y)
  then (Qabs (last_center y - penultimate_center y) / 2)%Q
  else (Qabs (second_center y - first_center y) / 2)%Q.

Definition y_end_half (y : list Q) : Q :=
  if Qgt_bool (first_center y) (last_center y)
  then (Qabs (second_center y - first_center y) / 2)%Q
  else (Qabs (last_center y - penultimate_center y) / 2)%Q.

(** Strict monotonicity as a property of every pair of positions. *)
Definition increasing (a : list Q) : Prop :=
  forall i j, i < j -> j < length a -> (nth i a 0 < nth j a 0)%Q.

Definition decreasing (a : list Q) : Prop :=
  forall i j, i < j -> j < length a -> (nth j a 0 < nth i a 0)%Q.

(** Strict monotonicity of an axis, as a check on adjacent centers. *)
Fixpoint ascending (a : list Q) : bool :=
  match a with
  | u :: (v :: _) as t => Qgt_bool v u && ascending t
  | _ => true
  end.

Fixpoint descending (a : list Q) : bool :=
  match a with
  | u :: (v :: _) as t => Qgt_bool u v && descending t
  | _ => true
  end.

(** ** Weighting modes and dtypes *)

Inductive CoverageWeights : Type :=
| area_spherical_m2 | area_cartesian | area_spherical_km2 | fraction | none.

Definition weight_name (w : CoverageWeights) : string :=
  match w with
  | area_spherical_m2 => "area_spherical_m2"
  | area_cartesian => "area_cartesian"
  | area_spherical_km2 => "area_spherical_km2"
  | fraction => "fraction"
  | none => "none"
  end.

Inductive dtype : Type := uint8 | float64 | int64.

(** [str.lower], on the ASCII letters. *)
Definition lower_ascii (c : ascii) : ascii :=
  let n := nat_of_ascii c in
  if (65 <=? n) && (n <=? 90) then ascii_of_nat (n + 32) else c.

Fixpoint lower (s : string) : string :=
  match s with
  | EmptyString => EmptyString
  | String c t => String (lower_ascii c) (lower t)
  end.

Definition get_dtype {G} (coverage_weight : string) (geometries : G) : dtype :=
  if String.eqb (lower coverage_weight) "none" then uint8 else float64.

(** Storing a float into an array of the given dtype: float64 keeps the
    value; uint8 truncates towards zero and keeps the low byte of the
    truncated value when that value fits a signed 32-bit integer, and
    stores 0 when it does not. *)
Definition cast_to (dt : dtype) (v : Q) : Q :=
  match dt with
  | float64 => v
  | uint8 =>
      let t := Z.quot (Qnum v) (Zpos (Qden v)) in
      if ((- 2 ^ 31 <=? t)%Z && (t <? 2 ^ 31)%Z)%bool
      then inject_Z (t mod 256)
      else 0%Q
  | int64 => inject_Z (Z.quot (Qnum v) (Zpos (Qden v)))
  end.

(** ** Tables of geometries and the overlay engine *)

Record CRS : Type := mkCRS { to_wkt : string }.

Record GeoDataFrame (Geometry : Type) : Type := mkGDF {
  gdf_columns : list string;     (* geometries.columns *)
  gdf_geometry : list Geometry;  (* the geometry column, one row per feature *)
  gdf_crs : CRS
}.
Arguments mkGDF {Geometry}.
Arguments gdf_columns {Geometry}.
Arguments gdf_geometry {Geometry}.
Arguments gdf_crs {Geometry}.

(** [len(geometries)]: the number of rows. *)
Definition gdf_len {Geometry} (g : GeoDataFrame Geometry) : nat :=
  length (gdf_geometry g).

(** [gpd.GeoDataFrame(geometry=values, crs=crs)]: one column, "geometry". *)
Definition GeoDataFrame_of_geometry {Geometry} (values : list Geometry) (crs : CRS)
  : GeoDataFrame Geometry :=
  mkGDF ["geometry"%string] values crs.

(** One row of the engine's tabular answer: the linear ids of the cells
    a geometry intersects and the coverage value of each. *)
Record EngineRow : Type := mkRow {
  cell_id : list Z;
  coverage_values : list Q
}.

(** One recorded call of [exact_extract]. *)
Record EngineCall (Geometry : Type) : Type := mkCall {
  call_rast : NumPyRasterSource;
  call_vec : GeoDataFrame Geometry;
  call_weight : string
}.
Arguments mkCall {Geometry}.
Arguments call_rast {Geometry}.
Arguments call_vec {Geometry}.
Arguments call_weight {Geometry}.

(** ** Sparse COO arrays *)

Record COO : Type := mkCOO {
  coo_coords : list Z * list Z * list Z;   (* geometry, y and x index arrays *)
  coo_data : list Q;
  coo_dtype : dtype;
  coo_fill_value : Q;
  coo_shape : nat * nat * nat
}.

(** [COO.nnz]: the number of stored entries. *)
Definition nnz (c : COO) : nat := length (coo_data c).

(** The stored entries, one per position of the coordinate arrays. *)
Fixpoint zip_entries (gs rs cs : list Z) (vs : list Q) : list (Z * Z * Z * Q) :=
  match gs, rs, cs, vs with
  | g :: gs', r :: rs', c :: cs', v :: vs' =>
      (g, r, c, v) :: zip_entries gs' rs' cs' vs'
  | _, _, _, _ => []
  end.

Definition entries (c : COO) : list (Z * Z * Z * Q) :=
  let '(gs, rs, cs) := coo_coords c in zip_entries gs rs cs (coo_data c).

Definition coord_eqb (a b : Z * Z * Z) : bool :=
  let '(g1, r1, c1) := a in
  let '(g2, r2, c2) := b in
  (g1 =? g2)%Z && (r1 =? r2)%Z && (c1 =? c2)%Z.

Fixpoint find_entry (es : list (Z * Z * Z * Q)) (k : Z * Z * Z) : option Q :=
  match es with
  | [] => None
  | (k', v) :: t => if coord_eqb k' k then Some v else find_entry t k
  end.

(** The stored value at a coordinate, if there is a stored entry there. *)
Definition stored_at (c : COO) (g r x : Z) : option Q :=
  find_entry (entries c) (g, r, x).

(** The dense-equivalent value at a coordinate: the stored value, else the
    fill value. *)
Definition coo_get (c : COO) (g r x : Z) : Q :=
  match stored_at c g r x with
  | Some v => v
  | None => coo_fill_value c
  end.

Definition cube (A : Type) : Type := list (list (list A)).

Definition tabulate {A} (shape : nat * nat * nat) (f : nat -> nat -> nat -> A)
  : cube A :=
  let '(ng, ny, nx) := shape in
  map (fun g => map (fun r => map (fun x => f g r x) (seq 0 nx)) (seq 0 ny))
      (seq 0 ng).

(** [COO.todense()]. *)
Definition todense (c : COO) : cube Q :=
  tabulate (coo_shape c)
    (fun g r x => coo_get c (Z.of_nat g) (Z.of_nat r) (Z.of_nat x)).

(** The position of a coordinate in the row-major order of an array of
    the given shape ([COO.linear_loc]). *)
Definition linear_index (shape : nat * nat * nat) (k : Z * Z * Z) : Z :=
  let '(_, ny, nx) := shape in
  let '(g, r, c) := k in
  ((g * Z.of_nat ny + r) * Z.of_nat nx + c)%Z.

(** Addition in the array's dtype: uint8 wraps modulo 256. *)
Definition dtype_add (dt : dtype) (a b : Q) : Q :=
  match dt with
  | uint8 => cast_to uint8 (a + b)
  | _ => Qred (a + b)
  end.

(** [COO._sum_duplicates]: every run of neighbouring entries at the same
    position becomes one entry, at that position, holding the sum of the
    run. *)
Fixpoint sum_duplicates (dt : dtype) (shape : nat * nat * nat)
    (es : list (Z * Z * Z * Q)) : list (Z * Z * Z * Q) :=
  match es with
  | [] => []
  | (k, v) :: t =>
      match sum_duplicates dt shape t with
      | (k', v') :: t' =>
          if (linear_index shape k =? linear_index shape k')%Z
          then (k, dtype_add dt v v') :: t'
          else (k, v) :: (k', v') :: t'
      | [] => [(k, v)]
      end
  end.

(** [sparse.COO(coords, data=data, sorted=True, fill_value=..., shape=...)]:
    with [sorted=True] the entries are kept in the order given, and, as
    [has_duplicates] keeps its default, neighbouring entries at the same
    position are summed. *)
Definition COO_new (coords : list Z * list Z * list Z) (data : list Q)
    (dt : dtype) (fill_value : Q) (shape : nat * nat * nat) : COO :=
  let '(gs, rs, cs) := coords in
  let es := sum_duplicates dt shape (zip_entries gs rs cs data) in
  mkCOO (map (fun e => fst (fst (fst e))) es,
         map (fun e => snd (fst (fst e))) es,
         map (fun e => snd (fst e)) es)
        (map snd es) dt fill_value shape.

(** ** numpy helpers of the assembly loop *)

(** [np.vectorize(len)(values)]: the length of every list of a column;
    [np.vectorize] refuses an input of size 0 when no output type is set. *)
Definition np_vectorize_len {A} (values : list (list A)) : result (list nat) :=
  match values with
  | [] => Err (ValueError
      "cannot call `vectorize` on size 0 inputs unless `otypes` is set")
  | _ => Ok (map (@length A) values)
  end.

(** [np.empty((n,), dtype)]: contents are unspecified; zeros stand for them. *)
Definition np_empty {A} (filler : A) (n : nat) : list A := repeat filler n.

(** [a[off : off + n] = v] with [v] an array. The slice is clipped to the
    array; [v] must have the slice's length or length 1 (broadcast). *)
Definition set_slice {A} (a : list A) (off n : nat) (v : list A) : result (list A) :=
  let start := Nat.min off (length a) in
  let stop := Nat.min (off + n) (length a) in
  let m := stop - start in
  if length v =? m then Ok (firstn start a ++ v ++ skipn stop a)
  else match v with
       | [c] => Ok (firstn start a ++ repeat c m ++ skipn stop a)
       | _ => Err (ValueError "could not broadcast input array")
       end.

(** [a[off : off + n] = c] with [c] a scalar. *)
Definition set_slice_scalar {A} (a : list A) (off n : nat) (c : A) : list A :=
  let start := Nat.min off (length a) in
  let stop := Nat.min (off + n) (length a) in
  firstn start a ++ repeat c (stop - start) ++ skipn stop a.

(** [values[i]] on a column of the engine's table. *)
Definition row_at {A} (rows : list A) (i : nat) : result A :=
  match nth_error rows i with
  | Some r => Ok r
  | None => Err (IndexError "index out of bounds")
  end.

(** [np.unravel_index(idxs, shape)] for a 2-D shape, row-major. *)
Fixpoint unravel_index (idxs : list Z) (shape : nat * nat)
  : result (list Z * list Z) :=
  match idxs with
  | [] => Ok ([], [])
  | i :: t =>
      let '(ny, nx) := shape in
      if ((0 <=? i)%Z && (i <? Z.of_nat (ny * nx))%Z)%bool then
        let? rest := unravel_index t shape in
        Ok ((i / Z.of_nat nx)%Z :: fst rest, (i mod Z.of_nat nx)%Z :: snd rest)
      else Err (ValueError "index is out of bounds for array")
  end.

(** ** Computations that may call the overlay engine

    A computation yields the trace of engine calls it made and either a
    value or the exception that stopped it. *)

Definition M (Geometry A : Type) : Type :=
  (list (EngineCall Geometry) * result A)%type.

Definition ret {G A} (a : A) : M G A := ([], Ok a).
Definition raise {G A} (e : exn) : M G A := ([], Err e).
Definition lift {G A} (r : result A) : M G A := ([], r).

Definition bind {G A B} (m : M G A) (k : A -> M G B) : M G B :=
  match m with
  | (t, inl e) => (t, inl e)
  | (t, inr a) => let '(t', r) := k a in (t ++ t', r)
  end.

Notation "'let*' x := m 'in' k" := (bind m (fun x => k))
  (at level 10, x name, m at level 100, k at level 200).

Definition trace {G A} (m : M G A) : list (EngineCall G) := fst m.
Definition outcome {G A} (m : M G A) : result A := snd m.

(** Running a list of computations in order, stopping at the first error. *)
Fixpoint sequence {G A} (ms : list (M G A)) : M G (list A) :=
  match ms with
  | [] => ret []
  | m :: t =>
      let* a := m in
      let* rest := sequence t in
      ret (a :: rest)
  end.

(** ** Chunked (dask) arrays *)

Record DaskArray (A : Type) : Type := mkDask {
  da_values : list A;
  da_chunks : list nat     (* a.chunks[0] *)
}.
Arguments mkDask {A}.
Arguments da_values {A}.
Arguments da_chunks {A}.

(** [dask.array.from_array(data, chunks=...)]; [None] stands for [-1], one
    chunk spanning the array. *)
Definition from_array {A} (data : list A) (chunks : option (list nat)) : DaskArray A :=
  match chunks with
  | None => mkDask data [length data]
  | Some cs => mkDask data cs
  end.

(** The blocks of a 1-D chunked array, in order. *)
Fixpoint split_chunks {A} (chunks : list nat) (data : list A) : list (list A) :=
  match chunks with
  | [] => []
  | c :: t => firstn c data :: split_chunks t (skipn c data)
  end.

Definition da_blocks {A} (a : DaskArray A) : list (list A) :=
  split_chunks (da_chunks a) (da_values a).

(** Which block holds global index [i], and where inside the block. *)
Fixpoint locate (chunks : list nat) (i : nat) : option (nat * nat) :=
  match chunks with
  | [] => None
  | c :: t =>
      if i <? c then Some (0, i)
      else match locate t (i - c) with
           | Some (b, o) => Some (S b, o)
           | None => None
           end
  end.

Definition MIN_CHUNK_SIZE : nat := 2.
Definition DEFAULT_STRATEGY : string := "feature-sequential".

(** A chunked sparse array whose blocks have not been computed yet. *)
Record DaskCOO (Geometry : Type) : Type := mkDaskCOO {
  dc_chunks : list nat * list nat * list nat;   (* geometry, y, x *)
  dc_tasks : cube (M Geometry COO);             (* one task per block *)
  dc_meta : COO
}.
Arguments mkDaskCOO {Geometry}.
Arguments dc_chunks {Geometry}.
Arguments dc_tasks {Geometry}.
Arguments dc_meta {Geometry}.

(** The chunked execution engine forcing every block, in block order. *)
Definition compute {G} (d : DaskCOO G) : M G (cube COO) :=
  sequence (map (fun plane => sequence (map sequence plane)) (dc_tasks d)).

Definition block_at (blocks : cube COO) (bg br bx : nat) : option COO :=
  match nth_error blocks bg with
  | Some plane =>
      match nth_error plane br with
      | Some line => nth_error line bx
      | None => None
      end
  | None => None
  end.

(** The value of the assembled chunked array at a global index: the block
    that holds it is found from the chunk sizes and read at the local
    index. *)
Definition blocks_get (chunks : list nat * list nat * list nat)
    (blocks : cube COO) (fill : Q) (g r x : nat) : Q :=
  let '(gch, ych, xch) := chunks in
  match locate gch g, locate ych r, locate xch x with
  | Some (bg, lg), Some (br, lr), Some (bx, lx) =>
      match block_at blocks bg br bx with
      | Some c => coo_get c (Z.of_nat lg) (Z.of_nat lr) (Z.of_nat lx)
      | None => fill
      end
  | _, _, _ => fill
  end.

(** The dense equivalent of the assembled chunked array. *)
Definition blocks_todense (chunks : list nat * list nat * list nat)
    (blocks : cube COO) : cube Q :=
  let '(gch, ych, xch) := chunks in
  tabulate (list_sum gch, list_sum ych, list_sum xch)
           (blocks_get chunks blocks 0%Q).

(** ** Single-Block Coverage Computer and Chunk Dispatcher *)

Section Pipeline.
Context {Geometry : Type}.

(** [exactextract.exact_extract(rast, vec, ops=["cell_id",
    "coverage(coverage_weight=...)"], output="pandas")]. *)
Variable exact_extract :
  NumPyRasterSource -> GeoDataFrame Geometry -> string -> list EngineRow.

Definition call_engine (rast : NumPyRasterSource)
    (vec : GeoDataFrame Geometry) (w : string) : M Geometry (list EngineRow) :=
  ([mkCall rast vec w], Ok (exact_extract rast vec w)).

Definition loop_state : Type := (list Z * list Z * list Q * nat)%type.

(** One iteration of [for i in range(len(geometries))]. *)
Definition assemble_step (dt : dtype) (rows : list EngineRow)
    (st : loop_state) (i : nat) : result loop_state :=
  let '(geom_idxs, xy_idxs, data, off) := st in
  let? row := row_at rows i in
  let cid := cell_id row in
  if length cid =? 0 then Ok st
  else
    let geom_idxs := set_slice_scalar geom_idxs off (length cid) (Z.of_nat i) in
    let? xy_idxs := set_slice xy_idxs off (length cid) cid in
    let? row' := row_at rows i in
    let? data := set_slice data off (length cid)
                   (map (cast_to dt) (coverage_values row')) in
    Ok (geom_idxs, xy_idxs, data, off + length cid).

Fixpoint assemble_loop (dt : dtype) (rows : list EngineRow)
    (idxs : list nat) (st : loop_state) : result loop_state :=
  match idxs with
  | [] => Ok st
  | i :: t =>
      let? st' := assemble_step dt rows st i in
      assemble_loop dt rows t st'
  end.

Definition np_coverage (x y : list Q) (geometries : GeoDataFrame Geometry)
    (strategy : string) (coverage_weight : string) : M Geometry COO :=
  let dt := get_dtype coverage_weight geometries in
  if 1 <? length (gdf_columns geometries) then
    raise (ValueError "Require a single geometries column or a GeoSeries.")
  else
    let shape := (length y, length x) in
    let* raster :=
      lift (xy_to_raster_source x y (Some (to_wkt (gdf_crs geometries)))) in
    let* result := call_engine raster geometries coverage_weight in
    let* lens := lift (np_vectorize_len (map cell_id result)) in
    let nnz := list_sum lens in
    let geom_idxs := np_empty 0%Z nnz in
    let xy_idxs := np_empty 0%Z nnz in
    let data := np_empty 0%Q nnz in
    let* st := lift (assemble_loop dt result (seq 0 (gdf_len geometries))
                       (geom_idxs, xy_idxs, data, 0)) in
    let '(geom_idxs, xy_idxs, data, _) := st in
    let* yx := lift (unravel_index xy_idxs shape) in
    ret (COO_new (geom_idxs, fst yx, snd yx) data dt 0%Q
                 (gdf_len geometries, length y, length x)).

(** The blocks arrive with two axes of length one, which [squeeze]
    removes; a block is kept as the 1-D list it squeezes to. *)
Definition coverage_np_dask_wrapper (geom_array : list Geometry)
    (x y : list Q) (coverage_weight : string) (strategy : string) (crs : CRS)
    : M Geometry COO :=
  np_coverage x y (GeoDataFrame_of_geometry geom_array crs)
              DEFAULT_STRATEGY coverage_weight.

(** [dask.array.map_blocks] over the broadcast of the three chunked
    arrays: one suspended call per (geometry, y, x) block. *)
Definition map_blocks (geom_array : DaskArray Geometry) (x y : DaskArray Q)
    (coverage_weight strategy : string) (crs : CRS) (meta : COO)
    : DaskCOO Geometry :=
  mkDaskCOO (da_chunks geom_array, da_chunks y, da_chunks x)
    (map (fun gb =>
       map (fun yb =>
         map (fun xb =>
           coverage_np_dask_wrapper gb xb yb coverage_weight strategy crs)
           (da_blocks x))
         (da_blocks y))
       (da_blocks geom_array))
    meta.

Definition dask_coverage (x y : DaskArray Q) (geom_array : DaskArray Geometry)
    (coverage_weight : string) (strategy : string) (crs : CRS)
    : M Geometry (DaskCOO Geometry) :=
  if existsb (fun c => c =? 1) (da_chunks x)
     || existsb (fun c => c =? 1) (da_chunks y)
  then raise (ValueError
    "exactextract does not support a chunksize of 1. Please rechunk to avoid this")
  else
    ret (map_blocks geom_array x y coverage_weight strategy crs
           (mkCOO ([], [], []) [] (get_dtype coverage_weight geom_array)
                  0%Q (0, 0, 0))).

End Pipeline.

(** ** Mode Selector and Result Assembler: [coverage] *)

(** The data behind a 1-D coordinate: a numpy array or a dask array. *)
Inductive ArrayData : Type :=
| NumpyData (v : list Q)
| DaskData (a : DaskArray Q).

Definition array_values (d : ArrayData) : list Q :=
  match d with
  | NumpyData v => v
  | DaskData a => da_values a
  end.

(** The gridded object: what [coverage] reads of an xarray Dataset or
    DataArray. [obj_spatial_ref] is the payload of the "spatial_ref"
    coordinate, when [obj.coords] has one. *)
Record XrObject : Type := mkObj {
  obj_spatial_ref : option string;
  obj_vars : gmap string ArrayData;          (* obj[dim].data *)
  obj_chunksizes : gmap string (list nat);   (* obj.chunksizes *)
  obj_xindexes : gmap string (list Q)        (* obj.xindexes *)
}.

Definition obj_getitem (obj : XrObject) (dim : string) : result ArrayData :=
  match obj_vars obj !! dim with
  | Some d => Ok d
  | None => Err (KeyError dim)
  end.

(** The geometry table: a GeoDataFrame, or a dask_geopandas frame, which
    is a frame with a partition of its rows. *)
Inductive GeomTable (Geometry : Type) : Type :=
| InMemory (g : GeoDataFrame Geometry)
| Partitioned (g : GeoDataFrame Geometry) (partitions : list nat).
Arguments InMemory {Geometry}.
Arguments Partitioned {Geometry}.

Definition table_frame {G} (t : GeomTable G) : GeoDataFrame G :=
  match t with
  | InMemory g => g
  | Partitioned g _ => g
  end.

Definition is_GeoDataFrame {G} (t : GeomTable G) : bool :=
  match t with
  | InMemory _ => true
  | Partitioned _ _ => false
  end.

(** [geometries.to_numpy().squeeze(axis=1)]: the table as an (n, k) array
    with the column axis removed, which numpy refuses unless k = 1. *)
Definition to_numpy_squeeze {G} (g : GeoDataFrame G) : result (list G) :=
  if length (gdf_columns g) =? 1 then Ok (gdf_geometry g)
  else Err (ValueError
    "cannot select an axis to squeeze out which has size not equal to one").

(** [sub in s] and [s.removesuffix(suf)] on strings. *)
Fixpoint str_in (sub s : string) : bool :=
  String.prefix sub s ||
  match s with
  | EmptyString => false
  | String _ t => str_in sub t
  end.

Definition removesuffix (s suf : string) : string :=
  let n := String.length s in
  let k := String.length suf in
  if (k <=? n) && String.eqb (String.substring (n - k) k s) suf
  then String.substring 0 (n - k) s
  else s.

Inductive CoverageData (Geometry : Type) : Type :=
| EagerData (c : COO)
| LazyData (d : DaskCOO Geometry).
Arguments EagerData {Geometry}.
Arguments LazyData {Geometry}.

Inductive CoordValue (Geometry : Type) : Type :=
| SpatialRefCoord (payload : string)
| GeometryCoord (g : list Geometry)
| GeometryDaskCoord (g : DaskArray Geometry)
| IndexCoord (v : list Q).
Arguments SpatialRefCoord {Geometry}.
Arguments GeometryCoord {Geometry}.
Arguments GeometryDaskCoord {Geometry}.
Arguments IndexCoord {Geometry}.

(** The labelled output, an [xr.DataArray]. *)
Record DataArray (Geometry : Type) : Type := mkDataArray {
  out_dims : list string;
  out_data : CoverageData Geometry;
  out_coords : gmap string (CoordValue Geometry);
  out_attrs : gmap string string;
  out_name : string
}.
Arguments mkDataArray {Geometry}.
Arguments out_dims {Geometry}.
Arguments out_data {Geometry}.
Arguments out_coords {Geometry}.
Arguments out_attrs {Geometry}.
Arguments out_name {Geometry}.

(** Equality of two floats, as numerator and denominator, and of two
    arrays of floats. *)
Definition Q_eqb (a b : Q) : bool :=
  (Qnum a =? Qnum b)%Z && (Qden a =? Qden b)%positive.

Fixpoint Qlist_eqb (a b : list Q) : bool :=
  match a, b with
  | [], [] => true
  | u :: a', v :: b' => Q_eqb u v && Qlist_eqb a' b'
  | _, _ => false
  end.

(** [coords.merge(c)] for the coordinate of one index: a new name is
    added; an index coordinate of that name with the same values is
    already there and merges without a change; a coordinate of that name
    with other contents is a merge conflict. *)
Definition merge_coord {G} (coords : gmap string (CoordValue G))
    (dim : string) (v : list Q) : result (gmap string (CoordValue G)) :=
  match coords !! dim with
  | None => Ok (<[dim := IndexCoord v]> coords)
  | Some (IndexCoord v') =>
      if Qlist_eqb v' v then Ok coords
      else Err (ValueError "conflicting values for coordinate")
  | Some _ => Err (ValueError "conflicting values for coordinate")
  end.

Fixpoint merge_coords {G} (coords : gmap string (CoordValue G))
    (cs : list (string * list Q)) : result (gmap string (CoordValue G)) :=
  match cs with
  | [] => Ok coords
  | (dim, v) :: t =>
      let? coords' := merge_coord coords dim v in
      merge_coords coords' t
  end.

Section Coverage.
Context {Geometry : Type}.
Variable exact_extract :
  NumPyRasterSource -> GeoDataFrame Geometry -> string -> list EngineRow.

(** The two helpers of [rasterix.rasterize.utils] that [coverage] calls;
    their code is not part of this file's source. *)
Variable is_in_memory : XrObject -> GeomTable Geometry -> bool.
Variable geometries_as_dask_array :
  GeomTable Geometry -> result (DaskArray Geometry).

Definition coordinate_as_dask (obj : XrObject) (dim : string)
    : result (DaskArray Q) :=
  let? d := obj_getitem obj dim in
  match d with
  | NumpyData v => Ok (from_array v (obj_chunksizes obj !! dim))
  | DaskData a => Ok a
  end.

Definition coverage (obj : XrObject) (geometries : GeomTable Geometry)
    (xdim ydim : string) (strategy : string) (coverage_weight : string)
    : M Geometry (DataArray Geometry) :=
  match obj_spatial_ref obj with
  | None =>
      raise (ValueError "Xarray object must contain the `spatial_ref` variable.")
  | Some spatial_ref =>
      let* computed :=
        if is_in_memory obj geometries then
          let* xd := lift (obj_getitem obj xdim) in
          let* yd := lift (obj_getitem obj ydim) in
          let* out := np_coverage exact_extract (array_values xd)
                        (array_values yd) (table_frame geometries)
                        strategy coverage_weight in
          let* geom_array := lift (to_numpy_squeeze (table_frame geometries)) in
          ret (EagerData out, GeometryCoord geom_array)
        else
          let* geom_dask_array := lift (geometries_as_dask_array geometries) in
          let* dask_x := lift (coordinate_as_dask obj xdim) in
          let* dask_y := lift (coordinate_as_dask obj ydim) in
          let* out := dask_coverage exact_extract dask_x dask_y geom_dask_array
                        coverage_weight strategy
                        (gdf_crs (table_frame geometries)) in
          let* geom_array :=
            if is_GeoDataFrame geometries then
              let* a := lift (to_numpy_squeeze (table_frame geometries)) in
              ret (GeometryCoord a)
            else ret (GeometryDaskCoord geom_dask_array) in
          ret (LazyData out, geom_array) in
      let '(out, geom_array) := computed in
      let name : string :=
        if str_in "area" coverage_weight then "area" else "coverage" in
      let attrs : gmap string string :=
        if str_in "_m2" coverage_weight
           || String.eqb coverage_weight "area_cartesian"
        then <["units" := "m2"%string]>
               (<["long_name" := removesuffix coverage_weight "_m2"]> ∅)
        else if str_in "_km2" coverage_weight
        then <["units" := "km2"%string]>
               (<["long_name" := removesuffix coverage_weight "_km2"]> ∅)
        else ∅ in
      let xy_coords :=
        flat_map (fun dim =>
                    match obj_xindexes obj !! dim with
                    | Some idx => [(dim, idx)]
                    | None => []
                    end) [xdim; ydim] in
      let coords : gmap string (CoordValue Geometry) :=
        <["geometry" := geom_array]>
          (<["spatial_ref" := SpatialRefCoord spatial_ref]> ∅) in
      let* coords := lift (merge_coords coords xy_coords) in
      ret (mkDataArray ["geometry"%string; ydim; xdim] out coords attrs name)
  end.

End Coverage.

(** Modelled from the spec: [is_in_memory] of [rasterix.rasterize.utils],
    whose code is absent. Section 4.5: "inspects whether the gridded object
    and the geometry collection are both fully materialized in memory". *)
Definition is_in_memory_spec {G} (obj : XrObject) (geometries : GeomTable G) : bool :=
  bool_decide (obj_chunksizes obj = ∅)
  && forallb (fun d => match d with NumpyData _ => true | DaskData _ => false end)
             (map snd (map_to_list (obj_vars obj)))
  && is_GeoDataFrame geometries.

(** Modelled from the spec: [geometries_as_dask_array] of
    [rasterix.rasterize.utils], whose code is absent. Sections 4.5 and 3:
    it "normalizes the geometry collection into its chunked representation",
    the geometry sequence "partitioned into independently-addressable
    chunks indexed by a geometry chunk axis"; an in-memory table becomes
    the array of its geometry column, in one chunk. A partitioned table
    becomes the 2-D array of its columns with the column axis squeezed
    out, one chunk per partition, which, as in [to_numpy_squeeze], is
    refused unless there is exactly one column: "exactly one geometry
    column permitted; multiple columns is a usage error". *)
Definition geometries_as_dask_array_spec {G} (geometries : GeomTable G)
  : result (DaskArray G) :=
  match geometries with
  | InMemory g => Ok (from_array (gdf_geometry g) None)
  | Partitioned g partitions =>
      if length (gdf_columns g) =? 1
      then Ok (from_array (gdf_geometry g) (Some partitions))
      else Err (ValueError
        "cannot select an axis to squeeze out which has size not equal to one")
  end.

(** ** A reference overlay engine for axis-aligned rectangles

    Used to run the pipeline on concrete inputs. A geometry is a rectangle;
    the raster descriptor is cut into [ny] x [nx] equal cells, row 0 at
    [ymax]; a cell is reported when the rectangle covers a positive part of
    it, with the covered fraction of the cell as its value (1 under the
    weighting "none"). *)

Record Rect : Type := mkRect { gx0 : Q; gx1 : Q; gy0 : Q; gy1 : Q }.

Definition overlap (a0 a1 b0 b1 : Q) : Q :=
  Qmax 0 (Qmin a1 b1 - Qmax a0 b0)%Q.

Definition rect_cell_fraction (rast : NumPyRasterSource) (g : Rect) (r c : nat) : Q :=
  let '(ny, nx) := rs_shape rast in
  let w := ((rs_xmax rast - rs_xmin rast) / inject_Z (Z.of_nat nx))%Q in
  let h := ((rs_ymax rast - rs_ymin rast) / inject_Z (Z.of_nat ny))%Q in
  let cx0 := (rs_xmin rast + inject_Z (Z.of_nat c) * w)%Q in
  let cx1 := (rs_xmin rast + inject_Z (Z.of_nat (S c)) * w)%Q in
  let cy1 := (rs_ymax rast - inject_Z (Z.of_nat r) * h)%Q in
  let cy0 := (rs_ymax rast - inject_Z (Z.of_nat (S r)) * h)%Q in
  Qred (overlap cx0 cx1 (gx0 g) (gx1 g) * overlap cy0 cy1 (gy0 g) (gy1 g)
        / (w * h))%Q.

Definition rect_row (rast : NumPyRasterSource) (w : string) (g : Rect) : EngineRow :=
  let '(ny, nx) := rs_shape rast in
  let cells :=
    flat_map (fun r =>
      flat_map (fun c =>
        let f := rect_cell_fraction rast g r c in
        if Qgt_bool f 0 then
          [(Z.of_nat (r * nx + c), if String.eqb (lower w) "none" then 1%Q else f)]
        else [])
        (seq 0 nx))
      (seq 0 ny) in
  mkRow (map fst cells) (map snd cells).

Definition rect_engine (rast : NumPyRasterSource) (vec : GeoDataFrame Rect)
    (w : string) : list EngineRow :=
  map (rect_row rast w) (gdf_geometry vec).

(** An engine that ignores geometry: every feature is reported on cell 0
    of whatever raster it is shown, fully covered. *)
Definition corner_engine {G} (rast : NumPyRasterSource) (vec : GeoDataFrame G)
    (w : string) : list EngineRow :=
  map (fun _ => mkRow [0%Z] [1%Q]) (gdf_geometry vec).

(** ** What the engine is expected to answer, and what the assembly loop
    is expected to build from it *)

(** One row of the answer is well formed on a raster of [ncells] cells:
    the two lists are parallel and every id names a cell. *)
Definition row_ok (ncells : nat) (r : EngineRow) : bool :=
  (length (cell_id r) =? length (coverage_values r))
  && forallb (fun i => (0 <=? i)%Z && (i <? Z.of_nat ncells)%Z) (cell_id r).

(** No value occurs twice in the list. *)
Fixpoint distinct (l : list Z) : bool :=
  match l with
  | [] => true
  | a :: t => negb (existsb (Z.eqb a) t) && distinct t
  end.

(** The answer to a table of at least one geometry has one well-formed
    row per geometry, and no row names a cell twice. *)
Definition answer_ok (ngeoms ncells : nat) (rows : list EngineRow) : bool :=
  (1 <=? ngeoms) && (length rows =? ngeoms) && forallb (row_ok ncells) rows
  && forallb (fun r => distinct (cell_id r)) rows.

(** The three flat columns of the sparse array: the geometry index of
    each reported cell (rows numbered from [k]), its linear id, and its
    value in the array's dtype. *)
Fixpoint geom_column (k : nat) (rows : list EngineRow) : list Z :=
  match rows with
  | [] => []
  | r :: t => repeat (Z.of_nat k) (length (cell_id r)) ++ geom_column (S k) t
  end.

Definition id_column (rows : list EngineRow) : list Z :=
  flat_map cell_id rows.

Definition value_column (dt : dtype) (rows : list EngineRow) : list Q :=
  flat_map (fun r => map (cast_to dt) (coverage_values r)) rows.

(** The engine-reported per-geometry intersected-cell counts. *)
Definition cell_counts (rows : list EngineRow) : list nat :=
  map (fun r => length (cell_id r)) rows.

(** The value the engine reported for a cell of one row, if any. *)
Fixpoint reported (ids : list Z) (vals : list Q) (id : Z) : option Q :=
  match ids, vals with
  | i :: ids', v :: vals' => if (i =? id)%Z then Some v else reported ids' vals' id
  | _, _ => None
  end.

Definition row_reported (r : EngineRow) (id : Z) : option Q :=
  reported (cell_id r) (coverage_values r) id.

(** The sparse array the columns make up on a block of [ny] x [nx] cells:
    linear ids are decoded row-major. *)
Definition columns_coo (dt : dtype) (rows : list EngineRow) (ng ny nx : nat) : COO :=
  mkCOO (geom_column 0 rows,
         map (fun i => (i / Z.of_nat nx)%Z) (id_column rows),
         map (fun i => (i mod Z.of_nat nx)%Z) (id_column rows))
        (value_column dt rows) dt 0%Q (ng, ny, nx).

(** The stored entries that belong to geometry [g]. *)
Definition entries_of_geom (c : COO) (g : nat) : list (Z * Z * Z * Q) :=
  List.filter (fun e => (fst (fst (fst e)) =? Z.of_nat g)%Z) (entries c).

(** The entries one row of the answer contributes as geometry [k], and
    the entries of a run of rows numbered from [k]. *)
Definition row_entries (dt : dtype) (nx k : nat) (r : EngineRow)
  : list (Z * Z * Z * Q) :=
  zip_entries (repeat (Z.of_nat k) (length (cell_id r)))
              (map (fun i => (i / Z.of_nat nx)%Z) (cell_id r))
              (map (fun i => (i mod Z.of_nat nx)%Z) (cell_id r))
              (map (cast_to dt) (coverage_values r)).

Fixpoint rows_entries (dt : dtype) (nx k : nat) (rows : list EngineRow)
  : list (Z * Z * Z * Q) :=
  match rows with
  | [] => []
  | r :: t => row_entries dt nx k r ++ rows_entries dt nx (S k) t
  end.

(** The engine's answer on the descriptor of the axes [x], [y], when the
    descriptor exists. *)
Definition engine_answer {G}
    (exact_extract : NumPyRasterSource -> GeoDataFrame G -> string -> list EngineRow)
    (x y : list Q) (geometries : GeoDataFrame G) (w : string)
  : result (list EngineRow) :=
  let? raster := xy_to_raster_source x y (Some (to_wkt (gdf_crs geometries))) in
  Ok (exact_extract raster geometries w).

(** The engine answers the block, of at least one geometry, with one
    well-formed row per geometry that names no cell twice. *)
Definition well_answered {G}
    (exact_extract : NumPyRasterSource -> GeoDataFrame G -> string -> list EngineRow)
    (x y : list Q) (geometries : GeoDataFrame G) (w : string) : bool :=
  match engine_answer exact_extract x y geometries w with
  | inr rows => answer_ok (gdf_len geometries) (length y * length x) rows
  | inl _ => false
  end.



(** ** Example inputs: a 4 x 4 grid of unit cells *)

Definition unit_x : list Q := [0.5; 1.5; 2.5; 3.5]%Q.
Definition unit_y : list Q := [3.5; 2.5; 1.5; 0.5]%Q.
Definition wgs84 : CRS := mkCRS "EPSG:4326".

(** One square on the cell of row 1, column 1. *)
Definition one_square : GeoDataFrame Rect :=
  mkGDF ["geometry"%string] [mkRect 1 2 2 3] wgs84.

(** The same square, and a second rectangle away from the grid. *)
Definition two_rects : GeoDataFrame Rect :=
  mkGDF ["geometry"%string] [mkRect 1 2 2 3; mkRect 10 11 10 11] wgs84.

(** ** The two halves of [coverage], named

    [coverage_data] is the Mode Selector with the path it selects: the
    data and the geometry coordinate. [label_output] is the Result
    Assembler: name, attributes and coordinates around the data. *)

Definition coverage_data {G}
    (exact_extract : NumPyRasterSource -> GeoDataFrame G -> string -> list EngineRow)
    (is_in_memory : XrObject -> GeomTable G -> bool)
    (geometries_as_dask_array : GeomTable G -> result (DaskArray G))
    (obj : XrObject) (geometries : GeomTable G)
    (xdim ydim strategy coverage_weight : string)
  : M G (CoverageData G * CoordValue G) :=
  if is_in_memory obj geometries then
    let* xd := lift (obj_getitem obj xdim) in
    let* yd := lift (obj_getitem obj ydim) in
    let* out := np_coverage exact_extract (array_values xd) (array_values yd)
                  (table_frame geometries) strategy coverage_weight in
    let* geom_array := lift (to_numpy_squeeze (table_frame geometries)) in
    ret (EagerData out, GeometryCoord geom_array)
  else
    let* geom_dask_array := lift (geometries_as_dask_array geometries) in
    let* dask_x := lift (coordinate_as_dask obj xdim) in
    let* dask_y := lift (coordinate_as_dask obj ydim) in
    let* out := dask_coverage exact_extract dask_x dask_y geom_dask_array
                  coverage_weight strategy (gdf_crs (table_frame geometries)) in
    let* geom_array :=
      if is_GeoDataFrame geometries then
        let* a := lift (to_numpy_squeeze (table_frame geometries)) in
        ret (GeometryCoord a)
      else ret (GeometryDaskCoord geom_dask_array) in
    ret (LazyData out, geom_array).

Definition output_name (coverage_weight : string) : string :=
  if str_in "area" coverage_weight then "area" else "coverage".

Definition output_attrs (coverage_weight : string) : gmap string string :=
  if str_in "_m2" coverage_weight || String.eqb coverage_weight "area_cartesian"
  then <["units" := "m2"%string]>
         (<["long_name" := removesuffix coverage_weight "_m2"]> ∅)
  else if str_in "_km2" coverage_weight
  then <["units" := "km2"%string]>
         (<["long_name" := removesuffix coverage_weight "_km2"]> ∅)
  else ∅.

Definition index_coords (obj : XrObject) (xdim ydim : string)
  : list (string * list Q) :=
  flat_map (fun dim =>
              match obj_xindexes obj !! dim with
              | Some idx => [(dim, idx)]
              | None => []
              end) [xdim; ydim].

Definition label_output {G} (obj : XrObject) (spatial_ref : string)
    (xdim ydim coverage_weight : string)
    (computed : CoverageData G * CoordValue G) : result (DataArray G) :=
  let '(out, geom_array) := computed in
  let? coords :=
    merge_coords (<["geometry" := geom_array]>
                    (<["spatial_ref" := SpatialRefCoord spatial_ref]> ∅))
                 (index_coords obj xdim ydim) in
  Ok (mkDataArray ["geometry"%string; ydim; xdim] out coords
                  (output_attrs coverage_weight) (output_name coverage_weight)).

(** The object with another payload in its "spatial_ref" coordinate. *)
Definition with_spatial_ref (obj : XrObject) (payload : string) : XrObject :=
  mkObj (Some payload) (obj_vars obj) (obj_chunksizes obj) (obj_xindexes obj).

(** A gridded object on the 4 x 4 grid whose data is chunked 2 + 2 along
    both dimensions; its x and y coordinates are numpy arrays, as index
    coordinates are. *)
Definition chunked_obj : XrObject :=
  mkObj (Some "EPSG:32633"%string)
        (<["x"%string := NumpyData unit_x]> (<["y"%string := NumpyData unit_y]> ∅))
        (<["x"%string := [2; 2]]> (<["y"%string := [2; 2]]> ∅))
        (<["x"%string := unit_x]> (<["y"%string := unit_y]> ∅)).

(** The same grid, fully in memory. *)
Definition eager_obj : XrObject :=
  mkObj (Some "EPSG:32633"%string)
        (<["x"%string := NumpyData unit_x]> (<["y"%string := NumpyData unit_y]> ∅))
        ∅
        (<["x"%string := unit_x]> (<["y"%string := unit_y]> ∅)).

(** A table with a second column beside the geometry column. *)
Definition two_columns : GeoDataFrame Rect :=
  mkGDF ["geometry"%string; "name"%string] [mkRect 1 2 2 3] wgs84.

(** The descriptor of an engine call carries the given CRS. *)
Definition carries_crs {G} (crs : CRS) (c : EngineCall G) : Prop :=
  rs_srs_wkt (call_rast c) = Some (to_wkt crs).

(** ** Chunk layouts and the agreement of block answers *)

(** Where block [b] of a layout starts, and the block itself. *)
Definition chunk_offset (chunks : list nat) (b : nat) : nat :=
  list_sum (firstn b chunks).

Definition chunk_block {A} (chunks : list nat) (data : list A) (b : nat) : list A :=
  firstn (nth b chunks 0) (skipn (chunk_offset chunks b) data).

Definition option_Q_eqb (a b : option Q) : bool :=
  match a, b with
  | Some u, Some v => Q_eqb u v
  | None, None => true
  | _, _ => false
  end.

(** The value reported for cell [id] of geometry [g] in an answer. *)
Definition reported_at (rows : list EngineRow) (g : nat) (id : Z) : option Q :=
  match nth_error rows g with
  | Some row => row_reported row id
  | None => None
  end.

(** The answer [rows_b] on a block agrees with the answer [rows] on the
    whole raster: local cell (lr, lx) of local geometry lg is reported on
    the block exactly as cell (yoff + lr, xoff + lx) of geometry goff + lg
    is on the whole, with the same value. *)
Definition block_agrees (rows rows_b : list EngineRow) (nx : nat)
    (goff yoff xoff : nat) (ngb nyb nxb : nat) : bool :=
  forallb (fun lg =>
    forallb (fun lr =>
      forallb (fun lx =>
        option_Q_eqb
          (reported_at rows_b lg (Z.of_nat (lr * nxb + lx)))
          (reported_at rows (goff + lg)
                       (Z.of_nat ((yoff + lr) * nx + (xoff + lx)))))
        (seq 0 nxb))
      (seq 0 nyb))
    (seq 0 ngb).

(** The engine is consistent on a layout: it answers the whole raster
    and every block, each of at least one geometry, with well-formed rows
    that name no cell twice, and every block answer agrees with the
    whole. *)
Definition engine_consistent {G}
    (exact_extract : NumPyRasterSource -> GeoDataFrame G -> string -> list EngineRow)
    (x y : list Q) (geometries : GeoDataFrame G) (w : string)
    (gch ych xch : list nat) : bool :=
  match engine_answer exact_extract x y geometries w with
  | inr rows =>
      answer_ok (gdf_len geometries) (length y * length x) rows &&
      forallb (fun bg =>
        forallb (fun br =>
          forallb (fun bx =>
            let gb := chunk_block gch (gdf_geometry geometries) bg in
            let yb := chunk_block ych y br in
            let xb := chunk_block xch x bx in
            let table := GeoDataFrame_of_geometry gb (gdf_crs geometries) in
            well_answered exact_extract xb yb table w &&
            match engine_answer exact_extract xb yb table w with
            | inr rows_b =>
                block_agrees rows rows_b (length x)
                  (chunk_offset gch bg) (chunk_offset ych br)
                  (chunk_offset xch bx)
                  (length gb) (length yb) (length xb)
            | inl _ => false
            end)
            (seq 0 (length xch)))
          (seq 0 (length ych)))
        (seq 0 (length gch))
  | inl _ => false
  end.

(** The chunked pipeline run to the end: build the lazy array, force it. *)
Definition dask_coverage_computed {G}
    (exact_extract : NumPyRasterSource -> GeoDataFrame G -> string -> list EngineRow)
    (x y : DaskArray Q) (geom_array : DaskArray G)
    (coverage_weight strategy : string) (crs : CRS) : M G (cube COO) :=
  let* d := dask_coverage exact_extract x y geom_array coverage_weight strategy crs in
  compute d.

(** ** Order of the stored entries *)

(** Strictly increasing, as a check on adjacent elements. *)
Fixpoint strictly_increasing (l : list Z) : bool :=
  match l with
  | a :: (b :: _) as t => (a <? b)%Z && strictly_increasing t
  | _ => true
  end.

(** A short x axis, of one center. *)
Definition single_x : list Q := [0.5]%Q.

(** The cell ids of every row of an answer are strictly increasing. *)
Definition ids_ascending (rows : list EngineRow) : bool :=
  forallb (fun r => strictly_increasing (cell_id r)) rows.

Definition answers_ascending {G}
    (exact_extract : NumPyRasterSource -> GeoDataFrame G -> string -> list EngineRow)
    (x y : list Q) (geometries : GeoDataFrame G) (w : string) : bool :=
  match engine_answer exact_extract x y geometries w with
  | inr rows => ids_ascending rows
  | inl _ => false
  end.

(** The row-major positions of the cells of an answer on a block of
    [ncells] cells, rows numbered from [k]. *)
Fixpoint linear_column (ncells : nat) (k : nat) (rows : list EngineRow) : list Z :=
  match rows with
  | [] => []
  | r :: t =>
      map (fun id => (Z.of_nat k * Z.of_nat ncells + id)%Z) (cell_id r)
      ++ linear_column ncells (S k) t
  end.

(** The positions of the stored entries of a sparse array. *)
Definition entry_positions (c : COO) : list Z :=
  map (fun e => linear_index (coo_shape c) (fst e)) (entries c).

(** The name and the attributes section 4.4 lists for each weighting
    mode, to compare with what [coverage] attaches. *)
Definition expected_name (w : CoverageWeights) : string :=
  match w with
  | fraction | none => "coverage"
  | _ => "area"
  end.

Definition expected_attrs (w : CoverageWeights) : gmap string string :=
  match w with
  | area_spherical_m2 =>
      <["units" := "m2"%string]> (<["long_name" := "area_spherical"%string]> ∅)
  | area_cartesian =>
      <["units" := "m2"%string]> (<["long_name" := "area_cartesian"%string]> ∅)
  | area_spherical_km2 =>
      <["units" := "km2"%string]> (<["long_name" := "area_spherical"%string]> ∅)
  | fraction | none => ∅
  end.

(** A gridded object without a "spatial_ref" coordinate. *)
Definition bare_obj : XrObject :=
  mkObj None
        (<["x"%string := NumpyData unit_x]> (<["y"%string := NumpyData unit_y]> ∅))
        ∅
        (<["x"%string := unit_x]> (<["y"%string := unit_y]> ∅)).

(** An in-memory object whose x axis has a single center. *)
Definition narrow_obj : XrObject :=
  mkObj (Some "EPSG:32633"%string)
        (<["x"%string := NumpyData single_x]> (<["y"%string := NumpyData unit_y]> ∅))
        ∅
        (<["x"%string := single_x]> (<["y"%string := unit_y]> ∅)).

(** An object whose data is chunked 3 + 1 along x. *)
Definition unit_chunk_obj : XrObject :=
  mkObj (Some "EPSG:32633"%string)
        (<["x"%string := NumpyData unit_x]> (<["y"%string := NumpyData unit_y]> ∅))
        (<["x"%string := [3; 1]]> (<["y"%string := [2; 2]]> ∅))
        (<["x"%string := unit_x]> (<["y"%string := unit_y]> ∅)).

(** The engine answers every block of a layout, each of at least one
    geometry, with well-formed rows that name no cell twice. *)
Definition blocks_well_answered {G}
    (exact_extract : NumPyRasterSource -> GeoDataFrame G -> string -> list EngineRow)
    (x y : list Q) (geoms : list G) (crs : CRS) (w : string)
    (gch ych xch : list nat) : bool :=
  forallb (fun bg =>
    forallb (fun br =>
      forallb (fun bx =>
        well_answered exact_extract (chunk_block xch x bx) (chunk_block ych y br)
          (GeoDataFrame_of_geometry (chunk_block gch geoms bg) crs) w)
        (seq 0 (length xch)))
      (seq 0 (length ych)))
    (seq 0 (length gch)).

(** No two neighbours of the list are equal. *)
Fixpoint adjacent_distinct (l : list Z) : Prop :=
  match l with
  | a :: (b :: _) as t => a <> b /\ adjacent_distinct t
  | _ => True
  end.

(** ** The chunked path, named *)

(** A coordinate as [dask_coverage] is to receive it: a dask array as it
    is; a numpy array as a chunked array of the same values, in the chunks
    the object declares for the dimension, in one chunk when it declares
    none. *)
Definition normalised (obj : XrObject) (dim : string) (d : ArrayData)
    (a : DaskArray Q) : Prop :=
  match d with
  | NumpyData v =>
      da_values a = v /\
      da_chunks a = match obj_chunksizes obj !! dim with
                    | Some cs => cs
                    | None => [length v]
                    end
  | DaskData a' => a = a'
  end.

(** What the chunked path of [coverage] does after [dask_coverage] has
    returned the lazy array: the geometry coordinate, lines 237-240. *)
Definition chunked_path_tail {G} (geometries : GeomTable G)
    (geom_dask_array : DaskArray G) (out : DaskCOO G)
  : M G (CoverageData G * CoordValue G) :=
  let* geom_array :=
    if is_GeoDataFrame geometries then
      let* a := lift (to_numpy_squeeze (table_frame geometries)) in
      ret (GeometryCoord a)
    else ret (GeometryDaskCoord geom_dask_array) in
  ret (LazyData out, geom_array).

(** An engine that ignores geometry and lists a cell twice: every
    feature is reported on cell 5, with the values 1/4 and 1/2. *)
Definition twice_engine {G} (rast : NumPyRasterSource) (vec : GeoDataFrame G)
    (w : string) : list EngineRow :=
  map (fun _ => mkRow [5%Z; 5%Z] [(1 # 4)%Q; (1 # 2)%Q]) (gdf_geometry vec).

(** A table of one column and no geometry. *)
Definition no_geometry : GeoDataFrame Rect :=
  mkGDF ["geometry"%string] [] wgs84.

(** * Properties *)

(** ** Indexing and reductions *)

Lemma py_index_front {A} (a : list A) (i : nat) (d : A) :
  i < length a -> py_index a (Z.of_nat i) = Ok (nth i a d).
Proof.
  intros Hi. unfold py_index.
  destruct (Z.of_nat i <? 0)%Z eqn:Hneg; [apply Z.ltb_lt in Hneg; lia|].
  replace ((0 <=? Z.of_nat i)%Z && (Z.of_nat i <? Z.of_nat (length a))%Z)%bool
    with true by (symmetry; apply andb_true_iff; split;
                  [apply Z.leb_le | apply Z.ltb_lt]; lia).
  rewrite Nat2Z.id.
  destruct (nth_error a i) eqn:E.
  - f_equal. symmetry. now apply nth_error_nth.
  - apply nth_error_None in E. lia.
Qed.

Lemma py_index_back {A} (a : list A) (k : nat) (d : A) :
  1 <= k <= length a ->
  py_index a (- Z.of_nat k) = Ok (nth (length a - k) a d).
Proof.
  intros Hk. unfold py_index.
  destruct (- Z.of_nat k <? 0)%Z eqn:Hneg; [|apply Z.ltb_ge in Hneg; lia].
  replace (Z.of_nat (length a) + - Z.of_nat k)%Z
    with (Z.of_nat (length a - k)) by lia.
  replace ((0 <=? Z.of_nat (length a - k))%Z
           && (Z.of_nat (length a - k) <? Z.of_nat (length a))%Z)%bool
    with true by (symmetry; apply andb_true_iff; split;
                  [apply Z.leb_le | apply Z.ltb_lt]; lia).
  rewrite Nat2Z.id.
  destruct (nth_error a (length a - k)) eqn:E.
  - f_equal. symmetry. now apply nth_error_nth.
  - apply nth_error_None in E. lia.
Qed.

Lemma Qmin_cases (a b : Q) :
  (Qmin a b = a /\ (a <= b)%Q) \/ (Qmin a b = b /\ (b <= a)%Q).
Proof.
  unfold Qmin, GenericMinMax.gmin.
  destruct (a ?= b)%Q eqn:E.
  - left. split; [reflexivity|]. apply Qeq_alt in E. rewrite E. apply Qle_refl.
  - left. split; [reflexivity|]. apply Qlt_alt in E. now apply Qlt_le_weak.
  - right. split; [reflexivity|]. apply Qgt_alt in E. now apply Qlt_le_weak.
Qed.

Lemma Qmax_cases (a b : Q) :
  (Qmax a b = a /\ (b <= a)%Q) \/ (Qmax a b = b /\ (a <= b)%Q).
Proof.
  unfold Qmax, GenericMinMax.gmax.
  destruct (a ?= b)%Q eqn:E.
  - left. split; [reflexivity|]. apply Qeq_alt in E. rewrite E. apply Qle_refl.
  - right. split; [reflexivity|]. apply Qlt_alt in E. now apply Qlt_le_weak.
  - left. split; [reflexivity|]. apply Qgt_alt in E. now apply Qlt_le_weak.
Qed.

Lemma fold_min_least (t : list Q) (v : Q) :
  is_least (fold_left Qmin t v) (v :: t).
Proof.
  revert v. induction t as [|u t IH]; intros v; simpl.
  - split; [now left|]. intros w [<-|[]]. apply Qle_refl.
  - destruct (IH (Qmin v u)) as [Hin Hle]. split.
    + destruct Hin as [Hin|Hin]; [|now right; right].
      rewrite <- Hin.
      destruct (Qmin_cases v u) as [[E _]|[E _]]; rewrite E;
        [left | right; left]; reflexivity.
    + intros w Hw.
      assert (Hvu : (fold_left Qmin t (Qmin v u) <= Qmin v u)%Q)
        by (apply Hle; now left).
      destruct Hw as [<-|[<-|Hw]].
      * eapply Qle_trans; [exact Hvu|].
        destruct (Qmin_cases v u) as [[E H]|[E H]]; rewrite E;
          [apply Qle_refl | exact H].
      * eapply Qle_trans; [exact Hvu|].
        destruct (Qmin_cases v u) as [[E H]|[E H]]; rewrite E;
          [exact H | apply Qle_refl].
      * apply Hle. now right.
Qed.

Lemma fold_max_greatest (t : list Q) (v : Q) :
  is_greatest (fold_left Qmax t v) (v :: t).
Proof.
  revert v. induction t as [|u t IH]; intros v; simpl.
  - split; [now left|]. intros w [<-|[]]. apply Qle_refl.
  - destruct (IH (Qmax v u)) as [Hin Hle]. split.
    + destruct Hin as [Hin|Hin]; [|now right; right].
      rewrite <- Hin.
      destruct (Qmax_cases v u) as [[E _]|[E _]]; rewrite E;
        [left | right; left]; reflexivity.
    + intros w Hw.
      assert (Hvu : (Qmax v u <= fold_left Qmax t (Qmax v u))%Q)
        by (apply Hle; now left).
      destruct Hw as [<-|[<-|Hw]].
      * eapply Qle_trans; [|exact Hvu].
        destruct (Qmax_cases v u) as [[E H]|[E H]]; rewrite E;
          [apply Qle_refl | exact H].
      * eapply Qle_trans; [|exact Hvu].
        destruct (Qmax_cases v u) as [[E H]|[E H]]; rewrite E;
          [exact H | apply Qle_refl].
      * apply Hle. now right.
Qed.

Lemma np_min_least (a : list Q) :
  1 <= length a -> exists m, np_min a = Ok m /\ is_least m a.
Proof.
  destruct a as [|v t]; simpl; [lia|]. intros _.
  eexists. split; [reflexivity|]. apply fold_min_least.
Qed.

Lemma np_max_greatest (a : list Q) :
  1 <= length a -> exists m, np_max a = Ok m /\ is_greatest m a.
Proof.
  destruct a as [|v t]; simpl; [lia|]. intros _.
  eexists. split; [reflexivity|]. apply fold_max_greatest.
Qed.

(** ** The raster descriptor *)

Lemma xy_to_raster_source_unfold (x y : list Q) (srs_wkt : option string) :
  2 <= length x -> 2 <= length y ->
  exists mx Mx my My,
    is_least mx x /\ is_greatest Mx x /\ is_least my y /\ is_greatest My y /\
    xy_to_raster_source x y srs_wkt =
    Ok {| rs_shape := (length y, length x);
          rs_fill := 1;
          rs_xmin := (mx - (second_center x - first_center x) / 2)%Q;
          rs_xmax := (Mx + (last_center x - penultimate_center x) / 2)%Q;
          rs_ymin := (my - y_start_half y)%Q;
          rs_ymax := (My + y_end_half y)%Q;
          rs_srs_wkt := srs_wkt |}.
Proof.
  intros Hx Hy.
  destruct (np_min_least x) as (mx & Emx & Hmx); [lia|].
  destruct (np_max_greatest x) as (Mx & EMx & HMx); [lia|].
  destruct (np_min_least y) as (my & Emy & Hmy); [lia|].
  destruct (np_max_greatest y) as (My & EMy & HMy); [lia|].
  exists mx, Mx, my, My. repeat (split; [assumption|]).
  unfold xy_to_raster_source.
  pose proof (py_index_front x 1 0%Q ltac:(lia)) as X1.
  pose proof (py_index_front x 0 0%Q ltac:(lia)) as X0.
  pose proof (py_index_back x 1 0%Q ltac:(lia)) as Xl.
  pose proof (py_index_back x 2 0%Q ltac:(lia)) as Xp.
  pose proof (py_index_front y 1 0%Q ltac:(lia)) as Y1.
  pose proof (py_index_front y 0 0%Q ltac:(lia)) as Y0.
  pose proof (py_index_back y 1 0%Q ltac:(lia)) as Yl.
  pose proof (py_index_back y 2 0%Q ltac:(lia)) as Yp.
  change (Z.of_nat 1) with 1%Z in *. change (Z.of_nat 0) with 0%Z in *.
  change (Z.opp 1%Z) with (Z.neg 1) in *.
  change (Z.opp (Z.of_nat 2)) with (Z.neg 2) in *.
  rewrite X1, X0, Xl, Xp, Y1, Y0, Yl, Yp.
  cbn [rbind]. rewrite Emx, EMx, Emy, EMy. cbn [rbind].
  unfold y_start_half, y_end_half, first_center, second_center,
    last_center, penultimate_center.
  destruct (Qgt_bool (nth 0 y 0%Q) (nth (length y - 1) y 0%Q)); reflexivity.
Qed.

(** C2. For 1-D axes of length at least 2 the descriptor is returned, its
    shape is (len(y), len(x)), xmin is x.min() minus half of x[1]-x[0], xmax
    is x.max() plus half of x[-1]-x[-2], and ymin and ymax use the absolute
    half-distances at the two ends of y, exchanged when y[0] > y[-1]. *)
Theorem xy_to_raster_source_bounds (x y : list Q) (srs_wkt : option string) :
  2 <= length x -> 2 <= length y ->
  exists r mx Mx my My,
    xy_to_raster_source x y srs_wkt = Ok r /\
    is_least mx x /\ is_greatest Mx x /\ is_least my y /\ is_greatest My y /\
    rs_shape r = (length y, length x) /\
    rs_xmin r = (mx - (second_center x - first_center x) / 2)%Q /\
    rs_xmax r = (Mx + (last_center x - penultimate_center x) / 2)%Q /\
    rs_ymin r =
      (my - (if Qgt_bool (first_center y) (last_center y)
             then Qabs (last_center y - penultimate_center y) / 2
             else Qabs (second_center y - first_center y) / 2))%Q /\
    rs_ymax r =
      (My + (if Qgt_bool (first_center y) (last_center y)
             then Qabs (second_center y - first_center y) / 2
             else Qabs (last_center y - penultimate_center y) / 2))%Q.
Proof.
  intros Hx Hy.
  destruct (xy_to_raster_source_unfold x y srs_wkt Hx Hy)
    as (mx & Mx & my & My & H1 & H2 & H3 & H4 & E).
  eexists _, mx, Mx, my, My. split; [exact E|].
  repeat (split; [assumption|]). cbn.
  unfold y_start_half, y_end_half.
  destruct (Qgt_bool (first_center y) (last_center y)); repeat split; reflexivity.
Qed.

Lemma xy_to_raster_source_bounds_witness :
  exists r mx Mx my My,
    xy_to_raster_source [0.5; 1.5; 2.5; 3.5]%Q [3.5; 2.5; 1.5; 0.5]%Q None = Ok r /\
    is_least mx [0.5; 1.5; 2.5; 3.5]%Q /\ is_greatest Mx [0.5; 1.5; 2.5; 3.5]%Q /\
    is_least my [3.5; 2.5; 1.5; 0.5]%Q /\ is_greatest My [3.5; 2.5; 1.5; 0.5]%Q /\
    rs_shape r = (4, 4) /\
    rs_xmin r = (mx - (1.5 - 0.5) / 2)%Q /\
    rs_xmax r = (Mx + (3.5 - 2.5) / 2)%Q /\
    rs_ymin r = (my - Qabs (0.5 - 1.5) / 2)%Q /\
    rs_ymax r = (My + Qabs (2.5 - 3.5) / 2)%Q.
Proof.
  apply (xy_to_raster_source_bounds [0.5; 1.5; 2.5; 3.5]%Q
           [3.5; 2.5; 1.5; 0.5]%Q None); simpl; lia.
Defined.

(** ** Axis direction *)

Lemma Qgt_bool_true (a b : Q) : Qgt_bool a b = true <-> (b < a)%Q.
Proof.
  unfold Qgt_bool. rewrite negb_true_iff. split.
  - intros H. apply Qnot_le_lt. intros Hle.
    apply Qle_bool_iff in Hle. congruence.
  - intros H. destruct (Qle_bool a b) eqn:E; [|reflexivity].
    apply Qle_bool_iff in E. exfalso. apply (Qlt_not_le _ _ H E).
Qed.

Lemma Qgt_bool_false (a b : Q) : Qgt_bool a b = false <-> (a <= b)%Q.
Proof.
  unfold Qgt_bool. rewrite negb_false_iff. apply Qle_bool_iff.
Qed.

Lemma ascending_head (u : Q) (t : list Q) :
  ascending (u :: t) = true ->
  forall j, j < length t -> (u < nth j t 0)%Q.
Proof.
  revert u. induction t as [|v t IH]; intros u H j Hj; simpl in Hj; [lia|].
  cbn [ascending] in H. apply andb_true_iff in H as [Huv Ht].
  apply Qgt_bool_true in Huv.
  destruct j as [|j]; [exact Huv|]. simpl.
  eapply Qlt_trans; [exact Huv|]. apply IH; [exact Ht | lia].
Qed.

Lemma ascending_tail (u : Q) (t : list Q) :
  ascending (u :: t) = true -> ascending t = true.
Proof.
  destruct t as [|v t]; [reflexivity|]. cbn [ascending].
  intros H. now apply andb_true_iff in H as [_ H].
Qed.

Lemma ascending_increasing (a : list Q) : ascending a = true -> increasing a.
Proof.
  induction a as [|u t IH]; intros H i j Hij Hj; simpl in Hj; [lia|].
  destruct j as [|j]; [lia|]. destruct i as [|i]; simpl.
  - apply (ascending_head u t H). lia.
  - apply IH; [eapply ascending_tail; exact H | lia | lia].
Qed.

Lemma descending_head (u : Q) (t : list Q) :
  descending (u :: t) = true ->
  forall j, j < length t -> (nth j t 0 < u)%Q.
Proof.
  revert u. induction t as [|v t IH]; intros u H j Hj; simpl in Hj; [lia|].
  cbn [descending] in H. apply andb_true_iff in H as [Huv Ht].
  apply Qgt_bool_true in Huv.
  destruct j as [|j]; [exact Huv|]. simpl.
  eapply Qlt_trans; [|exact Huv]. apply IH; [exact Ht | lia].
Qed.

Lemma descending_tail (u : Q) (t : list Q) :
  descending (u :: t) = true -> descending t = true.
Proof.
  destruct t as [|v t]; [reflexivity|]. cbn [descending].
  intros H. now apply andb_true_iff in H as [_ H].
Qed.

Lemma descending_decreasing (a : list Q) : descending a = true -> decreasing a.
Proof.
  induction a as [|u t IH]; intros H i j Hij Hj; simpl in Hj; [lia|].
  destruct j as [|j]; [lia|]. destruct i as [|i]; simpl.
  - apply (descending_head u t H). lia.
  - apply IH; [eapply descending_tail; exact H | lia | lia].
Qed.

Lemma increasing_rev (a : list Q) : increasing a -> decreasing (rev a).
Proof.
  intros H i j Hij Hj. rewrite length_rev in Hj.
  rewrite !rev_nth by lia. apply H; lia.
Qed.

Lemma decreasing_rev (a : list Q) : decreasing a -> increasing (rev a).
Proof.
  intros H i j Hij Hj. rewrite length_rev in Hj.
  rewrite !rev_nth by lia. apply H; lia.
Qed.

Lemma rev_first_center (a : list Q) :
  1 <= length a -> first_center (rev a) = last_center a.
Proof.
  intros H. unfold first_center, last_center.
  rewrite rev_nth by lia. f_equal.
Qed.

Lemma rev_second_center (a : list Q) :
  2 <= length a -> second_center (rev a) = penultimate_center a.
Proof.
  intros H. unfold second_center, penultimate_center.
  rewrite rev_nth by lia. f_equal.
Qed.

Lemma rev_last_center (a : list Q) :
  1 <= length a -> last_center (rev a) = first_center a.
Proof.
  intros H. unfold first_center, last_center.
  rewrite length_rev, rev_nth by lia. f_equal. lia.
Qed.

Lemma rev_penultimate_center (a : list Q) :
  2 <= length a -> penultimate_center (rev a) = second_center a.
Proof.
  intros H. unfold second_center, penultimate_center.
  rewrite length_rev, rev_nth by lia. f_equal. lia.
Qed.

Lemma increasing_least (a : list Q) (m : Q) :
  1 <= length a -> increasing a -> is_least m a -> (m == first_center a)%Q.
Proof.
  intros Hlen Hinc [Hin Hle]. apply Qle_antisym.
  - apply Hle. unfold first_center. apply nth_In. lia.
  - destruct (In_nth a m 0%Q Hin) as (i & Hi & <-).
    destruct i as [|i]; [apply Qle_refl|].
    apply Qlt_le_weak. apply Hinc; lia.
Qed.

Lemma increasing_greatest (a : list Q) (m : Q) :
  1 <= length a -> increasing a -> is_greatest m a -> (m == last_center a)%Q.
Proof.
  intros Hlen Hinc [Hin Hle]. apply Qle_antisym.
  - destruct (In_nth a m 0%Q Hin) as (i & Hi & <-).
    unfold last_center.
    destruct (Nat.eq_dec i (length a - 1)) as [->|Hne]; [apply Qle_refl|].
    apply Qlt_le_weak. apply Hinc; lia.
  - apply Hle. unfold last_center. apply nth_In. lia.
Qed.

Lemma is_least_rev (a : list Q) (m : Q) : is_least m a -> is_least m (rev a).
Proof.
  intros [Hin Hle]. split.
  - now apply in_rev in Hin.
  - intros v Hv. apply Hle. now apply in_rev.
Qed.

Lemma is_greatest_rev (a : list Q) (m : Q) :
  is_greatest m a -> is_greatest m (rev a).
Proof.
  intros [Hin Hle]. split.
  - now apply in_rev in Hin.
  - intros v Hv. apply Hle. now apply in_rev.
Qed.

Lemma decreasing_least (a : list Q) (m : Q) :
  1 <= length a -> decreasing a -> is_least m a -> (m == last_center a)%Q.
Proof.
  intros Hlen Hdec Hm. rewrite <- rev_first_center by exact Hlen.
  apply increasing_least.
  - rewrite length_rev. exact Hlen.
  - now apply decreasing_rev.
  - now apply is_least_rev.
Qed.

Lemma decreasing_greatest (a : list Q) (m : Q) :
  1 <= length a -> decreasing a -> is_greatest m a -> (m == first_center a)%Q.
Proof.
  intros Hlen Hdec Hm. rewrite <- rev_last_center by exact Hlen.
  apply increasing_greatest.
  - rewrite length_rev. exact Hlen.
  - now apply decreasing_rev.
  - now apply is_greatest_rev.
Qed.

Lemma increasing_ends (a : list Q) :
  2 <= length a -> increasing a ->
  (first_center a < second_center a)%Q /\
  (penultimate_center a < last_center a)%Q /\
  (first_center a < last_center a)%Q.
Proof.
  intros Hlen H. unfold first_center, second_center, penultimate_center,
    last_center. repeat split; apply H; lia.
Qed.

Lemma decreasing_ends (a : list Q) :
  2 <= length a -> decreasing a ->
  (second_center a < first_center a)%Q /\
  (last_center a < penultimate_center a)%Q /\
  (last_center a < first_center a)%Q.
Proof.
  intros Hlen H. unfold first_center, second_center, penultimate_center,
    last_center. repeat split; apply H; lia.
Qed.

Lemma Qhalf (a : Q) : (a / 2 == a * (1 # 2))%Q.
Proof. field. Qed.

Ltac qlra := rewrite ?Qhalf; lra.

Ltac descriptor_of E x y srs Hx Hy :=
  let mx := fresh "mx" in let Mx := fresh "Mx" in
  let my := fresh "my" in let My := fresh "My" in
  let E' := fresh "E" in
  destruct (xy_to_raster_source_unfold x y srs Hx Hy)
    as (mx & Mx & my & My & ? & ? & ? & ? & E');
  rewrite E' in E; injection E as <-; cbn [rs_xmin rs_xmax rs_ymin rs_ymax].

(** On an ascending y axis the box reaches half a boundary cell below the
    first center and half a boundary cell above the last one. *)
Lemma y_bounds_ascending (x y : list Q) (srs : option string) (r : NumPyRasterSource) :
  2 <= length x -> 2 <= length y -> increasing y ->
  xy_to_raster_source x y srs = Ok r ->
  (rs_ymin r == first_center y - (second_center y - first_center y) / 2)%Q /\
  (rs_ymax r == last_center y + (last_center y - penultimate_center y) / 2)%Q.
Proof.
  intros Hx Hy Hinc E. descriptor_of E x y srs Hx Hy.
  destruct (increasing_ends y Hy Hinc) as (Hc1 & Hc2 & Hc3).
  assert (Hmy : (my == first_center y)%Q) by (apply increasing_least; auto; lia).
  assert (HMy : (My == last_center y)%Q) by (apply increasing_greatest; auto; lia).
  unfold y_start_half, y_end_half.
  replace (Qgt_bool (first_center y) (last_center y)) with false
    by (symmetry; apply Qgt_bool_false; lra).
  rewrite !Qabs_pos by lra. rewrite Hmy, HMy. split; reflexivity.
Qed.

(** On a descending y axis the two half-distances are exchanged, so the
    box still reaches half a boundary cell beyond the lowest and the
    highest center. *)
Lemma y_bounds_descending (x y : list Q) (srs : option string) (r : NumPyRasterSource) :
  2 <= length x -> 2 <= length y -> decreasing y ->
  xy_to_raster_source x y srs = Ok r ->
  (rs_ymin r == last_center y - (penultimate_center y - last_center y) / 2)%Q /\
  (rs_ymax r == first_center y + (first_center y - second_center y) / 2)%Q.
Proof.
  intros Hx Hy Hdec E. descriptor_of E x y srs Hx Hy.
  destruct (decreasing_ends y Hy Hdec) as (Hc1 & Hc2 & Hc3).
  assert (Hmy : (my == last_center y)%Q) by (apply decreasing_least; auto; lia).
  assert (HMy : (My == first_center y)%Q) by (apply decreasing_greatest; auto; lia).
  unfold y_start_half, y_end_half.
  replace (Qgt_bool (first_center y) (last_center y)) with true
    by (symmetry; apply Qgt_bool_true; lra).
  rewrite !Qabs_neg by lra. rewrite Hmy, HMy. split; qlra.
Qed.

(** Reversing a strictly monotonic y axis leaves (ymin, ymax) unchanged. *)
Lemma y_bounds_reversal (x y : list Q) (srs : option string)
    (r r' : NumPyRasterSource) :
  2 <= length x -> 2 <= length y ->
  ascending y = true \/ descending y = true ->
  xy_to_raster_source x y srs = Ok r ->
  xy_to_raster_source x (rev y) srs = Ok r' ->
  (rs_ymin r' == rs_ymin r)%Q /\ (rs_ymax r' == rs_ymax r)%Q.
Proof.
  intros Hx Hy Hdir E E'.
  assert (Hy' : 2 <= length (rev y)) by (rewrite length_rev; exact Hy).
  destruct Hdir as [Ha|Hd].
  - apply ascending_increasing in Ha.
    destruct (y_bounds_ascending x y srs r Hx Hy Ha E) as [-> ->].
    destruct (y_bounds_descending x (rev y) srs r' Hx Hy'
                (increasing_rev y Ha) E') as [-> ->].
    rewrite rev_first_center, rev_second_center, rev_last_center,
      rev_penultimate_center by lia.
    split; reflexivity.
  - apply descending_decreasing in Hd.
    destruct (y_bounds_descending x y srs r Hx Hy Hd E) as [-> ->].
    destruct (y_bounds_ascending x (rev y) srs r' Hx Hy'
                (decreasing_rev y Hd) E') as [-> ->].
    rewrite rev_first_center, rev_second_center, rev_last_center,
      rev_penultimate_center by lia.
    split; reflexivity.
Qed.

(** On an ascending x axis the box reaches half a boundary cell beyond
    the first and the last center. *)
Lemma x_bounds_ascending (x y : list Q) (srs : option string) (r : NumPyRasterSource) :
  2 <= length x -> 2 <= length y -> increasing x ->
  xy_to_raster_source x y srs = Ok r ->
  (rs_xmin r == first_center x - (second_center x - first_center x) / 2)%Q /\
  (rs_xmax r == last_center x + (last_center x - penultimate_center x) / 2)%Q.
Proof.
  intros Hx Hy Hinc E. descriptor_of E x y srs Hx Hy.
  assert (Hmx : (mx == first_center x)%Q) by (apply increasing_least; auto; lia).
  assert (HMx : (Mx == last_center x)%Q) by (apply increasing_greatest; auto; lia).
  rewrite Hmx, HMx. split; reflexivity.
Qed.

(** On a descending x axis the signed half-distances are negative: they
    are taken off the wrong ends, and the box stops short of the outermost
    cell centers. *)
Lemma x_bounds_descending (x y : list Q) (srs : option string) (r : NumPyRasterSource) :
  2 <= length x -> 2 <= length y -> decreasing x ->
  xy_to_raster_source x y srs = Ok r ->
  (rs_xmin r == last_center x + (first_center x - second_center x) / 2)%Q /\
  (rs_xmax r == first_center x - (penultimate_center x - last_center x) / 2)%Q /\
  (last_center x < rs_xmin r)%Q /\ (rs_xmax r < first_center x)%Q.
Proof.
  intros Hx Hy Hdec E. descriptor_of E x y srs Hx Hy.
  destruct (decreasing_ends x Hx Hdec) as (Hc1 & Hc2 & Hc3).
  assert (Hmx : (mx == last_center x)%Q) by (apply decreasing_least; auto; lia).
  assert (HMx : (Mx == first_center x)%Q) by (apply decreasing_greatest; auto; lia).
  rewrite Hmx, HMx. repeat split; qlra.
Qed.

(** C3. The descending x axis [3.5, 2.5, 1.5, 0.5] of unit cells: the
    descriptor spans [1, 3], although the cells reach from 0 to 4, which is
    what the ascending reversal of the same axis yields; on the y axis the
    same pair of axes gives [0, 4] in both directions. *)
Theorem xy_to_raster_source_descending_x :
  exists r r',
    xy_to_raster_source [3.5; 2.5; 1.5; 0.5]%Q [3.5; 2.5; 1.5; 0.5]%Q None = Ok r /\
    xy_to_raster_source (rev [3.5; 2.5; 1.5; 0.5]%Q)
                        (rev [3.5; 2.5; 1.5; 0.5]%Q) None = Ok r' /\
    (rs_xmin r == 1)%Q /\ (rs_xmax r == 3)%Q /\
    (rs_xmin r' == 0)%Q /\ (rs_xmax r' == 4)%Q /\
    (rs_ymin r == 0)%Q /\ (rs_ymax r == 4)%Q /\
    (rs_ymin r' == 0)%Q /\ (rs_ymax r' == 4)%Q.
Proof.
  eexists _, _. split; [vm_compute; reflexivity|].
  split; [vm_compute; reflexivity|].
  cbn [rs_xmin rs_xmax rs_ymin rs_ymax]. repeat split; reflexivity.
Qed.

(** ** Shape of a run of [np_coverage] *)


Lemma np_vectorize_len_ok {A} (values : list (list A)) :
  values <> [] -> np_vectorize_len values = Ok (map (@length A) values).
Proof.
  destruct values as [|v t]; [congruence|reflexivity].
Qed.

Lemma np_vectorize_len_empty {A} :
  np_vectorize_len (@nil (list A)) =
    Err (ValueError
      "cannot call `vectorize` on size 0 inputs unless `otypes` is set").
Proof. reflexivity. Qed.

Section PipelineFacts.
Context {Geometry : Type}.
Variable exact_extract :
  NumPyRasterSource -> GeoDataFrame Geometry -> string -> list EngineRow.


(** More than one column: the usage error, and no engine call. *)
Lemma np_coverage_many_columns x y geometries strategy w :
  1 < length (gdf_columns geometries) ->
  np_coverage exact_extract x y geometries strategy w =
    ([], Err (ValueError "Require a single geometries column or a GeoSeries.")).
Proof.
  intros H. unfold np_coverage.
  apply Nat.ltb_lt in H. rewrite H. reflexivity.
Qed.

(** A run calls the engine at most once, always with the table's own CRS
    on the descriptor. *)
Lemma np_coverage_trace x y geometries strategy w :
  trace (np_coverage exact_extract x y geometries strategy w) = [] \/
  exists raster,
    xy_to_raster_source x y (Some (to_wkt (gdf_crs geometries))) = Ok raster /\
    trace (np_coverage exact_extract x y geometries strategy w) =
      [mkCall raster geometries w].
Proof.
  unfold np_coverage, trace.
  destruct (1 <? length (gdf_columns geometries)); [left; reflexivity|].
  destruct (xy_to_raster_source x y (Some (to_wkt (gdf_crs geometries))))
    as [e|raster] eqn:Er; [left; reflexivity|].
  right. exists raster. split; [reflexivity|].
  cbn [lift bind call_engine ret fst snd app].
  destruct (np_vectorize_len (map cell_id (exact_extract raster geometries w)))
    as [e|lens]; [reflexivity|].
  cbn [lift bind ret fst snd app].
  match goal with
  | |- context [assemble_loop ?a ?b ?c ?d] =>
      destruct (assemble_loop a b c d) as [e|[[[gi xy] data] off]]
  end; [reflexivity|].
  cbn [lift bind ret fst snd app].
  destruct (unravel_index xy (length y, length x)) as [e|yx];
    reflexivity.
Qed.

End PipelineFacts.

(** ** The assembly loop *)

Lemma set_slice_window {A} (pre rest v : list A) (n : nat) :
  n <= length rest -> length v = n ->
  set_slice (pre ++ rest) (length pre) n v = Ok (pre ++ v ++ skipn n rest).
Proof.
  intros Hn Hv. unfold set_slice. rewrite length_app.
  replace (Nat.min (length pre) (length pre + length rest)) with (length pre) by lia.
  replace (Nat.min (length pre + n) (length pre + length rest))
    with (length pre + n) by lia.
  replace (length pre + n - length pre) with n by lia.
  rewrite Hv, Nat.eqb_refl.
  rewrite firstn_app, firstn_all, Nat.sub_diag, firstn_O, app_nil_r.
  rewrite skipn_app.
  rewrite (skipn_all2 pre) by lia.
  replace (length pre + n - length pre) with n by lia. reflexivity.
Qed.

Lemma set_slice_scalar_window {A} (pre rest : list A) (n : nat) (c : A) :
  n <= length rest ->
  set_slice_scalar (pre ++ rest) (length pre) n c =
    pre ++ repeat c n ++ skipn n rest.
Proof.
  intros Hn. unfold set_slice_scalar. rewrite length_app.
  replace (Nat.min (length pre) (length pre + length rest)) with (length pre) by lia.
  replace (Nat.min (length pre + n) (length pre + length rest))
    with (length pre + n) by lia.
  replace (length pre + n - length pre) with n by lia.
  rewrite firstn_app, firstn_all, Nat.sub_diag, firstn_O, app_nil_r.
  rewrite skipn_app.
  rewrite (skipn_all2 pre) by lia.
  replace (length pre + n - length pre) with n by lia. reflexivity.
Qed.

Lemma row_at_middle {A} (done todo : list A) (r : A) :
  row_at (done ++ r :: todo) (length done) = Ok r.
Proof.
  unfold row_at. rewrite nth_error_app2 by lia.
  rewrite Nat.sub_diag. reflexivity.
Qed.

Lemma row_ok_parallel ncells r :
  row_ok ncells r = true -> length (cell_id r) = length (coverage_values r).
Proof.
  unfold row_ok. intros H. apply andb_true_iff in H as [H _].
  now apply Nat.eqb_eq.
Qed.

Lemma length_id_column rows : length (id_column rows) = list_sum (cell_counts rows).
Proof.
  unfold id_column, cell_counts.
  induction rows as [|r t IH]; simpl; [reflexivity|].
  rewrite length_app, IH. reflexivity.
Qed.

Lemma length_geom_column k rows :
  length (geom_column k rows) = list_sum (cell_counts rows).
Proof.
  revert k. unfold cell_counts.
  induction rows as [|r t IH]; intros k; simpl; [reflexivity|].
  rewrite length_app, repeat_length, IH. reflexivity.
Qed.

Lemma length_value_column dt ncells rows :
  forallb (row_ok ncells) rows = true ->
  length (value_column dt rows) = list_sum (cell_counts rows).
Proof.
  unfold value_column, cell_counts.
  induction rows as [|r t IH]; simpl; [reflexivity|].
  intros H. apply andb_true_iff in H as [Hr Ht].
  rewrite length_app, length_map, IH by exact Ht.
  now rewrite (row_ok_parallel _ _ Hr).
Qed.

Section AssemblyLoop.
Variable dt : dtype.
Variable ncells : nat.

(** The loop, started at row [length done] with the first [off] slots of
    the three arrays already written, writes the columns of the
    remaining rows behind them and fails nowhere. *)
Lemma assemble_loop_columns (todo done : list EngineRow)
    (pg px : list Z) (pd : list Q) (rg rx : list Z) (rd : list Q) :
  forallb (row_ok ncells) todo = true ->
  length pg = length pd -> length px = length pd ->
  length rg = list_sum (cell_counts todo) ->
  length rx = list_sum (cell_counts todo) ->
  length rd = list_sum (cell_counts todo) ->
  assemble_loop dt (done ++ todo) (seq (length done) (length todo))
    (pg ++ rg, px ++ rx, pd ++ rd, length pd) =
  Ok (pg ++ geom_column (length done) todo,
      px ++ id_column todo,
      pd ++ value_column dt todo,
      length pd + list_sum (cell_counts todo)).
Proof.
  revert done pg px pd rg rx rd.
  induction todo as [|r todo IH]; intros done pg px pd rg rx rd Hok Hg Hx Lg Lx Ld.
  - simpl in *. destruct rg, rx, rd; try discriminate.
    rewrite Nat.add_0_r. reflexivity.
  - cbn [forallb] in Hok. apply andb_true_iff in Hok as [Hr Hok].
    pose proof (row_ok_parallel _ _ Hr) as Hpar.
    assert (Hsum : list_sum (cell_counts (r :: todo)) =
                   length (cell_id r) + list_sum (cell_counts todo))
      by reflexivity.
    rewrite Hsum in Lg, Lx, Ld.
    cbn [length seq assemble_loop]. unfold assemble_step.
    rewrite row_at_middle. cbn [rbind].
    assert (Hstep : forall st',
      st' = (pg ++ repeat (Z.of_nat (length done)) (length (cell_id r))
                ++ skipn (length (cell_id r)) rg,
             px ++ cell_id r ++ skipn (length (cell_id r)) rx,
             pd ++ map (cast_to dt) (coverage_values r)
                ++ skipn (length (cell_id r)) rd,
             length pd + length (cell_id r)) ->
      assemble_loop dt (done ++ r :: todo) (seq (S (length done)) (length todo)) st' =
      Ok (pg ++ geom_column (length done) (r :: todo),
          px ++ id_column (r :: todo),
          pd ++ value_column dt (r :: todo),
          length pd + list_sum (cell_counts (r :: todo)))).
    { intros st' ->.
      specialize (IH (done ++ [r])
        (pg ++ repeat (Z.of_nat (length done)) (length (cell_id r)))
        (px ++ cell_id r)
        (pd ++ map (cast_to dt) (coverage_values r))
        (skipn (length (cell_id r)) rg)
        (skipn (length (cell_id r)) rx)
        (skipn (length (cell_id r)) rd) Hok).
      rewrite <- !app_assoc in IH. cbn [app] in IH.
      rewrite !length_app, !repeat_length, !length_map, !length_skipn in IH.
      cbn [length] in IH.
      replace (length done + 1) with (S (length done)) in IH by lia.
      rewrite <- Hpar in IH.
      rewrite IH by lia.
      rewrite Hsum. unfold id_column, value_column.
      cbn [geom_column flat_map].
      rewrite <- ?app_assoc. f_equal. f_equal. lia. }
    destruct (length (cell_id r) =? 0) eqn:Hz.
    + apply Nat.eqb_eq in Hz. apply Hstep.
      assert (Hv : coverage_values r = []).
      { destruct (coverage_values r); [reflexivity|].
        rewrite Hz in Hpar. discriminate. }
      assert (Hc : cell_id r = []).
      { destruct (cell_id r); [reflexivity|discriminate]. }
      rewrite Hv, Hc. cbn [length repeat map app skipn].
      rewrite Nat.add_0_r. reflexivity.
    + replace (set_slice (px ++ rx) (length pd) (length (cell_id r)) (cell_id r))
        with (Ok (px ++ cell_id r ++ skipn (length (cell_id r)) rx))
        by (rewrite <- Hx; symmetry; apply set_slice_window; lia).
      replace (set_slice (pd ++ rd) (length pd) (length (cell_id r))
                 (map (cast_to dt) (coverage_values r)))
        with (Ok (pd ++ map (cast_to dt) (coverage_values r)
                     ++ skipn (length (cell_id r)) rd))
        by (symmetry; apply set_slice_window; rewrite ?length_map; lia).
      replace (set_slice_scalar (pg ++ rg) (length pd) (length (cell_id r))
                 (Z.of_nat (length done)))
        with (pg ++ repeat (Z.of_nat (length done)) (length (cell_id r))
                 ++ skipn (length (cell_id r)) rg)
        by (rewrite <- Hg; symmetry; apply set_slice_scalar_window; lia).
      cbn [rbind]. apply Hstep. reflexivity.
Qed.

End AssemblyLoop.

(** ** Decoding the linear ids *)

Lemma unravel_index_valid (ids : list Z) (ny nx : nat) :
  forallb (fun i => (0 <=? i)%Z && (i <? Z.of_nat (ny * nx))%Z) ids = true ->
  unravel_index ids (ny, nx) =
    Ok (map (fun i => (i / Z.of_nat nx)%Z) ids,
        map (fun i => (i mod Z.of_nat nx)%Z) ids).
Proof.
  induction ids as [|i t IH]; intros H; [reflexivity|].
  cbn [forallb] in H. apply andb_true_iff in H as [Hi Ht].
  cbn [unravel_index]. rewrite Hi, (IH Ht). reflexivity.
Qed.

Lemma forallb_id_column ncells rows :
  forallb (row_ok ncells) rows = true ->
  forallb (fun i => (0 <=? i)%Z && (i <? Z.of_nat ncells)%Z) (id_column rows) = true.
Proof.
  unfold id_column. induction rows as [|r t IH]; intros H; [reflexivity|].
  cbn [forallb] in H. apply andb_true_iff in H as [Hr Ht].
  cbn [flat_map]. rewrite forallb_app, (IH Ht), andb_true_r.
  unfold row_ok in Hr. now apply andb_true_iff in Hr as [_ Hr].
Qed.

(** ** What [np_coverage] returns *)

Section SingleBlock.
Context {Geometry : Type}.
Variable exact_extract :
  NumPyRasterSource -> GeoDataFrame Geometry -> string -> list EngineRow.

(** With a single column, axes of at least two centers and an answer
    of one well-formed row per geometry, of at least one geometry, the run
    succeeds after one engine call and hands the columns of the answer to
    the constructor of the sparse array. *)
Lemma np_coverage_assembles x y (geometries : GeoDataFrame Geometry) strategy w raster :
  length (gdf_columns geometries) <= 1 ->
  xy_to_raster_source x y (Some (to_wkt (gdf_crs geometries))) = Ok raster ->
  1 <= gdf_len geometries ->
  length (exact_extract raster geometries w) = gdf_len geometries ->
  forallb (row_ok (length y * length x)) (exact_extract raster geometries w) = true ->
  np_coverage exact_extract x y geometries strategy w =
    ([mkCall raster geometries w],
     Ok (COO_new
           (geom_column 0 (exact_extract raster geometries w),
            map (fun i => (i / Z.of_nat (length x))%Z)
                (id_column (exact_extract raster geometries w)),
            map (fun i => (i mod Z.of_nat (length x))%Z)
                (id_column (exact_extract raster geometries w)))
           (value_column (get_dtype w geometries)
                         (exact_extract raster geometries w))
           (get_dtype w geometries) 0%Q
           (gdf_len geometries, length y, length x))).
Proof.
  intros Hcols Er Hpos Hn Hrows. unfold np_coverage.
  replace (1 <? length (gdf_columns geometries)) with false
    by (symmetry; apply Nat.ltb_ge; exact Hcols).
  rewrite Er. cbn [lift bind call_engine ret fst snd app].
  set (rows := exact_extract raster geometries w) in *.
  rewrite np_vectorize_len_ok
    by (destruct rows; [simpl in Hn; lia|discriminate]).
  cbn [lift bind ret fst snd app]. rewrite map_map.
  pose proof (assemble_loop_columns (get_dtype w geometries)
                (length y * length x) rows [] [] [] []
                (np_empty 0%Z (list_sum (cell_counts rows)))
                (np_empty 0%Z (list_sum (cell_counts rows)))
                (np_empty 0%Q (list_sum (cell_counts rows)))
                Hrows eq_refl eq_refl) as Hloop.
  unfold np_empty in *. rewrite !repeat_length in Hloop.
  specialize (Hloop eq_refl eq_refl eq_refl).
  cbn [app length] in Hloop. rewrite Hn in Hloop.
  fold (cell_counts rows). unfold gdf_len in *.
  rewrite Hloop. cbn [lift bind ret fst snd app].
  rewrite (unravel_index_valid _ _ _ (forallb_id_column _ _ Hrows)).
  reflexivity.
Qed.

End SingleBlock.

(** ** The stored entries *)

Lemma zip_entries_app (g1 r1 c1 : list Z) (v1 : list Q) g2 r2 c2 v2 :
  length r1 = length g1 -> length c1 = length g1 -> length v1 = length g1 ->
  zip_entries (g1 ++ g2) (r1 ++ r2) (c1 ++ c2) (v1 ++ v2) =
    zip_entries g1 r1 c1 v1 ++ zip_entries g2 r2 c2 v2.
Proof.
  revert r1 c1 v1. induction g1 as [|g g1 IH]; intros r1 c1 v1 Hr Hc Hv.
  - destruct r1, c1, v1; try discriminate. reflexivity.
  - destruct r1 as [|r r1], c1 as [|c c1], v1 as [|v v1]; try discriminate.
    cbn [app zip_entries]. f_equal. apply IH; simpl in *; lia.
Qed.

Lemma length_zip_entries (gs rs cs : list Z) (vs : list Q) :
  length rs = length gs -> length cs = length gs -> length vs = length gs ->
  length (zip_entries gs rs cs vs) = length gs.
Proof.
  revert rs cs vs. induction gs as [|g gs IH]; intros rs cs vs Hr Hc Hv.
  - reflexivity.
  - destruct rs as [|r rs], cs as [|c cs], vs as [|v vs]; try discriminate.
    cbn [zip_entries length]. f_equal. apply IH; simpl in *; lia.
Qed.

Lemma entries_columns_coo dt ncells rows ng ny nx :
  forallb (row_ok ncells) rows = true ->
  entries (columns_coo dt rows ng ny nx) = rows_entries dt nx 0 rows.
Proof.
  unfold entries, columns_coo. cbn [coo_coords coo_data].
  unfold id_column, value_column. generalize 0 as k.
  induction rows as [|r t IH]; intros k H; [reflexivity|].
  cbn [forallb] in H. apply andb_true_iff in H as [Hr Ht].
  pose proof (row_ok_parallel _ _ Hr) as Hpar.
  cbn [geom_column flat_map rows_entries]. rewrite !map_app.
  rewrite zip_entries_app
    by (rewrite ?length_map, ?repeat_length; auto).
  rewrite (IH (S k) Ht). reflexivity.
Qed.

Lemma length_row_entries dt nx k r :
  length (cell_id r) = length (coverage_values r) ->
  length (row_entries dt nx k r) = length (cell_id r).
Proof.
  intros H. unfold row_entries.
  rewrite length_zip_entries; rewrite ?length_map, ?repeat_length; auto.
Qed.

Lemma length_rows_entries dt ncells nx k rows :
  forallb (row_ok ncells) rows = true ->
  length (rows_entries dt nx k rows) = list_sum (cell_counts rows).
Proof.
  revert k. induction rows as [|r t IH]; intros k H; [reflexivity|].
  cbn [forallb] in H. apply andb_true_iff in H as [Hr Ht].
  cbn [rows_entries]. rewrite length_app, (IH (S k) Ht).
  rewrite length_row_entries by (eapply row_ok_parallel; exact Hr).
  reflexivity.
Qed.

(** Every entry of a row carries the row's geometry index. *)
Lemma row_entries_geom dt nx k r e :
  In e (row_entries dt nx k r) -> fst (fst (fst e)) = Z.of_nat k.
Proof.
  unfold row_entries.
  generalize (map (fun i => (i / Z.of_nat nx)%Z) (cell_id r)) as rs.
  generalize (map (fun i => (i mod Z.of_nat nx)%Z) (cell_id r)) as cs.
  generalize (map (cast_to dt) (coverage_values r)) as vs.
  induction (length (cell_id r)) as [|n IH]; intros vs cs rs H.
  - destruct H.
  - cbn [repeat zip_entries] in H.
    destruct rs as [|r0 rs], cs as [|c0 cs], vs as [|v0 vs]; try destruct H.
    + subst e. reflexivity.
    + eapply IH. exact H.
Qed.

Lemma rows_entries_geom_ge dt nx k rows e :
  In e (rows_entries dt nx k rows) -> (Z.of_nat k <= fst (fst (fst e)))%Z.
Proof.
  revert k. induction rows as [|r t IH]; intros k H; [destruct H|].
  cbn [rows_entries] in H. apply in_app_or in H as [H|H].
  - apply row_entries_geom in H. lia.
  - apply IH in H. lia.
Qed.

Lemma filter_all {A} (p : A -> bool) (l : list A) :
  (forall a, In a l -> p a = true) -> List.filter p l = l.
Proof.
  induction l as [|a l IH]; intros H; [reflexivity|].
  cbn [List.filter]. rewrite (H a) by now left.
  f_equal. apply IH. intros b Hb. apply H. now right.
Qed.

Lemma filter_none {A} (p : A -> bool) (l : list A) :
  (forall a, In a l -> p a = false) -> List.filter p l = [].
Proof.
  induction l as [|a l IH]; intros H; [reflexivity|].
  cbn [List.filter]. rewrite (H a) by now left.
  apply IH. intros b Hb. apply H. now right.
Qed.

(** The entries of geometry [g] are the entries of its own row. *)
Lemma filter_rows_entries dt nx k rows g :
  List.filter (fun e => (fst (fst (fst e)) =? Z.of_nat g)%Z) (rows_entries dt nx k rows) =
  if g <? k then []
  else match nth_error rows (g - k) with
       | Some r => row_entries dt nx g r
       | None => []
       end.
Proof.
  revert k. induction rows as [|r t IH]; intros k.
  - cbn [rows_entries List.filter]. destruct (g <? k); [reflexivity|].
    now destruct (g - k).
  - cbn [rows_entries]. rewrite List.filter_app, (IH (S k)).
    destruct (g <? k) eqn:Hgk.
    + apply Nat.ltb_lt in Hgk.
      replace (g <? S k) with true by (symmetry; apply Nat.ltb_lt; lia).
      rewrite app_nil_r. apply filter_none.
      intros e He. apply row_entries_geom in He. apply Z.eqb_neq. lia.
    + apply Nat.ltb_ge in Hgk.
      destruct (Nat.eq_dec g k) as [->|Hne].
      * replace (k <? S k) with true by (symmetry; apply Nat.ltb_lt; lia).
        rewrite app_nil_r, Nat.sub_diag. cbn [nth_error].
        apply filter_all. intros e He. apply row_entries_geom in He.
        apply Z.eqb_eq. exact He.
      * replace (g <? S k) with false by (symmetry; apply Nat.ltb_ge; lia).
        replace (g - k) with (S (g - S k)) by lia. cbn [nth_error].
        rewrite filter_none; [reflexivity|].
        intros e He. apply row_entries_geom in He. apply Z.eqb_neq. lia.
Qed.

(** ** Reading a coordinate *)

Lemma find_entry_app es1 es2 key :
  find_entry (es1 ++ es2) key =
    match find_entry es1 key with
    | Some v => Some v
    | None => find_entry es2 key
    end.
Proof.
  induction es1 as [|[k v] es1 IH]; [reflexivity|].
  cbn [app find_entry]. destruct (coord_eqb k key); [reflexivity|exact IH].
Qed.

Lemma find_entry_other_geom es (g r x : Z) :
  (forall e, In e es -> fst (fst (fst e)) <> g) ->
  find_entry es (g, r, x) = None.
Proof.
  induction es as [|[[[g' r'] x'] v] es IH]; intros H; [reflexivity|].
  cbn [find_entry coord_eqb].
  replace (g' =? g)%Z with false
    by (symmetry; apply Z.eqb_neq; apply (H (g', r', x', v)); now left).
  cbn [andb]. apply IH. intros e He. apply H. now right.
Qed.

(** Row-major decoding: a linear id decodes to (r, x) exactly when it is
    r * nx + x. *)
Lemma unravel_eqb (i : Z) (r x nx : nat) :
  x < nx ->
  ((i / Z.of_nat nx =? Z.of_nat r)%Z && (i mod Z.of_nat nx =? Z.of_nat x)%Z)%bool
  = (i =? Z.of_nat (r * nx + x))%Z.
Proof.
  intros Hx.
  assert (Hnx : (0 < Z.of_nat nx)%Z) by lia.
  destruct (i =? Z.of_nat (r * nx + x))%Z eqn:E.
  - apply Z.eqb_eq in E. subst i.
    replace (Z.of_nat (r * nx + x))
      with (Z.of_nat r * Z.of_nat nx + Z.of_nat x)%Z by lia.
    assert (Hd : ((Z.of_nat r * Z.of_nat nx + Z.of_nat x) / Z.of_nat nx
                  = Z.of_nat r)%Z).
    { rewrite Z.div_add_l by lia. rewrite Z.div_small by lia. lia. }
    assert (Hm : ((Z.of_nat r * Z.of_nat nx + Z.of_nat x) mod Z.of_nat nx
                  = Z.of_nat x)%Z).
    { rewrite Z.add_comm, Z.mod_add by lia. apply Z.mod_small. lia. }
    rewrite Hd, Hm, !Z.eqb_refl. reflexivity.
  - apply Z.eqb_neq in E. apply andb_false_iff.
    destruct (i / Z.of_nat nx =? Z.of_nat r)%Z eqn:E1; [|now left].
    right. apply Z.eqb_eq in E1. apply Z.eqb_neq. intros E2. apply E.
    pose proof (Z.div_mod i (Z.of_nat nx) ltac:(lia)) as Hdm.
    rewrite E1, E2 in Hdm. lia.
Qed.

Lemma find_row_entries dt nx k row (r x : nat) :
  x < nx ->
  find_entry (row_entries dt nx k row) (Z.of_nat k, Z.of_nat r, Z.of_nat x) =
    option_map (cast_to dt) (row_reported row (Z.of_nat (r * nx + x))).
Proof.
  intros Hx. unfold row_entries, row_reported.
  generalize (coverage_values row) as vals.
  induction (cell_id row) as [|i ids IH]; intros vals; [reflexivity|].
  destruct vals as [|v vals]; [reflexivity|].
  cbn [length repeat map zip_entries find_entry coord_eqb reported].
  rewrite Z.eqb_refl. cbn [andb]. rewrite (unravel_eqb i r x nx Hx).
  destruct (i =? Z.of_nat (r * nx + x))%Z; [reflexivity|]. apply IH.
Qed.

Lemma find_rows_entries dt nx k rows (g r x : nat) :
  x < nx ->
  find_entry (rows_entries dt nx k rows) (Z.of_nat g, Z.of_nat r, Z.of_nat x) =
    if g <? k then None
    else match nth_error rows (g - k) with
         | Some row => option_map (cast_to dt)
                         (row_reported row (Z.of_nat (r * nx + x)))
         | None => None
         end.
Proof.
  intros Hx. revert k. induction rows as [|row t IH]; intros k.
  - cbn [rows_entries find_entry]. destruct (g <? k); [reflexivity|].
    now destruct (g - k).
  - cbn [rows_entries]. rewrite find_entry_app, (IH (S k)).
    destruct (g <? k) eqn:Hgk.
    + apply Nat.ltb_lt in Hgk.
      replace (g <? S k) with true by (symmetry; apply Nat.ltb_lt; lia).
      rewrite find_entry_other_geom; [reflexivity|].
      intros e He. apply row_entries_geom in He. lia.
    + apply Nat.ltb_ge in Hgk.
      destruct (Nat.eq_dec g k) as [->|Hne].
      * replace (k <? S k) with true by (symmetry; apply Nat.ltb_lt; lia).
        rewrite Nat.sub_diag. cbn [nth_error].
        rewrite find_row_entries by exact Hx.
        now destruct (option_map _ _).
      * replace (g <? S k) with false by (symmetry; apply Nat.ltb_ge; lia).
        replace (g - k) with (S (g - S k)) by lia. cbn [nth_error].
        rewrite find_entry_other_geom; [reflexivity|].
        intros e He. apply row_entries_geom in He. lia.
Qed.

(** The stored value at an in-range column is the engine's reported value
    for that cell of that geometry, cast to the array's dtype. *)
Lemma stored_at_columns_coo dt ncells rows ng ny nx (g r x : nat) :
  forallb (row_ok ncells) rows = true -> x < nx ->
  stored_at (columns_coo dt rows ng ny nx)
            (Z.of_nat g) (Z.of_nat r) (Z.of_nat x) =
    match nth_error rows g with
    | Some row => option_map (cast_to dt)
                    (row_reported row (Z.of_nat (r * nx + x)))
    | None => None
    end.
Proof.
  intros Hrows Hx. unfold stored_at.
  rewrite (entries_columns_coo dt ncells rows ng ny nx Hrows).
  rewrite find_rows_entries by exact Hx.
  cbn [Nat.ltb Nat.leb]. now rewrite Nat.sub_0_r.
Qed.


Lemma reported_in ids vals id :
  length ids = length vals -> In id ids -> exists v, reported ids vals id = Some v /\ In v vals.
Proof.
  revert vals. induction ids as [|i ids IH]; intros vals Hlen H; [destruct H|].
  destruct vals as [|v vals]; [discriminate|]. cbn [reported].
  destruct (i =? id)%Z eqn:E.
  - exists v. split; [reflexivity|now left].
  - destruct H as [->|H]; [rewrite Z.eqb_refl in E; discriminate|].
    destruct (IH vals ltac:(simpl in Hlen; lia) H) as (v' & Hv' & Hin).
    exists v'. split; [exact Hv'|now right].
Qed.

Lemma unravel_in_range (id : Z) (ny nx : nat) :
  (0 <= id < Z.of_nat (ny * nx))%Z ->
  (0 <= id / Z.of_nat nx < Z.of_nat ny)%Z /\
  (0 <= id mod Z.of_nat nx < Z.of_nat nx)%Z /\
  (id / Z.of_nat nx * Z.of_nat nx + id mod Z.of_nat nx = id)%Z.
Proof.
  intros Hid.
  assert (Hnx : (0 < Z.of_nat nx)%Z) by (destruct nx; [|lia]; lia).
  repeat split.
  - apply Z.div_pos; lia.
  - apply Z.div_lt_upper_bound; [lia|].
    rewrite Nat2Z.inj_mul in Hid. lia.
  - apply Z.mod_pos_bound. lia.
  - apply Z.mod_pos_bound. lia.
  - pose proof (Z.div_mod id (Z.of_nat nx) ltac:(lia)). lia.
Qed.

Lemma linear_row_entries dt ng ny nx k row :
  row_ok (ny * nx) row = true ->
  map (fun e => linear_index (ng, ny, nx) (fst e)) (row_entries dt nx k row) =
  map (fun id => (Z.of_nat k * Z.of_nat (ny * nx) + id)%Z) (cell_id row).
Proof.
  unfold row_ok, row_entries. intros H.
  apply andb_true_iff in H as [Hpar Hids]. apply Nat.eqb_eq in Hpar.
  revert Hpar Hids. generalize (coverage_values row) as vals.
  induction (cell_id row) as [|i ids IH]; intros vals Hpar Hids; [reflexivity|].
  destruct vals as [|u vals]; [discriminate|].
  cbn [forallb] in Hids. apply andb_true_iff in Hids as [Hi Hids].
  apply andb_true_iff in Hi as [Hlo Hhi].
  apply Z.leb_le in Hlo. apply Z.ltb_lt in Hhi.
  cbn [length repeat map zip_entries fst linear_index].
  f_equal; [|apply IH; [simpl in Hpar; lia|exact Hids]].
  destruct (unravel_in_range i ny nx ltac:(lia)) as (_ & _ & Hdm).
  rewrite Nat2Z.inj_mul. nia.
Qed.

Lemma linear_rows_entries dt ng ny nx k rows :
  forallb (row_ok (ny * nx)) rows = true ->
  map (fun e => linear_index (ng, ny, nx) (fst e)) (rows_entries dt nx k rows) =
  linear_column (ny * nx) k rows.
Proof.
  revert k. induction rows as [|row t IH]; intros k H; [reflexivity|].
  cbn [forallb] in H. apply andb_true_iff in H as [Hr Ht].
  cbn [rows_entries linear_column]. rewrite map_app.
  rewrite (linear_row_entries dt ng ny nx k row Hr), (IH (S k) Ht).
  reflexivity.
Qed.

Lemma linear_column_lower ncells k rows z :
  forallb (row_ok ncells) rows = true ->
  In z (linear_column ncells k rows) ->
  (Z.of_nat k * Z.of_nat ncells <= z)%Z.
Proof.
  revert k. induction rows as [|row t IH]; intros k H Hz; [destruct Hz|].
  cbn [forallb] in H. apply andb_true_iff in H as [Hr Ht].
  cbn [linear_column] in Hz. apply in_app_or in Hz as [Hz|Hz].
  - apply in_map_iff in Hz as (id & <- & Hid).
    unfold row_ok in Hr. apply andb_true_iff in Hr as [_ Hids].
    eapply forallb_forall in Hids; [|exact Hid].
    apply andb_true_iff in Hids as [Hlo _]. apply Z.leb_le in Hlo. lia.
  - specialize (IH (S k) Ht Hz). nia.
Qed.

Lemma adjacent_distinct_app (l1 l2 : list Z) :
  adjacent_distinct l1 -> adjacent_distinct l2 ->
  (forall a b, In a l1 -> In b l2 -> a <> b) ->
  adjacent_distinct (l1 ++ l2).
Proof.
  induction l1 as [|a t IH]; intros H1 H2 Hne; [exact H2|].
  destruct t as [|b t].
  - change ([a] ++ l2) with (a :: l2).
    destruct l2 as [|c l2]; [exact I|].
    split; [apply Hne; now left|exact H2].
  - destruct H1 as [Hab Ht].
    change ((a :: b :: t) ++ l2) with (a :: (b :: t) ++ l2).
    change ((b :: t) ++ l2) with (b :: (t ++ l2)).
    split; [exact Hab|].
    change (b :: (t ++ l2)) with ((b :: t) ++ l2).
    apply IH; [exact Ht|exact H2|].
    intros u v Hu Hv. apply Hne; [now right|exact Hv].
Qed.

Lemma distinct_head (a : Z) (t : list Z) :
  distinct (a :: t) = true -> ~ In a t /\ distinct t = true.
Proof.
  cbn [distinct]. intros H. apply andb_true_iff in H as [Ha Ht].
  split; [|exact Ht]. intros Hin.
  apply negb_true_iff in Ha.
  assert (Hex : existsb (Z.eqb a) t = true)
    by (apply existsb_exists; exists a; split; [exact Hin|apply Z.eqb_refl]).
  congruence.
Qed.

Lemma distinct_NoDup (l : list Z) : distinct l = true -> List.NoDup l.
Proof.
  induction l as [|a t IH]; intros H; [constructor|].
  apply distinct_head in H as [Ha Ht]. constructor; auto.
Qed.

Lemma distinct_adjacent (c : Z) (l : list Z) :
  distinct l = true -> adjacent_distinct (map (fun id => (c + id)%Z) l).
Proof.
  induction l as [|a t IH]; intros H; [exact I|].
  apply distinct_head in H as [Ha Ht].
  destruct t as [|b t]; [exact I|].
  cbn [map]. split.
  - intros E. apply Ha. left. lia.
  - apply (IH Ht).
Qed.

(** Rows that name no cell twice put no two neighbouring entries on the
    same position. *)
Lemma linear_column_adjacent ncells k rows :
  forallb (row_ok ncells) rows = true ->
  forallb (fun r => distinct (cell_id r)) rows = true ->
  adjacent_distinct (linear_column ncells k rows).
Proof.
  revert k. induction rows as [|row t IH]; intros k H Hd; [exact I|].
  cbn [forallb] in H, Hd.
  apply andb_true_iff in H as [Hr Ht]. apply andb_true_iff in Hd as [Hrow Hd].
  cbn [linear_column]. apply adjacent_distinct_app.
  - apply distinct_adjacent. exact Hrow.
  - apply IH; assumption.
  - intros a b Ha Hb.
    apply in_map_iff in Ha as (id & <- & Hid).
    pose proof (linear_column_lower ncells (S k) t b Ht Hb) as Hlow.
    unfold row_ok in Hr. apply andb_true_iff in Hr as [_ Hids].
    eapply forallb_forall in Hids; [|exact Hid].
    apply andb_true_iff in Hids as [_ Hhi]. apply Z.ltb_lt in Hhi. nia.
Qed.

(** Entries of which no two neighbours share a position are left as they
    are. *)
Lemma sum_duplicates_distinct dt shape es :
  adjacent_distinct (map (fun e => linear_index shape (fst e)) es) ->
  sum_duplicates dt shape es = es.
Proof.
  induction es as [|[k v] t IH]; intros H; [reflexivity|].
  destruct t as [|[k' v'] t']; [reflexivity|].
  cbn [map fst] in H. destruct H as [Hne Ht].
  cbn [sum_duplicates] in *. rewrite (IH Ht).
  replace (linear_index shape k =? linear_index shape k')%Z with false
    by (symmetry; apply Z.eqb_neq; exact Hne).
  reflexivity.
Qed.

Lemma unzip_entries (gs rs cs : list Z) (vs : list Q) :
  length rs = length gs -> length cs = length gs -> length vs = length gs ->
  map (fun e => fst (fst (fst e))) (zip_entries gs rs cs vs) = gs /\
  map (fun e => snd (fst (fst e))) (zip_entries gs rs cs vs) = rs /\
  map (fun e => snd (fst e)) (zip_entries gs rs cs vs) = cs /\
  map snd (zip_entries gs rs cs vs) = vs.
Proof.
  revert rs cs vs. induction gs as [|g gs IH]; intros rs cs vs Hr Hc Hv.
  - destruct rs, cs, vs; try discriminate. repeat split.
  - destruct rs as [|r rs], cs as [|c cs], vs as [|v vs]; try discriminate.
    destruct (IH rs cs vs) as (H1 & H2 & H3 & H4); try (simpl in *; lia).
    cbn [zip_entries map fst snd]. rewrite H1, H2, H3, H4. repeat split.
Qed.

(** The constructor of the sparse array keeps the columns of an answer
    that names no cell twice for one geometry. *)
Lemma COO_new_columns dt rows ng ny nx :
  forallb (row_ok (ny * nx)) rows = true ->
  forallb (fun r => distinct (cell_id r)) rows = true ->
  COO_new (geom_column 0 rows,
           map (fun i => (i / Z.of_nat nx)%Z) (id_column rows),
           map (fun i => (i mod Z.of_nat nx)%Z) (id_column rows))
          (value_column dt rows) dt 0%Q (ng, ny, nx) =
  columns_coo dt rows ng ny nx.
Proof.
  intros Hrows Hd. unfold COO_new.
  pose proof (entries_columns_coo dt (ny * nx) rows ng ny nx Hrows) as He.
  unfold entries, columns_coo in He. cbn [coo_coords coo_data] in He.
  rewrite He.
  rewrite sum_duplicates_distinct
    by (rewrite (linear_rows_entries _ _ _ _ _ _ Hrows);
        apply linear_column_adjacent; assumption).
  rewrite <- He.
  destruct (unzip_entries (geom_column 0 rows)
              (map (fun i => (i / Z.of_nat nx)%Z) (id_column rows))
              (map (fun i => (i mod Z.of_nat nx)%Z) (id_column rows))
              (value_column dt rows)) as (H1 & H2 & H3 & H4).
  - rewrite length_map, length_id_column, length_geom_column. reflexivity.
  - rewrite length_map, length_id_column, length_geom_column. reflexivity.
  - rewrite (length_value_column _ _ _ Hrows), length_geom_column. reflexivity.
  - rewrite H1, H2, H3, H4. reflexivity.
Qed.

(** ** Count and sparsity of a block result *)

Section BlockResult.
Context {Geometry : Type}.
Variable exact_extract :
  NumPyRasterSource -> GeoDataFrame Geometry -> string -> list EngineRow.

Lemma answer_ok_inv ngeoms ncells rows :
  answer_ok ngeoms ncells rows = true ->
  1 <= ngeoms /\ length rows = ngeoms /\
  forallb (row_ok ncells) rows = true /\
  forallb (fun r => distinct (cell_id r)) rows = true.
Proof.
  unfold answer_ok. intros H.
  apply andb_true_iff in H as [H Hd]. apply andb_true_iff in H as [H Hrows].
  apply andb_true_iff in H as [Hpos Hn].
  apply Nat.leb_le in Hpos. apply Nat.eqb_eq in Hn. auto.
Qed.

Lemma well_answered_inv x y (geometries : GeoDataFrame Geometry) w :
  well_answered exact_extract x y geometries w = true ->
  exists raster,
    xy_to_raster_source x y (Some (to_wkt (gdf_crs geometries))) = Ok raster /\
    engine_answer exact_extract x y geometries w =
      Ok (exact_extract raster geometries w) /\
    length (exact_extract raster geometries w) = gdf_len geometries /\
    forallb (row_ok (length y * length x))
            (exact_extract raster geometries w) = true.
Proof.
  unfold well_answered, engine_answer.
  destruct (xy_to_raster_source x y (Some (to_wkt (gdf_crs geometries))))
    as [e|raster]; cbn [rbind]; [discriminate|].
  intros H. apply answer_ok_inv in H as (_ & Hn & Hrows & _).
  exists raster. repeat split; assumption.
Qed.

Lemma np_coverage_well_answered x y (geometries : GeoDataFrame Geometry) strategy w :
  length (gdf_columns geometries) <= 1 ->
  well_answered exact_extract x y geometries w = true ->
  exists raster,
    xy_to_raster_source x y (Some (to_wkt (gdf_crs geometries))) = Ok raster /\
    forallb (row_ok (length y * length x))
            (exact_extract raster geometries w) = true /\
    length (exact_extract raster geometries w) = gdf_len geometries /\
    np_coverage exact_extract x y geometries strategy w =
      ([mkCall raster geometries w],
       Ok (columns_coo (get_dtype w geometries)
             (exact_extract raster geometries w)
             (gdf_len geometries) (length y) (length x))).
Proof.
  intros Hcols Hans.
  destruct (well_answered_inv _ _ _ _ Hans) as (raster & Er & _ & Hn & Hrows).
  exists raster. repeat split; try assumption.
  unfold well_answered, engine_answer in Hans. rewrite Er in Hans.
  cbn [rbind] in Hans. apply answer_ok_inv in Hans as (Hpos & _ & _ & Hd).
  rewrite (np_coverage_assembles exact_extract x y geometries strategy w raster)
    by assumption.
  rewrite COO_new_columns by assumption. reflexivity.
Qed.

(** C4, as the code has it. For a table of at least one geometry and an
    answer of the engine that names no cell twice for one geometry, the
    block result stores as many entries as the engine reported
    intersected cells, summed over the geometries; the entries of one
    geometry are as many as its own cell ids, so that a geometry with no
    cell id contributes no entry, and the run raises nothing. *)
Theorem np_coverage_count x y (geometries : GeoDataFrame Geometry) strategy w :
  length (gdf_columns geometries) <= 1 ->
  well_answered exact_extract x y geometries w = true ->
  exists rows c,
    engine_answer exact_extract x y geometries w = Ok rows /\
    outcome (np_coverage exact_extract x y geometries strategy w) = Ok c /\
    nnz c = list_sum (cell_counts rows) /\
    length (entries c) = list_sum (cell_counts rows) /\
    forall g row,
      nth_error rows g = Some row ->
      length (entries_of_geom c g) = length (cell_id row) /\
      (cell_id row = [] -> entries_of_geom c g = []).
Proof.
  intros Hcols Hans.
  destruct (np_coverage_well_answered x y geometries strategy w Hcols Hans)
    as (raster & Er & Hrows & Hn & Hrun).
  exists (exact_extract raster geometries w). eexists.
  split; [unfold engine_answer; rewrite Er; reflexivity|].
  split; [rewrite Hrun; reflexivity|].
  set (rows := exact_extract raster geometries w) in *.
  split; [|split].
  - unfold nnz, columns_coo. cbn [coo_data].
    eapply length_value_column. exact Hrows.
  - rewrite (entries_columns_coo _ _ _ _ _ _ Hrows).
    eapply length_rows_entries. exact Hrows.
  - intros g row Hrow. unfold entries_of_geom.
    rewrite (entries_columns_coo _ _ _ _ _ _ Hrows).
    rewrite filter_rows_entries. cbn [Nat.ltb Nat.leb].
    rewrite Nat.sub_0_r, Hrow.
    assert (Hpar : length (cell_id row) = length (coverage_values row)).
    { eapply row_ok_parallel.
      eapply forallb_forall in Hrows; [exact Hrows|].
      eapply nth_error_In. exact Hrow. }
    split.
    + now apply length_row_entries.
    + intros Hnil. unfold row_entries. rewrite Hnil. reflexivity.
Qed.

End BlockResult.

Lemma np_coverage_count_witness :
  exists rows c,
    engine_answer rect_engine unit_x unit_y two_rects "fraction" = Ok rows /\
    outcome (np_coverage rect_engine unit_x unit_y two_rects
               DEFAULT_STRATEGY "fraction") = Ok c /\
    nnz c = list_sum (cell_counts rows) /\
    length (entries c) = list_sum (cell_counts rows) /\
    forall g row,
      nth_error rows g = Some row ->
      length (entries_of_geom c g) = length (cell_id row) /\
      (cell_id row = [] -> entries_of_geom c g = []).
Proof.
  apply (np_coverage_count rect_engine unit_x unit_y two_rects
           DEFAULT_STRATEGY "fraction").
  - simpl. lia.
  - vm_compute. reflexivity.
Defined.

(** C4, as stated, fails: the constructor of the sparse array sums
    neighbouring entries at the same position. When the engine lists cell
    5 twice for the one geometry, with the values 1/4 and 1/2, the two
    reported cells become one stored entry, of value 3/4. *)
Lemma np_coverage_sums_repeated_ids :
  exists rows c,
    engine_answer twice_engine unit_x unit_y one_square "fraction" = Ok rows /\
    list_sum (cell_counts rows) = 2 /\
    outcome (np_coverage twice_engine unit_x unit_y one_square
               DEFAULT_STRATEGY "fraction") = Ok c /\
    entries c = [(0%Z, 1%Z, 1%Z, (3 # 4)%Q)] /\
    nnz c = 1 /\
    nnz c <> list_sum (cell_counts rows).
Proof.
  eexists. eexists.
  split; [vm_compute; reflexivity|].
  split; [reflexivity|].
  split; [vm_compute; reflexivity|].
  split; [reflexivity|]. split; [reflexivity|].
  vm_compute. discriminate.
Qed.

Section BlockSparsity.
Context {Geometry : Type}.
Variable exact_extract :
  NumPyRasterSource -> GeoDataFrame Geometry -> string -> list EngineRow.



End BlockSparsity.



(** ** Value dtype *)

Section ValueDtype.
Context {Geometry : Type}.
Variable exact_extract :
  NumPyRasterSource -> GeoDataFrame Geometry -> string -> list EngineRow.


Lemma get_dtype_irrelevant {G1 G2} (w : string) (g1 : G1) (g2 : G2) :
  get_dtype w g1 = get_dtype w g2.
Proof. reflexivity. Qed.


End ValueDtype.

(** ** The chunk-size guard *)

Section ChunkGuard.
Context {Geometry : Type}.
Variable exact_extract :
  NumPyRasterSource -> GeoDataFrame Geometry -> string -> list EngineRow.

Lemma existsb_one (chunks : list nat) :
  existsb (fun c => c =? 1) chunks = true <-> In 1 chunks.
Proof.
  rewrite existsb_exists. split.
  - intros (c & Hc & E). apply Nat.eqb_eq in E. now subst.
  - intros H. exists 1. split; [exact H|reflexivity].
Qed.

(** C7. [dask_coverage] raises its usage error exactly when an x chunk
    or a y chunk has size 1, whatever the geometry chunks are; otherwise
    it returns the chunked array; in both cases without any engine call:
    building the array runs no block. *)
Theorem dask_coverage_chunk_guard (x y : DaskArray Q)
    (geom_array : DaskArray Geometry) (w strategy : string) (crs : CRS) :
  (outcome (dask_coverage exact_extract x y geom_array w strategy crs) =
     Err (ValueError
       "exactextract does not support a chunksize of 1. Please rechunk to avoid this")
   <-> In 1 (da_chunks x) \/ In 1 (da_chunks y)) /\
  (is_ok (outcome (dask_coverage exact_extract x y geom_array w strategy crs))
     = false
   <-> In 1 (da_chunks x) \/ In 1 (da_chunks y)) /\
  trace (dask_coverage exact_extract x y geom_array w strategy crs) = [].
Proof.
  unfold dask_coverage.
  destruct (existsb (fun c => c =? 1) (da_chunks x)) eqn:Ex;
    [|destruct (existsb (fun c => c =? 1) (da_chunks y)) eqn:Ey];
    cbn [orb outcome trace raise ret fst snd is_ok].
  - apply existsb_one in Ex. repeat split; auto.
  - apply existsb_one in Ey. repeat split; auto.
  - assert (Hno : ~ (In 1 (da_chunks x) \/ In 1 (da_chunks y))).
    { intros [H|H]; apply existsb_one in H; congruence. }
    repeat split; try discriminate; intros H; contradiction.
Qed.

End ChunkGuard.

(** ** The Mode Selector *)

Lemma bind_ret {G A B} (a : A) (k : A -> M G B) : bind (ret a) k = k a.
Proof. unfold bind, ret. now destruct (k a). Qed.

Lemma bind_lift_ok {G A B} (a : A) (k : A -> M G B) :
  bind (lift (Ok a)) k = k a.
Proof. unfold bind, lift. now destruct (k a). Qed.

Lemma bind_lift_err {G A B} (e : exn) (k : A -> M G B) :
  bind (lift (Err e)) k = ([], Err e).
Proof. reflexivity. Qed.

Lemma outcome_bind {G A B} (m : M G A) (k : A -> M G B) :
  outcome (bind m k) =
    match outcome m with
    | inl e => inl e
    | inr a => outcome (k a)
    end.
Proof.
  unfold outcome, bind. destruct m as [t [e|a]]; cbn [snd]; [reflexivity|].
  now destruct (k a).
Qed.

Lemma trace_bind {G A B} (m : M G A) (k : A -> M G B) :
  trace (bind m k) =
    match outcome m with
    | inl e => trace m
    | inr a => trace m ++ trace (k a)
    end.
Proof.
  unfold outcome, trace, bind. destruct m as [t [e|a]]; cbn [fst snd];
    [reflexivity|].
  now destruct (k a).
Qed.

Lemma trace_lift {G A} (r : result A) : trace (@lift G A r) = [].
Proof. reflexivity. Qed.

Lemma outcome_lift {G A} (r : result A) : outcome (@lift G A r) = r.
Proof. reflexivity. Qed.

Lemma trace_ret {G A} (a : A) : trace (@ret G A a) = [].
Proof. reflexivity. Qed.

Lemma outcome_ret {G A} (a : A) : outcome (@ret G A a) = Ok a.
Proof. reflexivity. Qed.

Lemma dask_coverage_trace {G}
    (engine : NumPyRasterSource -> GeoDataFrame G -> string -> list EngineRow)
    x y g w strategy crs :
  trace (dask_coverage engine x y g w strategy crs) = [].
Proof.
  unfold dask_coverage.
  now destruct (existsb _ (da_chunks x) || existsb _ (da_chunks y)).
Qed.

Lemma xy_to_raster_source_srs x y srs r :
  xy_to_raster_source x y srs = Ok r -> rs_srs_wkt r = srs.
Proof.
  unfold xy_to_raster_source.
  repeat match goal with
         | |- context [rbind ?m _] =>
             destruct m; cbn [rbind]; [discriminate|]
         end.
  destruct (Qgt_bool _ _);
    repeat match goal with
           | |- context [rbind ?m _] =>
               destruct m; cbn [rbind]; [discriminate|]
           end;
    intros [= <-]; reflexivity.
Qed.

(** Merging the index coordinates never looks at the payload of the
    "spatial_ref" coordinate and never replaces it. *)
Lemma merge_coords_payload {G} (s1 s2 : string) cs
    (m1 m2 : gmap string (CoordValue G)) :
  m1 !! "spatial_ref"%string = Some (SpatialRefCoord s1) ->
  m2 = <["spatial_ref"%string := SpatialRefCoord s2]> m1 ->
  match merge_coords m1 cs, merge_coords m2 cs with
  | inr a, inr b =>
      b = <["spatial_ref"%string := SpatialRefCoord s2]> a /\
      a !! "spatial_ref"%string = Some (SpatialRefCoord s1)
  | inl e1, inl e2 => e1 = e2
  | _, _ => False
  end.
Proof.
  revert m1 m2. induction cs as [|[dim v] cs IH]; intros m1 m2 H1 ->.
  - cbn [merge_coords]. split; [reflexivity|exact H1].
  - cbn [merge_coords]. unfold merge_coord.
    destruct (decide (dim = "spatial_ref"%string)) as [->|Hne].
    + rewrite H1, lookup_insert_eq. reflexivity.
    + rewrite lookup_insert_ne by congruence.
      destruct (m1 !! dim) as [[p|g|g|v']|] eqn:E; cbn [rbind];
        try reflexivity.
      * destruct (Qlist_eqb v' v); cbn [rbind]; [|reflexivity].
        apply IH; [exact H1|reflexivity].
      * apply IH.
        -- rewrite lookup_insert_ne by exact Hne. exact H1.
        -- apply insert_insert_ne. exact Hne.
Qed.

Section CoverageFacts.
Context {Geometry : Type}.
Variable exact_extract :
  NumPyRasterSource -> GeoDataFrame Geometry -> string -> list EngineRow.
Variable is_in_memory : XrObject -> GeomTable Geometry -> bool.
Variable geometries_as_dask_array :
  GeomTable Geometry -> result (DaskArray Geometry).

(** [coverage] is the spatial_ref check, then the selected path, then
    the labelling of its result. *)
Lemma coverage_split obj geometries xdim ydim strategy w :
  coverage exact_extract is_in_memory geometries_as_dask_array
           obj geometries xdim ydim strategy w =
  match obj_spatial_ref obj with
  | None =>
      raise (ValueError "Xarray object must contain the `spatial_ref` variable.")
  | Some s =>
      let* computed :=
        coverage_data exact_extract is_in_memory geometries_as_dask_array
                      obj geometries xdim ydim strategy w in
      lift (label_output obj s xdim ydim w computed)
  end.
Proof.
  unfold coverage, coverage_data, label_output.
  destruct (obj_spatial_ref obj) as [s|]; [|reflexivity].
  match goal with
  | |- bind ?m ?k1 = bind ?m ?k2 =>
      assert (Hk : forall a, k1 a = k2 a); [|destruct m as [t [e|a]];
        cbn [bind]; [reflexivity | now rewrite Hk]]
  end.
  intros [out ga]. fold (index_coords obj xdim ydim).
  fold (output_attrs w) (output_name w).
  destruct (merge_coords _ (index_coords obj xdim ydim)); reflexivity.
Qed.

Lemma dask_coverage_ok_inv (x y : DaskArray Q) (g : DaskArray Geometry)
    w strategy crs d :
  outcome (dask_coverage exact_extract x y g w strategy crs) = Ok d ->
  ~ In 1 (da_chunks x) /\ ~ In 1 (da_chunks y) /\
  dask_coverage exact_extract x y g w strategy crs = ([], Ok d) /\
  dc_chunks d = (da_chunks g, da_chunks y, da_chunks x) /\
  dc_tasks d =
    map (fun gb =>
      map (fun yb =>
        map (fun xb =>
          coverage_np_dask_wrapper exact_extract gb xb yb w strategy crs)
          (da_blocks x))
        (da_blocks y))
      (da_blocks g).
Proof.
  unfold dask_coverage.
  destruct (existsb (fun c => c =? 1) (da_chunks x)) eqn:Ex;
    [discriminate|].
  destruct (existsb (fun c => c =? 1) (da_chunks y)) eqn:Ey;
    [discriminate|].
  cbn [orb outcome ret snd]. intros [= <-].
  repeat split; try reflexivity.
  - intros H. apply existsb_one in H. congruence.
  - intros H. apply existsb_one in H. congruence.
Qed.

Lemma coordinate_as_dask_inv obj dim a :
  coordinate_as_dask obj dim = Ok a ->
  exists d,
    obj_vars obj !! dim = Some d /\
    match d with
    | NumpyData v =>
        da_values a = v /\
        da_chunks a = match obj_chunksizes obj !! dim with
                      | Some cs => cs
                      | None => [length v]
                      end
    | DaskData a' => a = a'
    end.
Proof.
  unfold coordinate_as_dask, obj_getitem.
  destruct (obj_vars obj !! dim) as [d|]; cbn [rbind]; [|discriminate].
  intros H. exists d. split; [reflexivity|].
  destruct d as [v|a']; injection H as <-; [|reflexivity].
  unfold from_array. now destruct (obj_chunksizes obj !! dim).
Qed.

Lemma coordinate_as_dask_normalised obj dim d :
  obj_vars obj !! dim = Some d ->
  exists a, coordinate_as_dask obj dim = Ok a /\ normalised obj dim d a.
Proof.
  intros Hd. unfold coordinate_as_dask, obj_getitem. rewrite Hd. cbn [rbind].
  destruct d as [v|a]; eexists; (split; [reflexivity|]); cbn [normalised].
  - unfold from_array. now destruct (obj_chunksizes obj !! dim).
  - reflexivity.
Qed.

Lemma coordinate_as_dask_missing obj dim :
  obj_vars obj !! dim = None ->
  coordinate_as_dask obj dim = Err (KeyError dim).
Proof.
  intros Hd. unfold coordinate_as_dask, obj_getitem. now rewrite Hd.
Qed.

(** C9, as the code has it. Whenever [coverage] takes the chunked path,
    the helper's error or a missing coordinate ends the run before
    [dask_coverage] is called; otherwise [dask_coverage] is called, on the
    geometry collection in its chunked representation, on every
    coordinate that is already a dask array as it is, and on every other
    coordinate as a chunked array of the same values whose chunks are the
    chunk sizes the object declares for that dimension, one chunk
    spanning the array only when it declares none. This holds whether
    [dask_coverage] then raises, in which case [coverage] raises the same
    error, or returns the lazy array, which is the data of any output. *)
Theorem chunked_path_normalisation obj geometries xdim ydim strategy w s :
  obj_spatial_ref obj = Some s ->
  is_in_memory obj geometries = false ->
  match geometries_as_dask_array geometries with
  | inl e =>
      coverage exact_extract is_in_memory geometries_as_dask_array
               obj geometries xdim ydim strategy w = ([], Err e)
  | inr g =>
      match obj_vars obj !! xdim, obj_vars obj !! ydim with
      | Some xd, Some yd =>
          exists dx dy,
            normalised obj xdim xd dx /\
            normalised obj ydim yd dy /\
            coverage_data exact_extract is_in_memory geometries_as_dask_array
                          obj geometries xdim ydim strategy w =
              (let* out := dask_coverage exact_extract dx dy g w strategy
                             (gdf_crs (table_frame geometries)) in
               chunked_path_tail geometries g out) /\
            match outcome (dask_coverage exact_extract dx dy g w strategy
                             (gdf_crs (table_frame geometries))) with
            | inl e =>
                coverage exact_extract is_in_memory geometries_as_dask_array
                         obj geometries xdim ydim strategy w = ([], Err e)
            | inr d =>
                dc_chunks d = (da_chunks g, da_chunks dy, da_chunks dx) /\
                forall out,
                  outcome (coverage exact_extract is_in_memory
                             geometries_as_dask_array obj geometries xdim ydim
                             strategy w) = Ok out ->
                  out_data out = LazyData d
            end
      | None, _ =>
          coverage exact_extract is_in_memory geometries_as_dask_array
                   obj geometries xdim ydim strategy w = ([], Err (KeyError xdim))
      | Some _, None =>
          coverage exact_extract is_in_memory geometries_as_dask_array
                   obj geometries xdim ydim strategy w = ([], Err (KeyError ydim))
      end
  end.
Proof.
  intros Hs Hmem. rewrite coverage_split, Hs. unfold coverage_data.
  rewrite Hmem.
  destruct (geometries_as_dask_array geometries) as [e|g]; [reflexivity|].
  rewrite bind_lift_ok.
  destruct (obj_vars obj !! xdim) as [xd|] eqn:Hxd;
    [|rewrite (coordinate_as_dask_missing _ _ Hxd); reflexivity].
  destruct (coordinate_as_dask_normalised _ _ _ Hxd) as (dx & Edx & Hdx).
  rewrite Edx, bind_lift_ok.
  destruct (obj_vars obj !! ydim) as [yd|] eqn:Hyd;
    [|rewrite (coordinate_as_dask_missing _ _ Hyd); reflexivity].
  destruct (coordinate_as_dask_normalised _ _ _ Hyd) as (dy & Edy & Hdy).
  rewrite Edy, bind_lift_ok.
  exists dx, dy. split; [exact Hdx|]. split; [exact Hdy|].
  split; [reflexivity|].
  pose proof (dask_coverage_trace exact_extract dx dy g w strategy
                (gdf_crs (table_frame geometries))) as Ht.
  destruct (dask_coverage exact_extract dx dy g w strategy
              (gdf_crs (table_frame geometries))) as [t [e|d]] eqn:Ed;
    cbn [trace fst] in Ht; subst t; cbn [outcome snd].
  - reflexivity.
  - split.
    + assert (Ho : outcome (dask_coverage exact_extract dx dy g w strategy
                    (gdf_crs (table_frame geometries))) = Ok d)
        by (rewrite Ed; reflexivity).
      now destruct (dask_coverage_ok_inv _ _ _ _ _ _ _ Ho) as (_ & _ & _ & Hch & _).
    + intros out. rewrite !outcome_bind. cbn [outcome snd].
      rewrite !outcome_bind.
      destruct (outcome (if is_GeoDataFrame geometries then _ else _))
        as [e|ga]; [discriminate|].
      rewrite outcome_ret, outcome_lift. unfold label_output.
      destruct (merge_coords _ _) as [e|coords]; cbn [rbind]; [discriminate|].
      intros [= <-]. reflexivity.
Qed.


Lemma coverage_data_payload obj geometries xdim ydim strategy w s2 :
  is_in_memory (with_spatial_ref obj s2) geometries =
    is_in_memory obj geometries ->
  coverage_data exact_extract is_in_memory geometries_as_dask_array
                (with_spatial_ref obj s2) geometries xdim ydim strategy w =
  coverage_data exact_extract is_in_memory geometries_as_dask_array
                obj geometries xdim ydim strategy w.
Proof.
  intros Hmem. unfold coverage_data. rewrite Hmem. reflexivity.
Qed.

Lemma np_coverage_carries_crs x y (geometries : GeoDataFrame Geometry) strategy w :
  Forall (carries_crs (gdf_crs geometries))
         (trace (np_coverage exact_extract x y geometries strategy w)).
Proof.
  destruct (np_coverage_trace exact_extract x y geometries strategy w)
    as [->|(raster & Er & ->)]; [constructor|].
  repeat constructor. unfold carries_crs. cbn [call_rast].
  eapply xy_to_raster_source_srs. exact Er.
Qed.

Lemma coverage_data_carries_crs obj geometries xdim ydim strategy w :
  Forall (carries_crs (gdf_crs (table_frame geometries)))
         (trace (coverage_data exact_extract is_in_memory
                   geometries_as_dask_array obj geometries xdim ydim
                   strategy w)).
Proof.
  unfold coverage_data. destruct (is_in_memory obj geometries).
  - rewrite trace_bind, outcome_lift, trace_lift.
    destruct (obj_getitem obj xdim) as [e|xd]; [constructor|].
    cbn [app]. rewrite trace_bind, outcome_lift, trace_lift.
    destruct (obj_getitem obj ydim) as [e|yd]; [constructor|].
    cbn [app]. rewrite trace_bind.
    pose proof (np_coverage_carries_crs (array_values xd) (array_values yd)
                  (table_frame geometries) strategy w) as Hnp.
    destruct (outcome (np_coverage _ _ _ _ _ _)) as [e|c]; [exact Hnp|].
    apply Forall_app. split; [exact Hnp|].
    rewrite trace_bind, outcome_lift, trace_lift.
    destruct (to_numpy_squeeze _); constructor.
  - rewrite trace_bind, outcome_lift, trace_lift.
    destruct (geometries_as_dask_array geometries) as [e|g]; [constructor|].
    cbn [app]. rewrite trace_bind, outcome_lift, trace_lift.
    destruct (coordinate_as_dask obj xdim) as [e|dx]; [constructor|].
    cbn [app]. rewrite trace_bind, outcome_lift, trace_lift.
    destruct (coordinate_as_dask obj ydim) as [e|dy]; [constructor|].
    cbn [app]. rewrite trace_bind, dask_coverage_trace.
    destruct (outcome (dask_coverage _ _ _ _ _ _ _)) as [e|d]; [constructor|].
    cbn [app]. rewrite trace_bind.
    destruct (is_GeoDataFrame geometries).
    + rewrite trace_bind, outcome_bind, outcome_lift, trace_lift.
      destruct (to_numpy_squeeze _); cbn; constructor.
    + cbn. constructor.
Qed.

Lemma map_blocks_carries_crs (g : DaskArray Geometry) (x y : DaskArray Q)
    w strategy crs meta :
  Forall (Forall (Forall (fun task => Forall (carries_crs crs) (trace task))))
         (dc_tasks (map_blocks exact_extract g x y w strategy crs meta)).
Proof.
  cbn [map_blocks dc_tasks].
  apply Forall_map, Forall_forall. intros gb _.
  apply Forall_map, Forall_forall. intros yb _.
  apply Forall_map, Forall_forall. intros xb _.
  unfold coverage_np_dask_wrapper.
  apply (np_coverage_carries_crs xb yb (GeoDataFrame_of_geometry gb crs)).
Qed.

(** C10. Two runs of [coverage] on objects that differ only in the
    payload of "spatial_ref" make the same engine calls and end alike:
    the same exception, or outputs with the same data, name, attributes,
    dimensions and coordinates except that "spatial_ref" holds each
    object's own payload. Every engine call, eager or inside a block of
    the chunked result, is made on a descriptor that carries the CRS of
    the geometries. No relation between the object's payload and the
    geometries' CRS is assumed or checked. *)
Theorem coverage_ignores_object_crs obj geometries xdim ydim strategy w s1 s2 :
  obj_spatial_ref obj = Some s1 ->
  is_in_memory (with_spatial_ref obj s2) geometries =
    is_in_memory obj geometries ->
  let run1 := coverage exact_extract is_in_memory geometries_as_dask_array
                obj geometries xdim ydim strategy w in
  let run2 := coverage exact_extract is_in_memory geometries_as_dask_array
                (with_spatial_ref obj s2) geometries xdim ydim strategy w in
  trace run1 = trace run2 /\
  Forall (carries_crs (gdf_crs (table_frame geometries))) (trace run1) /\
  match outcome run1, outcome run2 with
  | inr o1, inr o2 =>
      out_data o1 = out_data o2 /\
      out_name o1 = out_name o2 /\
      out_attrs o1 = out_attrs o2 /\
      out_dims o1 = out_dims o2 /\
      out_coords o1 !! "spatial_ref"%string = Some (SpatialRefCoord s1) /\
      out_coords o2 = <["spatial_ref"%string := SpatialRefCoord s2]> (out_coords o1) /\
      match out_data o1 with
      | LazyData d =>
          Forall (Forall (Forall (fun task =>
            Forall (carries_crs (gdf_crs (table_frame geometries)))
                   (trace task)))) (dc_tasks d)
      | EagerData _ => True
      end
  | inl e1, inl e2 => e1 = e2
  | _, _ => False
  end.
Proof.
  intros Hs Hmem run1 run2. subst run1 run2.
  rewrite !coverage_split. cbn [with_spatial_ref obj_spatial_ref].
  rewrite Hs, (coverage_data_payload _ _ _ _ _ _ _ Hmem).
  rewrite !trace_bind, !outcome_bind.
  pose proof (coverage_data_carries_crs obj geometries xdim ydim strategy w)
    as Hcrs.
  assert (Hlazy : forall d ga,
    outcome (coverage_data exact_extract is_in_memory
               geometries_as_dask_array obj geometries xdim ydim strategy w)
      = Ok (LazyData d, ga) ->
    Forall (Forall (Forall (fun task =>
      Forall (carries_crs (gdf_crs (table_frame geometries)))
             (trace task)))) (dc_tasks d)).
  { intros d ga. unfold coverage_data.
    destruct (is_in_memory obj geometries).
    - rewrite !outcome_bind, outcome_lift.
      destruct (obj_getitem obj xdim); [discriminate|].
      rewrite !outcome_bind, outcome_lift.
      destruct (obj_getitem obj ydim); [discriminate|].
      rewrite !outcome_bind.
      destruct (outcome (np_coverage _ _ _ _ _ _)); [discriminate|].
      rewrite !outcome_bind, outcome_lift.
      destruct (to_numpy_squeeze _); [discriminate|].
      rewrite outcome_ret. discriminate.
    - rewrite !outcome_bind, outcome_lift.
      destruct (geometries_as_dask_array geometries) as [e|g]; [discriminate|].
      rewrite !outcome_bind, outcome_lift.
      destruct (coordinate_as_dask obj xdim) as [e|dx]; [discriminate|].
      rewrite !outcome_bind, outcome_lift.
      destruct (coordinate_as_dask obj ydim) as [e|dy]; [discriminate|].
      rewrite !outcome_bind.
      destruct (outcome (dask_coverage exact_extract dx dy g w strategy
                  (gdf_crs (table_frame geometries)))) as [e|d'] eqn:Ed;
        [discriminate|].
      rewrite !outcome_bind.
      destruct (outcome (if is_GeoDataFrame geometries then _ else _));
        [discriminate|].
      rewrite outcome_ret. intros [= -> _].
      unfold dask_coverage in Ed.
      destruct (existsb _ (da_chunks dx) || existsb _ (da_chunks dy));
        [discriminate|].
      cbn [outcome ret snd] in Ed. injection Ed as <-.
      apply map_blocks_carries_crs. }
  destruct (outcome (coverage_data exact_extract is_in_memory
              geometries_as_dask_array obj geometries xdim ydim strategy w))
    as [e|[out ga]] eqn:Ec.
  - split; [reflexivity|]. split; [exact Hcrs|reflexivity].
  - rewrite !trace_lift, !outcome_lift, app_nil_r.
    split; [reflexivity|]. split; [exact Hcrs|].
    unfold label_output.
    pose proof (merge_coords_payload (G := Geometry) s1 s2
                  (index_coords obj xdim ydim)
                  (<["geometry"%string := ga]>
                     (<["spatial_ref"%string := SpatialRefCoord s1]> ∅))
                  (<["geometry"%string := ga]>
                     (<["spatial_ref"%string := SpatialRefCoord s2]> ∅)))
      as Hm.
    change (index_coords (with_spatial_ref obj s2) xdim ydim)
      with (index_coords obj xdim ydim).
    destruct (merge_coords
                (<["geometry"%string := ga]>
                   (<["spatial_ref"%string := SpatialRefCoord s1]> ∅))
                (index_coords obj xdim ydim)) as [e1|c1];
      destruct (merge_coords
                (<["geometry"%string := ga]>
                   (<["spatial_ref"%string := SpatialRefCoord s2]> ∅))
                (index_coords obj xdim ydim)) as [e2|c2];
      cbn [rbind].
    + apply Hm.
      * rewrite lookup_insert_ne by discriminate. apply lookup_insert_eq.
      * rewrite (insert_insert_ne _ "spatial_ref"%string) by discriminate.
        now rewrite insert_insert_eq.
    + exfalso. apply Hm.
      * rewrite lookup_insert_ne by discriminate. apply lookup_insert_eq.
      * rewrite (insert_insert_ne _ "spatial_ref"%string) by discriminate.
        now rewrite insert_insert_eq.
    + exfalso. apply Hm.
      * rewrite lookup_insert_ne by discriminate. apply lookup_insert_eq.
      * rewrite (insert_insert_ne _ "spatial_ref"%string) by discriminate.
        now rewrite insert_insert_eq.
    + cbn [out_data out_name out_attrs out_dims out_coords].
      destruct Hm as [Hc2 Hc1].
      * rewrite lookup_insert_ne by discriminate. apply lookup_insert_eq.
      * rewrite (insert_insert_ne _ "spatial_ref"%string) by discriminate.
        now rewrite insert_insert_eq.
      * repeat split; try assumption.
        destruct out as [c|d]; [exact I|]. eapply Hlazy. reflexivity.
Qed.

(** On the in-memory path a table of more than one column is refused by
    [np_coverage] before the engine is called. *)
Lemma in_memory_path_rejects_many_columns obj geometries xdim ydim
    strategy w s xd yd :
  obj_spatial_ref obj = Some s ->
  is_in_memory obj geometries = true ->
  obj_vars obj !! xdim = Some xd ->
  obj_vars obj !! ydim = Some yd ->
  1 < length (gdf_columns (table_frame geometries)) ->
  coverage exact_extract is_in_memory geometries_as_dask_array
           obj geometries xdim ydim strategy w =
    ([], Err (ValueError "Require a single geometries column or a GeoSeries.")).
Proof.
  intros Hs Hmem Hx Hy Hcols. rewrite coverage_split, Hs.
  unfold coverage_data, obj_getitem. rewrite Hmem, Hx, Hy.
  rewrite !bind_lift_ok.
  rewrite np_coverage_many_columns by exact Hcols. reflexivity.
Qed.

(** Every block of the chunked array shows the engine a table it has
    built itself, of the single column "geometry": the column check of
    [np_coverage] cannot fire inside a block. *)
Lemma block_tables_single_column (g : DaskArray Geometry) (x y : DaskArray Q)
    w strategy crs meta :
  Forall (Forall (Forall (fun task =>
    Forall (fun c => gdf_columns (call_vec c) = ["geometry"%string])
           (trace task))))
    (dc_tasks (map_blocks exact_extract g x y w strategy crs meta)).
Proof.
  cbn [map_blocks dc_tasks].
  apply Forall_map, Forall_forall. intros gb _.
  apply Forall_map, Forall_forall. intros yb _.
  apply Forall_map, Forall_forall. intros xb _.
  unfold coverage_np_dask_wrapper.
  destruct (np_coverage_trace exact_extract xb yb
              (GeoDataFrame_of_geometry gb crs) DEFAULT_STRATEGY w)
    as [->|(raster & _ & ->)]; repeat constructor.
Qed.

End CoverageFacts.

Lemma chunked_path_normalisation_witness :
  match geometries_as_dask_array_spec (InMemory one_square) with
  | inl e =>
      coverage rect_engine is_in_memory_spec geometries_as_dask_array_spec
               chunked_obj (InMemory one_square) "x" "y"
               DEFAULT_STRATEGY "fraction" = ([], Err e)
  | inr g =>
      match obj_vars chunked_obj !! "x"%string,
            obj_vars chunked_obj !! "y"%string with
      | Some xd, Some yd =>
          exists dx dy,
            normalised chunked_obj "x" xd dx /\
            normalised chunked_obj "y" yd dy /\
            coverage_data rect_engine is_in_memory_spec
                          geometries_as_dask_array_spec
                          chunked_obj (InMemory one_square) "x" "y"
                          DEFAULT_STRATEGY "fraction" =
              (let* out := dask_coverage rect_engine dx dy g "fraction"
                             DEFAULT_STRATEGY
                             (gdf_crs (table_frame (InMemory one_square))) in
               chunked_path_tail (InMemory one_square) g out) /\
            match outcome (dask_coverage rect_engine dx dy g "fraction"
                             DEFAULT_STRATEGY
                             (gdf_crs (table_frame (InMemory one_square)))) with
            | inl e =>
                coverage rect_engine is_in_memory_spec
                         geometries_as_dask_array_spec
                         chunked_obj (InMemory one_square) "x" "y"
                         DEFAULT_STRATEGY "fraction" = ([], Err e)
            | inr d =>
                dc_chunks d = (da_chunks g, da_chunks dy, da_chunks dx) /\
                forall out,
                  outcome (coverage rect_engine is_in_memory_spec
                             geometries_as_dask_array_spec
                             chunked_obj (InMemory one_square) "x" "y"
                             DEFAULT_STRATEGY "fraction") = Ok out ->
                  out_data out = LazyData d
            end
      | None, _ =>
          coverage rect_engine is_in_memory_spec geometries_as_dask_array_spec
                   chunked_obj (InMemory one_square) "x" "y"
                   DEFAULT_STRATEGY "fraction" = ([], Err (KeyError "x"))
      | Some _, None =>
          coverage rect_engine is_in_memory_spec geometries_as_dask_array_spec
                   chunked_obj (InMemory one_square) "x" "y"
                   DEFAULT_STRATEGY "fraction" = ([], Err (KeyError "y"))
      end
  end.
Proof.
  apply (chunked_path_normalisation rect_engine is_in_memory_spec
           geometries_as_dask_array_spec chunked_obj (InMemory one_square)
           "x" "y" DEFAULT_STRATEGY "fraction" "EPSG:32633").
  - reflexivity.
  - vm_compute. reflexivity.
Defined.

(** C9, as stated, fails: the object declares the chunks 2 + 2 for "x" and
    "y"; its numpy coordinates reach [dask_coverage] in two chunks each, not
    in one. *)
Lemma chunked_path_keeps_declared_chunks :
  is_in_memory_spec chunked_obj (InMemory one_square) = false /\
  obj_vars chunked_obj !! "x"%string = Some (NumpyData unit_x) /\
  obj_vars chunked_obj !! "y"%string = Some (NumpyData unit_y) /\
  exists out d,
    outcome (coverage rect_engine is_in_memory_spec geometries_as_dask_array_spec
               chunked_obj (InMemory one_square) "x" "y"
               DEFAULT_STRATEGY "fraction") = Ok out /\
    out_data out = LazyData d /\
    dc_chunks d = ([1], [2; 2], [2; 2]) /\
    snd (dc_chunks d) <> [length unit_x].
Proof.
  split; [vm_compute; reflexivity|].
  split; [vm_compute; reflexivity|].
  split; [vm_compute; reflexivity|].
  eexists. eexists. split; [vm_compute; reflexivity|].
  split; [reflexivity|]. split; [reflexivity|]. discriminate.
Qed.

Lemma coverage_ignores_object_crs_witness :
  let run1 := coverage rect_engine is_in_memory_spec geometries_as_dask_array_spec
                eager_obj (InMemory one_square) "x" "y"
                DEFAULT_STRATEGY "fraction" in
  let run2 := coverage rect_engine is_in_memory_spec geometries_as_dask_array_spec
                (with_spatial_ref eager_obj "EPSG:4326") (InMemory one_square)
                "x" "y" DEFAULT_STRATEGY "fraction" in
  trace run1 = trace run2 /\
  Forall (carries_crs (gdf_crs (table_frame (InMemory one_square)))) (trace run1) /\
  match outcome run1, outcome run2 with
  | inr o1, inr o2 =>
      out_data o1 = out_data o2 /\
      out_name o1 = out_name o2 /\
      out_attrs o1 = out_attrs o2 /\
      out_dims o1 = out_dims o2 /\
      out_coords o1 !! "spatial_ref"%string = Some (SpatialRefCoord "EPSG:32633") /\
      out_coords o2 =
        <["spatial_ref"%string := SpatialRefCoord "EPSG:4326"]> (out_coords o1) /\
      match out_data o1 with
      | LazyData d =>
          Forall (Forall (Forall (fun task =>
            Forall (carries_crs (gdf_crs (table_frame (InMemory one_square))))
                   (trace task)))) (dc_tasks d)
      | EagerData _ => True
      end
  | inl e1, inl e2 => e1 = e2
  | _, _ => False
  end.
Proof.
  apply (coverage_ignores_object_crs rect_engine is_in_memory_spec
           geometries_as_dask_array_spec eager_obj (InMemory one_square)
           "x" "y" DEFAULT_STRATEGY "fraction" "EPSG:32633" "EPSG:4326").
  - reflexivity.
  - vm_compute. reflexivity.
Defined.



(** A table of two columns on each of the three ways through
    [coverage]: in memory, the column check of [np_coverage]; chunked with
    a GeoDataFrame, the squeeze of the table; chunked with a partitioned
    table, the helper. *)
Lemma two_columns_on_every_path :
  coverage rect_engine is_in_memory_spec geometries_as_dask_array_spec
           eager_obj (InMemory two_columns) "x" "y"
           DEFAULT_STRATEGY "fraction" =
    ([], Err (ValueError "Require a single geometries column or a GeoSeries.")) /\
  coverage rect_engine is_in_memory_spec geometries_as_dask_array_spec
           chunked_obj (InMemory two_columns) "x" "y"
           DEFAULT_STRATEGY "fraction" =
    ([], Err (ValueError
       "cannot select an axis to squeeze out which has size not equal to one")) /\
  coverage rect_engine is_in_memory_spec geometries_as_dask_array_spec
           chunked_obj (Partitioned two_columns [1]) "x" "y"
           DEFAULT_STRATEGY "fraction" =
    ([], Err (ValueError
       "cannot select an axis to squeeze out which has size not equal to one")).
Proof.
  split; [vm_compute; reflexivity|].
  split; vm_compute; reflexivity.
Qed.

(** ** Chunk layouts *)

Lemma chunk_block_cons {A} (c : nat) (t : list nat) (data : list A) (b : nat) :
  chunk_block (c :: t) data (S b) = chunk_block t (skipn c data) b.
Proof.
  unfold chunk_block, chunk_offset. cbn [nth firstn list_sum fold_right].
  rewrite skipn_skipn. do 2 f_equal. change (list_sum (firstn b t))
    with (fold_right Init.Nat.add 0 (firstn b t)). lia.
Qed.

Lemma split_chunks_blocks {A} (chunks : list nat) (data : list A) :
  split_chunks chunks data =
    map (chunk_block chunks data) (seq 0 (length chunks)).
Proof.
  revert data. induction chunks as [|c t IH]; intros data; [reflexivity|].
  cbn [split_chunks length seq map]. f_equal.
  rewrite IH, <- seq_shift, map_map.
  apply map_ext. intros b. symmetry. apply chunk_block_cons.
Qed.

Lemma chunk_offset_bound (chunks : list nat) (b : nat) :
  b < length chunks ->
  chunk_offset chunks b + nth b chunks 0 <= list_sum chunks.
Proof.
  unfold chunk_offset. revert b.
  induction chunks as [|c t IH]; intros b Hb; simpl in Hb; [lia|].
  destruct b as [|b]; simpl.
  - lia.
  - specialize (IH b ltac:(lia)).
    change (fold_right Init.Nat.add 0 (firstn b t)) with (list_sum (firstn b t)).
    change (fold_right Init.Nat.add 0 t) with (list_sum t). lia.
Qed.

Lemma length_chunk_block {A} (chunks : list nat) (data : list A) (b : nat) :
  list_sum chunks = length data -> b < length chunks ->
  length (chunk_block chunks data b) = nth b chunks 0.
Proof.
  intros Hsum Hb. unfold chunk_block.
  rewrite length_firstn, length_skipn.
  pose proof (chunk_offset_bound chunks b Hb). lia.
Qed.

Lemma nth_chunk_block {A} (chunks : list nat) (data : list A) (b o : nat) :
  o < nth b chunks 0 ->
  nth_error (chunk_block chunks data b) o =
    nth_error data (chunk_offset chunks b + o).
Proof.
  intros Ho. unfold chunk_block.
  rewrite nth_error_firstn.
  replace (o <? nth b chunks 0) with true by (symmetry; apply Nat.ltb_lt; lia).
  apply nth_error_skipn.
Qed.

Lemma locate_spec (chunks : list nat) (i : nat) :
  i < list_sum chunks ->
  exists b o, locate chunks i = Some (b, o) /\ b < length chunks /\
              o < nth b chunks 0 /\ chunk_offset chunks b + o = i.
Proof.
  revert i. induction chunks as [|c t IH]; intros i Hi; simpl in Hi; [lia|].
  cbn [locate]. destruct (i <? c) eqn:E.
  - apply Nat.ltb_lt in E. exists 0, i. repeat split; simpl; lia.
  - apply Nat.ltb_ge in E.
    change (fold_right Init.Nat.add 0 t) with (list_sum t) in Hi.
    destruct (IH (i - c) ltac:(lia)) as (b & o & -> & Hb & Ho & Hoff).
    exists (S b), o. repeat split; simpl; try lia.
    unfold chunk_offset in *. cbn [firstn list_sum fold_right].
    change (fold_right Init.Nat.add 0 (firstn b t)) with (list_sum (firstn b t)).
    lia.
Qed.

Lemma nth_in_chunks (chunks : list nat) (b : nat) :
  b < length chunks -> In (nth b chunks 0) chunks.
Proof. intros Hb. now apply nth_In. Qed.

(** ** Forcing the blocks *)

Lemma sequence_map_ok {G A B} (f : A -> M G B) (v : A -> B) (l : list A) :
  (forall a, In a l -> outcome (f a) = Ok (v a)) ->
  outcome (sequence (map f l)) = Ok (map v l).
Proof.
  induction l as [|a l IH]; intros H; [reflexivity|].
  cbn [map sequence]. rewrite outcome_bind, (H a) by now left.
  rewrite outcome_bind, IH by (intros b Hb; apply H; now right).
  reflexivity.
Qed.

Lemma nth_error_map_seq {A} (f : nat -> A) (n b : nat) :
  b < n -> nth_error (map f (seq 0 n)) b = Some (f b).
Proof.
  intros Hb. rewrite nth_error_map, nth_error_seq.
  replace (b <? n) with true by (symmetry; apply Nat.ltb_lt; lia).
  reflexivity.
Qed.

Lemma tabulate_ext {A} (ng ny nx : nat) (f h : nat -> nat -> nat -> A) :
  (forall g r x, g < ng -> r < ny -> x < nx -> f g r x = h g r x) ->
  tabulate (ng, ny, nx) f = tabulate (ng, ny, nx) h.
Proof.
  intros H. unfold tabulate.
  apply map_ext_in. intros g Hg. apply in_seq in Hg.
  apply map_ext_in. intros r Hr. apply in_seq in Hr.
  apply map_ext_in. intros x Hx. apply in_seq in Hx.
  apply H; lia.
Qed.

Lemma Q_eqb_eq (a b : Q) : Q_eqb a b = true -> a = b.
Proof.
  destruct a as [na da], b as [nb db]. unfold Q_eqb. cbn [Qnum Qden].
  intros H. apply andb_true_iff in H as [Hn Hd].
  apply Z.eqb_eq in Hn. apply Pos.eqb_eq in Hd. now subst.
Qed.

Lemma option_Q_eqb_eq (a b : option Q) : option_Q_eqb a b = true -> a = b.
Proof.
  destruct a as [u|], b as [v|]; cbn; try discriminate; [|reflexivity].
  intros H. f_equal. now apply Q_eqb_eq.
Qed.

Lemma block_agrees_at rows rows_b nx goff yoff xoff ngb nyb nxb lg lr lx :
  block_agrees rows rows_b nx goff yoff xoff ngb nyb nxb = true ->
  lg < ngb -> lr < nyb -> lx < nxb ->
  reported_at rows_b lg (Z.of_nat (lr * nxb + lx)) =
  reported_at rows (goff + lg) (Z.of_nat ((yoff + lr) * nx + (xoff + lx))).
Proof.
  unfold block_agrees. intros H Hg Hr Hx.
  rewrite forallb_forall in H. specialize (H lg ltac:(apply in_seq; lia)).
  rewrite forallb_forall in H. specialize (H lr ltac:(apply in_seq; lia)).
  rewrite forallb_forall in H. specialize (H lx ltac:(apply in_seq; lia)).
  now apply option_Q_eqb_eq.
Qed.

Lemma coo_get_columns_coo dt ncells rows ng ny nx (g r x : nat) :
  forallb (row_ok ncells) rows = true -> x < nx ->
  coo_get (columns_coo dt rows ng ny nx)
          (Z.of_nat g) (Z.of_nat r) (Z.of_nat x) =
    match option_map (cast_to dt) (reported_at rows g (Z.of_nat (r * nx + x))) with
    | Some v => v
    | None => 0%Q
    end.
Proof.
  intros Hrows Hx. unfold coo_get.
  rewrite (stored_at_columns_coo dt ncells rows ng ny nx g r x Hrows Hx).
  unfold reported_at. now destruct (nth_error rows g).
Qed.

Lemma compute_grid {G A B C} (T : A -> B -> C -> M G COO)
    (V : A -> B -> C -> COO) (la : list A) (lb : list B) (lc : list C)
    chunks meta :
  (forall a b c, In a la -> In b lb -> In c lc ->
                 outcome (T a b c) = Ok (V a b c)) ->
  outcome (compute (mkDaskCOO chunks
             (map (fun a => map (fun b => map (fun c => T a b c) lc) lb) la)
             meta)) =
    Ok (map (fun a => map (fun b => map (fun c => V a b c) lc) lb) la).
Proof.
  intros H. unfold compute. cbn [dc_tasks]. rewrite map_map.
  apply sequence_map_ok. intros a Ha. rewrite map_map.
  apply sequence_map_ok. intros b Hb.
  apply sequence_map_ok. intros c Hc. now apply H.
Qed.

Lemma block_at_grid {A B C} (V : A -> B -> C -> COO)
    (la : list A) (lb : list B) (lc : list C) (i j k : nat) a b c :
  nth_error la i = Some a -> nth_error lb j = Some b ->
  nth_error lc k = Some c ->
  block_at (map (fun a => map (fun b => map (fun c => V a b c) lc) lb) la)
           i j k = Some (V a b c).
Proof.
  intros Ha Hb Hc. unfold block_at.
  rewrite nth_error_map, Ha. cbn [option_map].
  rewrite nth_error_map, Hb. cbn [option_map].
  rewrite nth_error_map, Hc. reflexivity.
Qed.

Lemma in_split_chunks {A} (chunks : list nat) (data blk : list A) :
  In blk (split_chunks chunks data) ->
  exists b, b < length chunks /\ blk = chunk_block chunks data b.
Proof.
  rewrite split_chunks_blocks. intros H.
  apply in_map_iff in H as (b & <- & Hb). apply in_seq in Hb.
  exists b. split; [lia|reflexivity].
Qed.

Lemma nth_split_chunks {A} (chunks : list nat) (data : list A) (b : nat) :
  b < length chunks ->
  nth_error (split_chunks chunks data) b = Some (chunk_block chunks data b).
Proof.
  intros Hb. rewrite split_chunks_blocks. now apply nth_error_map_seq.
Qed.

(** ** Chunk invariance *)

Section ChunkInvariance.
Context {Geometry : Type}.
Variable exact_extract :
  NumPyRasterSource -> GeoDataFrame Geometry -> string -> list EngineRow.

Lemma engine_consistent_inv x y (geometries : GeoDataFrame Geometry) w gch ych xch :
  engine_consistent exact_extract x y geometries w gch ych xch = true ->
  well_answered exact_extract x y geometries w = true /\
  exists rows,
    engine_answer exact_extract x y geometries w = Ok rows /\
    forall bg br bx,
      bg < length gch -> br < length ych -> bx < length xch ->
      well_answered exact_extract (chunk_block xch x bx) (chunk_block ych y br)
        (GeoDataFrame_of_geometry (chunk_block gch (gdf_geometry geometries) bg)
                                  (gdf_crs geometries)) w = true /\
      exists rows_b,
        engine_answer exact_extract (chunk_block xch x bx) (chunk_block ych y br)
          (GeoDataFrame_of_geometry (chunk_block gch (gdf_geometry geometries) bg)
                                    (gdf_crs geometries)) w = Ok rows_b /\
        block_agrees rows rows_b (length x)
          (chunk_offset gch bg) (chunk_offset ych br) (chunk_offset xch bx)
          (length (chunk_block gch (gdf_geometry geometries) bg))
          (length (chunk_block ych y br))
          (length (chunk_block xch x bx)) = true.
Proof.
  intros H. unfold engine_consistent in H.
  destruct (engine_answer exact_extract x y geometries w) as [e|rows] eqn:Ew;
    [discriminate|].
  apply andb_true_iff in H as [Hans Hblocks].
  split; [unfold well_answered; rewrite Ew; exact Hans|].
  exists rows. split; [reflexivity|].
  intros bg br bx Hbg Hbr Hbx.
  rewrite forallb_forall in Hblocks.
  specialize (Hblocks bg ltac:(apply in_seq; lia)).
  rewrite forallb_forall in Hblocks.
  specialize (Hblocks br ltac:(apply in_seq; lia)).
  rewrite forallb_forall in Hblocks.
  specialize (Hblocks bx ltac:(apply in_seq; lia)).
  cbv zeta in Hblocks. apply andb_true_iff in Hblocks as [Hwell Hag].
  split; [exact Hwell|].
  destruct (engine_answer exact_extract (chunk_block xch x bx) _ _ w)
    as [e|rows_b]; [discriminate|].
  exists rows_b. split; [reflexivity|exact Hag].
Qed.

Lemma no_unit_chunk (chunks : list nat) :
  (forall c, In c chunks -> 2 <= c) ->
  existsb (fun c => c =? 1) chunks = false.
Proof.
  intros H. apply not_true_is_false. intros E.
  apply existsb_one in E. specialize (H 1 E). lia.
Qed.

(** The bookkeeping of blocks. For axes, geometries and a chunk layout
    whose x and y chunks all have size at least 2, and an engine whose
    answers on the blocks of the layout are assumed to agree with its
    answer on the whole raster, the chunked path computes every block
    without error and the dense equivalent of the assembled blocks is the
    dense array of the in-memory path on the unpartitioned inputs. The
    assumption fails already for the rectangle engine on an ascending y
    axis, see below. *)
Lemma chunk_invariance x y (geometries : GeoDataFrame Geometry) strategy w
    gch ych xch :
  length (gdf_columns geometries) <= 1 ->
  list_sum gch = gdf_len geometries ->
  list_sum ych = length y ->
  list_sum xch = length x ->
  (forall c, In c ych -> 2 <= c) ->
  (forall c, In c xch -> 2 <= c) ->
  engine_consistent exact_extract x y geometries w gch ych xch = true ->
  exists blocks c,
    outcome (dask_coverage_computed exact_extract (mkDask x xch) (mkDask y ych)
               (mkDask (gdf_geometry geometries) gch) w strategy
               (gdf_crs geometries)) = Ok blocks /\
    outcome (np_coverage exact_extract x y geometries strategy w) = Ok c /\
    blocks_todense (gch, ych, xch) blocks = todense c.
Proof.
  intros Hcols Hg Hy Hx Hych Hxch Hcons.
  destruct (engine_consistent_inv _ _ _ _ _ _ _ Hcons)
    as (Hwell & rows & Hrows & Hblocks).
  destruct (np_coverage_well_answered exact_extract x y geometries strategy w
              Hcols Hwell) as (raster & Er & Hok & Hn & Hrun).
  assert (rows = exact_extract raster geometries w) as ->.
  { unfold engine_answer in Hrows. rewrite Er in Hrows.
    cbn [rbind] in Hrows. now injection Hrows. }
  set (rows := exact_extract raster geometries w) in *.
  set (geoms := gdf_geometry geometries) in *.
  set (crs := gdf_crs geometries) in *.
  pose (V := fun (gb : list Geometry) (yb xb : list Q) =>
    match outcome (coverage_np_dask_wrapper exact_extract gb xb yb w strategy crs)
    with
    | inr c => c
    | inl _ => mkCOO ([], [], []) [] float64 0%Q (0, 0, 0)
    end).
  assert (Hblock : forall bg br bx,
    bg < length gch -> br < length ych -> bx < length xch ->
    exists rows_b,
      coverage_np_dask_wrapper exact_extract (chunk_block gch geoms bg)
        (chunk_block xch x bx) (chunk_block ych y br) w strategy crs =
      ([mkCall
          match xy_to_raster_source (chunk_block xch x bx) (chunk_block ych y br)
                  (Some (to_wkt crs)) with
          | inr rb => rb
          | inl _ => raster
          end
          (GeoDataFrame_of_geometry (chunk_block gch geoms bg) crs) w],
       Ok (columns_coo (get_dtype w geometries) rows_b
             (length (chunk_block gch geoms bg))
             (length (chunk_block ych y br))
             (length (chunk_block xch x bx)))) /\
      forallb (row_ok (length (chunk_block ych y br)
                       * length (chunk_block xch x bx))) rows_b = true /\
      block_agrees rows rows_b (length x)
        (chunk_offset gch bg) (chunk_offset ych br) (chunk_offset xch bx)
        (length (chunk_block gch geoms bg))
        (length (chunk_block ych y br))
        (length (chunk_block xch x bx)) = true).
  { intros bg br bx Hbg Hbr Hbx.
    destruct (Hblocks bg br bx Hbg Hbr Hbx) as (Hwb & rows_b & Eb & Hag).
    destruct (np_coverage_well_answered exact_extract
                (chunk_block xch x bx) (chunk_block ych y br)
                (GeoDataFrame_of_geometry (chunk_block gch geoms bg) crs)
                DEFAULT_STRATEGY w ltac:(cbn; lia) Hwb)
      as (rb & Erb & Hokb & _ & Hrunb).
    exists rows_b.
    assert (rows_b = exact_extract rb
              (GeoDataFrame_of_geometry (chunk_block gch geoms bg) crs) w) as ->.
    { unfold engine_answer in Eb. cbn [gdf_crs GeoDataFrame_of_geometry] in Eb.
      cbn [gdf_crs GeoDataFrame_of_geometry] in Erb.
      rewrite Erb in Eb. cbn [rbind] in Eb. now injection Eb. }
    cbn [gdf_crs GeoDataFrame_of_geometry] in Erb. rewrite Erb.
    split; [|split; [exact Hokb|exact Hag]].
    unfold coverage_np_dask_wrapper. exact Hrunb. }
  assert (HV : forall bg br bx,
    bg < length gch -> br < length ych -> bx < length xch ->
    outcome (coverage_np_dask_wrapper exact_extract (chunk_block gch geoms bg)
               (chunk_block xch x bx) (chunk_block ych y br) w strategy crs) =
    Ok (V (chunk_block gch geoms bg) (chunk_block ych y br)
          (chunk_block xch x bx))).
  { intros bg br bx Hbg Hbr Hbx.
    destruct (Hblock bg br bx Hbg Hbr Hbx) as (rows_b & Erun & _).
    unfold V. rewrite Erun. reflexivity. }
  exists (map (fun gb => map (fun yb => map (fun xb => V gb yb xb)
                 (split_chunks xch x)) (split_chunks ych y))
              (split_chunks gch geoms)).
  eexists. split; [|split; [rewrite Hrun; reflexivity|]].
  - unfold dask_coverage_computed, dask_coverage. cbn [da_chunks].
    rewrite (no_unit_chunk xch Hxch), (no_unit_chunk ych Hych). cbn [orb].
    rewrite bind_ret. unfold map_blocks, da_blocks. cbn [da_chunks da_values].
    apply (compute_grid
             (fun gb yb xb =>
                coverage_np_dask_wrapper exact_extract gb xb yb w strategy crs)
             V).
    intros gb yb xb Hgb Hyb Hxb.
    apply in_split_chunks in Hgb as (bg & Hbg & ->).
    apply in_split_chunks in Hyb as (br & Hbr & ->).
    apply in_split_chunks in Hxb as (bx & Hbx & ->).
    now apply HV.
  - unfold blocks_todense, todense. cbn [coo_shape columns_coo].
    rewrite Hg, Hy, Hx. apply tabulate_ext. intros g r xi Hgi Hri Hxi.
    destruct (locate_spec gch g ltac:(lia)) as (bg & lg & Elg & Hbg & Hlg & Hgo).
    destruct (locate_spec ych r ltac:(lia)) as (br & lr & Elr & Hbr & Hlr & Hro).
    destruct (locate_spec xch xi ltac:(lia)) as (bx & lx & Elx & Hbx & Hlx & Hxo).
    unfold blocks_get. rewrite Elg, Elr, Elx.
    rewrite (block_at_grid V _ _ _ bg br bx _ _ _
               (nth_split_chunks gch geoms bg Hbg)
               (nth_split_chunks ych y br Hbr)
               (nth_split_chunks xch x bx Hbx)).
    destruct (Hblock bg br bx Hbg Hbr Hbx) as (rows_b & Erun & Hokb & Hag).
    unfold V. rewrite Erun. cbn [outcome snd].
    assert (Lg : length (chunk_block gch geoms bg) = nth bg gch 0)
      by (apply length_chunk_block; [exact Hg|exact Hbg]).
    assert (Ly : length (chunk_block ych y br) = nth br ych 0)
      by (apply length_chunk_block; [exact Hy|exact Hbr]).
    assert (Lx : length (chunk_block xch x bx) = nth bx xch 0)
      by (apply length_chunk_block; [exact Hx|exact Hbx]).
    rewrite (coo_get_columns_coo _ _ _ _ _ _ lg lr lx Hokb) by lia.
    rewrite (coo_get_columns_coo _ _ _ _ _ _ g r xi Hok) by lia.
    rewrite (block_agrees_at _ _ _ _ _ _ _ _ _ lg lr lx Hag) by lia.
    rewrite Hgo, Hro, Hxo. reflexivity.
Qed.

End ChunkInvariance.

Lemma chunk_invariance_witness :
  exists blocks c,
    outcome (dask_coverage_computed rect_engine (mkDask unit_x [2; 2])
               (mkDask unit_y [2; 2]) (mkDask (gdf_geometry two_rects) [1; 1])
               "fraction" DEFAULT_STRATEGY (gdf_crs two_rects)) = Ok blocks /\
    outcome (np_coverage rect_engine unit_x unit_y two_rects
               DEFAULT_STRATEGY "fraction") = Ok c /\
    blocks_todense ([1; 1], [2; 2], [2; 2]) blocks = todense c.
Proof.
  apply (chunk_invariance rect_engine unit_x unit_y two_rects
           DEFAULT_STRATEGY "fraction" [1; 1] [2; 2] [2; 2]).
  - simpl. lia.
  - reflexivity.
  - reflexivity.
  - reflexivity.
  - simpl. intros c [<-|[<-|[]]]; lia.
  - simpl. intros c [<-|[<-|[]]]; lia.
  - vm_compute. reflexivity.
Defined.

(** C1. The chunked path and the in-memory path disagree, and the chunked
    result depends on where the chunk boundaries fall. The engine numbers
    the rows of a descriptor from ymax downwards and [np_coverage] stores
    that row number as the y index, whatever the direction of the y axis.
    On the ascending y axis [0.5, 1.5, 2.5, 3.5] the square over y in
    [2, 3] is stored on row 1 by the in-memory path and by the chunked
    path with one chunk per axis, but with the y chunks 2 + 2 it is found
    on row 1 of the second y block, that is row 3 of the assembled
    array. *)
Theorem chunk_invariance_fails_on_ascending_y :
  exists blocks whole c,
    outcome (dask_coverage_computed rect_engine (mkDask unit_x [2; 2])
               (mkDask (rev unit_y) [2; 2]) (mkDask (gdf_geometry one_square) [1])
               "fraction" DEFAULT_STRATEGY (gdf_crs one_square)) = Ok blocks /\
    outcome (dask_coverage_computed rect_engine (mkDask unit_x [4])
               (mkDask (rev unit_y) [4]) (mkDask (gdf_geometry one_square) [1])
               "fraction" DEFAULT_STRATEGY (gdf_crs one_square)) = Ok whole /\
    outcome (np_coverage rect_engine unit_x (rev unit_y) one_square
               DEFAULT_STRATEGY "fraction") = Ok c /\
    todense c =
      [[[0; 0; 0; 0]; [0; 1; 0; 0]; [0; 0; 0; 0]; [0; 0; 0; 0]]]%Q /\
    blocks_todense ([1], [4], [4]) whole = todense c /\
    blocks_todense ([1], [2; 2], [2; 2]) blocks =
      [[[0; 0; 0; 0]; [0; 0; 0; 0]; [0; 0; 0; 0]; [0; 1; 0; 0]]]%Q /\
    blocks_todense ([1], [2; 2], [2; 2]) blocks <> todense c /\
    blocks_todense ([1], [2; 2], [2; 2]) blocks <>
      blocks_todense ([1], [4], [4]) whole.
Proof.
  eexists. eexists. eexists.
  split; [vm_compute; reflexivity|].
  split; [vm_compute; reflexivity|].
  split; [vm_compute; reflexivity|].
  split; [vm_compute; reflexivity|].
  split; [vm_compute; reflexivity|].
  split; [vm_compute; reflexivity|].
  split; vm_compute; discriminate.
Qed.

(** * Further properties of the code *)

(** ** The adapter on short axes *)

Lemma py_index_beyond {A} (a : list A) (i : nat) :
  length a <= i ->
  py_index a (Z.of_nat i) = Err (IndexError "index out of bounds").
Proof.
  intros Hi. unfold py_index.
  destruct (Z.of_nat i <? 0)%Z eqn:Hneg; [apply Z.ltb_lt in Hneg; lia|].
  replace (Z.of_nat i <? Z.of_nat (length a))%Z with false
    by (symmetry; apply Z.ltb_ge; lia).
  now rewrite andb_false_r.
Qed.

(** An axis of fewer than two centers: the adapter raises IndexError. *)
Lemma short_axis_raises (x y : list Q) (srs : option string) :
  length x < 2 \/ length y < 2 ->
  xy_to_raster_source x y srs = Err (IndexError "index out of bounds").
Proof.
  intros Hshort. unfold xy_to_raster_source.
  destruct (le_lt_dec 2 (length x)) as [Hx|Hx].
  - assert (Hy : length y < 2) by lia.
    pose proof (py_index_front x 1 0%Q ltac:(lia)) as X1.
    pose proof (py_index_front x 0 0%Q ltac:(lia)) as X0.
    pose proof (py_index_back x 1 0%Q ltac:(lia)) as Xl.
    pose proof (py_index_back x 2 0%Q ltac:(lia)) as Xp.
    pose proof (py_index_beyond y 1 ltac:(lia)) as Y1.
    change (Z.of_nat 1) with 1%Z in *. change (Z.of_nat 0) with 0%Z in *.
    change (Z.opp 1%Z) with (Z.neg 1) in *.
    change (Z.opp (Z.of_nat 2)) with (Z.neg 2) in *.
    rewrite X1, X0, Xl, Xp, Y1. reflexivity.
  - pose proof (py_index_beyond x 1 ltac:(lia)) as X1.
    change (Z.of_nat 1) with 1%Z in *.
    rewrite X1. reflexivity.
Qed.

(** X1. The adapter returns a descriptor exactly when both axes have at
    least two centers, and then with the shape (len(y), len(x)) and the CRS
    it was given; on a shorter axis the first index that is out of range
    raises IndexError. *)
Theorem xy_to_raster_source_defined (x y : list Q) (srs : option string) :
  match xy_to_raster_source x y srs with
  | inr r =>
      2 <= length x /\ 2 <= length y /\
      rs_shape r = (length y, length x) /\ rs_srs_wkt r = srs /\
      rs_fill r = 1%Z
  | inl e =>
      (length x < 2 \/ length y < 2) /\
      e = IndexError "index out of bounds"
  end.
Proof.
  destruct (le_lt_dec 2 (length x)) as [Hx|Hx].
  - destruct (le_lt_dec 2 (length y)) as [Hy|Hy].
    + destruct (xy_to_raster_source_unfold x y srs Hx Hy)
        as (mx & Mx & my & My & _ & _ & _ & _ & ->).
      cbn. repeat split; assumption.
    + rewrite (short_axis_raises x y srs) by (right; exact Hy).
      split; [right; exact Hy|reflexivity].
  - rewrite (short_axis_raises x y srs) by (left; exact Hx).
    split; [left; exact Hx|reflexivity].
Qed.

(** ** Boxes of monotonic axes *)

Lemma increasing_between (a : list Q) (v : Q) :
  1 <= length a -> increasing a -> In v a ->
  (first_center a <= v)%Q /\ (v <= last_center a)%Q.
Proof.
  intros Hlen Hinc Hin.
  destruct (In_nth a v 0%Q Hin) as (i & Hi & <-).
  unfold first_center, last_center. split.
  - destruct i as [|i]; [apply Qle_refl|]. apply Qlt_le_weak, Hinc; lia.
  - destruct (Nat.eq_dec i (length a - 1)) as [->|Hne]; [apply Qle_refl|].
    apply Qlt_le_weak, Hinc; lia.
Qed.

Lemma decreasing_between (a : list Q) (v : Q) :
  1 <= length a -> decreasing a -> In v a ->
  (last_center a <= v)%Q /\ (v <= first_center a)%Q.
Proof.
  intros Hlen Hdec Hin.
  destruct (In_nth a v 0%Q Hin) as (i & Hi & <-).
  unfold first_center, last_center. split.
  - destruct (Nat.eq_dec i (length a - 1)) as [->|Hne]; [apply Qle_refl|].
    apply Qlt_le_weak, Hdec; lia.
  - destruct i as [|i]; [apply Qle_refl|]. apply Qlt_le_weak, Hdec; lia.
Qed.

(** X2. On a strictly monotonic y axis, ascending or descending, the
    descriptor's (ymin, ymax) is the same for the axis and for its
    reversal, and no center lies outside it. *)
Theorem y_axis_direction_invariant (x y : list Q) (srs : option string) :
  2 <= length x -> 2 <= length y ->
  ascending y || descending y = true ->
  exists r r',
    xy_to_raster_source x y srs = Ok r /\
    xy_to_raster_source x (rev y) srs = Ok r' /\
    (rs_ymin r' == rs_ymin r)%Q /\ (rs_ymax r' == rs_ymax r)%Q /\
    forall v, In v y -> (rs_ymin r <= v)%Q /\ (v <= rs_ymax r)%Q.
Proof.
  intros Hx Hy Hdir.
  assert (Hy' : 2 <= length (rev y)) by (rewrite length_rev; exact Hy).
  destruct (xy_to_raster_source_unfold x y srs Hx Hy)
    as (mx & Mx & my & My & _ & _ & _ & _ & E).
  destruct (xy_to_raster_source_unfold x (rev y) srs Hx Hy')
    as (mx' & Mx' & my' & My' & _ & _ & _ & _ & E').
  eexists. eexists. split; [exact E|]. split; [exact E'|].
  apply orb_true_iff in Hdir.
  destruct (y_bounds_reversal x y srs _ _ Hx Hy Hdir E E') as [H1 H2].
  split; [exact H1|]. split; [exact H2|].
  intros v Hv. destruct Hdir as [Ha|Hd].
  - apply ascending_increasing in Ha.
    destruct (y_bounds_ascending x y srs _ Hx Hy Ha E) as [-> ->].
    destruct (increasing_ends y Hy Ha) as (Hc1 & Hc2 & Hc3).
    destruct (increasing_between y v ltac:(lia) Ha Hv) as [Hlo Hhi].
    split; qlra.
  - apply descending_decreasing in Hd.
    destruct (y_bounds_descending x y srs _ Hx Hy Hd E) as [-> ->].
    destruct (decreasing_ends y Hy Hd) as (Hc1 & Hc2 & Hc3).
    destruct (decreasing_between y v ltac:(lia) Hd Hv) as [Hlo Hhi].
    split; qlra.
Qed.

Lemma y_axis_direction_invariant_witness :
  exists r r',
    xy_to_raster_source unit_x unit_y None = Ok r /\
    xy_to_raster_source unit_x (rev unit_y) None = Ok r' /\
    (rs_ymin r' == rs_ymin r)%Q /\ (rs_ymax r' == rs_ymax r)%Q /\
    forall v, In v unit_y -> (rs_ymin r <= v)%Q /\ (v <= rs_ymax r)%Q.
Proof.
  apply (y_axis_direction_invariant unit_x unit_y None).
  - simpl. lia.
  - simpl. lia.
  - reflexivity.
Defined.

(** X3. On a strictly ascending x axis the box starts at the first
    center less half the first step and ends at the last center plus half
    the last step, and no center lies outside it. *)
Theorem x_axis_ascending_bounds (x y : list Q) (srs : option string) :
  2 <= length x -> 2 <= length y -> ascending x = true ->
  exists r,
    xy_to_raster_source x y srs = Ok r /\
    (rs_xmin r == first_center x - (second_center x - first_center x) / 2)%Q /\
    (rs_xmax r == last_center x + (last_center x - penultimate_center x) / 2)%Q /\
    forall v, In v x -> (rs_xmin r <= v)%Q /\ (v <= rs_xmax r)%Q.
Proof.
  intros Hx Hy Ha.
  destruct (xy_to_raster_source_unfold x y srs Hx Hy)
    as (mx & Mx & my & My & _ & _ & _ & _ & E).
  eexists. split; [exact E|].
  apply ascending_increasing in Ha.
  destruct (x_bounds_ascending x y srs _ Hx Hy Ha E) as [H1 H2].
  split; [exact H1|]. split; [exact H2|].
  intros v Hv. rewrite H1, H2.
  destruct (increasing_ends x Hx Ha) as (Hc1 & Hc2 & Hc3).
  destruct (increasing_between x v ltac:(lia) Ha Hv) as [Hlo Hhi].
  split; qlra.
Qed.

Lemma x_axis_ascending_bounds_witness :
  exists r,
    xy_to_raster_source unit_x unit_y None = Ok r /\
    (rs_xmin r == first_center unit_x
                  - (second_center unit_x - first_center unit_x) / 2)%Q /\
    (rs_xmax r == last_center unit_x
                  + (last_center unit_x - penultimate_center unit_x) / 2)%Q /\
    forall v, In v unit_x -> (rs_xmin r <= v)%Q /\ (v <= rs_xmax r)%Q.
Proof.
  apply (x_axis_ascending_bounds unit_x unit_y None).
  - simpl. lia.
  - simpl. lia.
  - reflexivity.
Defined.

(** ** The block computer on short axes *)

Section BlockEdges.
Context {Geometry : Type}.
Variable exact_extract :
  NumPyRasterSource -> GeoDataFrame Geometry -> string -> list EngineRow.

(** An exception of the adapter leaves [np_coverage] as it is, before the
    engine is called. *)
Lemma np_coverage_adapter_error x y (geometries : GeoDataFrame Geometry)
    strategy w e :
  length (gdf_columns geometries) <= 1 ->
  xy_to_raster_source x y (Some (to_wkt (gdf_crs geometries))) = Err e ->
  np_coverage exact_extract x y geometries strategy w = ([], Err e).
Proof.
  intros Hcols He. unfold np_coverage.
  replace (1 <? length (gdf_columns geometries)) with false
    by (symmetry; apply Nat.ltb_ge; exact Hcols).
  rewrite He. reflexivity.
Qed.

(** X5. With a one-column table, [np_coverage] on an axis of fewer than
    two centers raises IndexError from the adapter, before the engine is
    called. *)
Theorem np_coverage_short_axis x y (geometries : GeoDataFrame Geometry) strategy w :
  length (gdf_columns geometries) <= 1 ->
  length x < 2 \/ length y < 2 ->
  np_coverage exact_extract x y geometries strategy w =
    ([], Err (IndexError "index out of bounds")).
Proof.
  intros Hcols Hshort.
  apply np_coverage_adapter_error; [exact Hcols|].
  apply short_axis_raises. exact Hshort.
Qed.

(** ** Validity of the block result *)

Lemma in_row_entries dt nx k row g r c v :
  In (g, r, c, v) (row_entries dt nx k row) ->
  g = Z.of_nat k /\
  exists id, In id (cell_id row) /\
             r = (id / Z.of_nat nx)%Z /\ c = (id mod Z.of_nat nx)%Z.
Proof.
  unfold row_entries. generalize (coverage_values row) as vals.
  induction (cell_id row) as [|i ids IH]; intros vals H; [destruct H|].
  destruct vals as [|u vals]; [destruct H|].
  cbn [length repeat map zip_entries] in H. destruct H as [H|H].
  - injection H as <- <- <- <-. split; [reflexivity|].
    exists i. split; [now left|]. split; reflexivity.
  - destruct (IH vals H) as (Hg & id & Hid & Hr & Hc).
    split; [exact Hg|]. exists id. split; [now right|]. split; assumption.
Qed.

Lemma in_rows_entries dt nx k rows e :
  In e (rows_entries dt nx k rows) ->
  exists j row, nth_error rows j = Some row /\
                In e (row_entries dt nx (k + j) row).
Proof.
  revert k. induction rows as [|row t IH]; intros k H; [destruct H|].
  cbn [rows_entries] in H. apply in_app_or in H as [H|H].
  - exists 0, row. split; [reflexivity|]. now rewrite Nat.add_0_r.
  - destruct (IH (S k) H) as (j & row' & Hj & He).
    exists (S j), row'. split; [exact Hj|].
    now replace (k + S j) with (S k + j) by lia.
Qed.

(** X6. For a table of at least one geometry and a well-formed answer
    that names no cell twice for a geometry, the array [np_coverage]
    returns is a valid sparse array: its three coordinate arrays and its
    data have the same length, its shape is (len(geometries), len(y),
    len(x)), and every stored coordinate lies inside that shape. *)
Theorem np_coverage_valid_coo x y (geometries : GeoDataFrame Geometry) strategy w :
  length (gdf_columns geometries) <= 1 ->
  well_answered exact_extract x y geometries w = true ->
  exists c,
    outcome (np_coverage exact_extract x y geometries strategy w) = Ok c /\
    coo_shape c = (gdf_len geometries, length y, length x) /\
    length (fst (fst (coo_coords c))) = nnz c /\
    length (snd (fst (coo_coords c))) = nnz c /\
    length (snd (coo_coords c)) = nnz c /\
    forall g r xi v,
      In (g, r, xi, v) (entries c) ->
      (0 <= g < Z.of_nat (gdf_len geometries))%Z /\
      (0 <= r < Z.of_nat (length y))%Z /\
      (0 <= xi < Z.of_nat (length x))%Z.
Proof.
  intros Hcols Hans.
  destruct (np_coverage_well_answered exact_extract x y geometries strategy w
              Hcols Hans) as (raster & Er & Hrows & Hn & Hrun).
  eexists. split; [rewrite Hrun; reflexivity|].
  set (rows := exact_extract raster geometries w) in *.
  split; [reflexivity|].
  assert (Hlen : forall l : list Z,
            length l = list_sum (cell_counts rows) ->
            length l = nnz (columns_coo (get_dtype w geometries) rows
                              (gdf_len geometries) (length y) (length x))).
  { intros l ->. unfold nnz, columns_coo. cbn [coo_data].
    now rewrite (length_value_column _ _ _ Hrows). }
  cbn [columns_coo coo_coords fst snd].
  split; [apply Hlen, length_geom_column|].
  split; [apply Hlen; rewrite length_map; apply length_id_column|].
  split; [apply Hlen; rewrite length_map; apply length_id_column|].
  intros g r xi v H.
  change (In (g, r, xi, v)
            (entries (columns_coo (get_dtype w geometries) rows
                        (gdf_len geometries) (length y) (length x)))) in H.
  rewrite (entries_columns_coo _ _ _ _ _ _ Hrows) in H.
  apply in_rows_entries in H as (j & row & Hj & He).
  apply in_row_entries in He as (-> & id & Hid & -> & ->).
  assert (Hlt : j < length rows) by (apply nth_error_Some; congruence).
  assert (Hrow : row_ok (length y * length x) row = true)
    by (eapply forallb_forall in Hrows; [exact Hrows|];
        eapply nth_error_In; exact Hj).
  unfold row_ok in Hrow. apply andb_true_iff in Hrow as [_ Hids].
  eapply forallb_forall in Hids; [|exact Hid].
  apply andb_true_iff in Hids as [Hlo Hhi].
  apply Z.leb_le in Hlo. apply Z.ltb_lt in Hhi.
  destruct (unravel_in_range id (length y) (length x) ltac:(lia))
    as (Hr & Hc & _).
  cbn [Nat.add] in *. unfold gdf_len in *. lia.
Qed.

End BlockEdges.

Lemma np_coverage_short_axis_witness :
  np_coverage rect_engine single_x unit_y one_square DEFAULT_STRATEGY "fraction" =
    ([], Err (IndexError "index out of bounds")).
Proof.
  apply (np_coverage_short_axis rect_engine single_x unit_y one_square
           DEFAULT_STRATEGY "fraction").
  - simpl. lia.
  - left. simpl. lia.
Defined.

Lemma np_coverage_valid_coo_witness :
  exists c,
    outcome (np_coverage rect_engine unit_x unit_y two_rects
               DEFAULT_STRATEGY "fraction") = Ok c /\
    coo_shape c = (gdf_len two_rects, length unit_y, length unit_x) /\
    length (fst (fst (coo_coords c))) = nnz c /\
    length (snd (fst (coo_coords c))) = nnz c /\
    length (snd (coo_coords c)) = nnz c /\
    forall g r xi v,
      In (g, r, xi, v) (entries c) ->
      (0 <= g < Z.of_nat (gdf_len two_rects))%Z /\
      (0 <= r < Z.of_nat (length unit_y))%Z /\
      (0 <= xi < Z.of_nat (length unit_x))%Z.
Proof.
  apply (np_coverage_valid_coo rect_engine unit_x unit_y two_rects
           DEFAULT_STRATEGY "fraction").
  - simpl. lia.
  - vm_compute. reflexivity.
Defined.

(** ** Order of the block result *)

Lemma strictly_increasing_shift (c : Z) (l : list Z) :
  strictly_increasing (map (fun id => (c + id)%Z) l) = strictly_increasing l.
Proof.
  induction l as [|a t IH]; [reflexivity|].
  destruct t as [|b t]; [reflexivity|].
  cbn [map strictly_increasing] in *. rewrite IH. f_equal.
  destruct (a <? b)%Z eqn:E.
  - apply Z.ltb_lt in E. apply Z.ltb_lt. lia.
  - apply Z.ltb_ge in E. apply Z.ltb_ge. lia.
Qed.

Lemma strictly_increasing_cons (a b : Z) (t : list Z) :
  strictly_increasing (a :: b :: t) =
    ((a <? b)%Z && strictly_increasing (b :: t))%bool.
Proof. reflexivity. Qed.

Lemma strictly_increasing_app (l1 l2 : list Z) :
  strictly_increasing l1 = true -> strictly_increasing l2 = true ->
  (forall a b, In a l1 -> In b l2 -> (a < b)%Z) ->
  strictly_increasing (l1 ++ l2) = true.
Proof.
  induction l1 as [|a t IH]; intros H1 H2 Hlt; [exact H2|].
  destruct t as [|b t].
  - change ([a] ++ l2) with (a :: l2).
    destruct l2 as [|c l2]; [reflexivity|].
    rewrite strictly_increasing_cons, H2, andb_true_r.
    apply Z.ltb_lt. apply Hlt; now left.
  - rewrite strictly_increasing_cons in H1.
    apply andb_true_iff in H1 as [Hab Ht].
    change ((a :: b :: t) ++ l2) with (a :: b :: (t ++ l2)).
    rewrite strictly_increasing_cons, Hab. cbn [andb].
    change (b :: (t ++ l2)) with ((b :: t) ++ l2).
    apply IH; [exact Ht|exact H2|].
    intros u v Hu Hv. apply Hlt; [now right|exact Hv].
Qed.

Lemma linear_column_sorted ncells k rows :
  forallb (row_ok ncells) rows = true ->
  ids_ascending rows = true ->
  strictly_increasing (linear_column ncells k rows) = true.
Proof.
  revert k. induction rows as [|row t IH]; intros k H Hasc; [reflexivity|].
  cbn [forallb] in H. apply andb_true_iff in H as [Hr Ht].
  unfold ids_ascending in Hasc. cbn [forallb] in Hasc.
  apply andb_true_iff in Hasc as [Hrow Hasc].
  cbn [linear_column]. apply strictly_increasing_app.
  - rewrite strictly_increasing_shift. exact Hrow.
  - apply IH; assumption.
  - intros a b Ha Hb.
    apply in_map_iff in Ha as (id & <- & Hid).
    pose proof (linear_column_lower ncells (S k) t b Ht Hb) as Hlow.
    unfold row_ok in Hr. apply andb_true_iff in Hr as [_ Hids].
    eapply forallb_forall in Hids; [|exact Hid].
    apply andb_true_iff in Hids as [_ Hhi]. apply Z.ltb_lt in Hhi. nia.
Qed.

Lemma strictly_increasing_NoDup (l : list Z) :
  strictly_increasing l = true -> List.NoDup l.
Proof.
  intros H.
  assert (Hall : forall a t, strictly_increasing (a :: t) = true ->
                 forall b, In b t -> (a < b)%Z).
  { intros a t. revert a. induction t as [|c t IHt]; intros a Ha b Hb;
      [destruct Hb|].
    cbn [strictly_increasing] in Ha. apply andb_true_iff in Ha as [Hac Ht].
    apply Z.ltb_lt in Hac. destruct Hb as [<-|Hb]; [exact Hac|].
    specialize (IHt c Ht b Hb). lia. }
  induction l as [|a t IH]; [constructor|].
  constructor.
  - intros Hin. specialize (Hall a t H a Hin). lia.
  - apply IH. destruct t as [|b t]; [reflexivity|].
    cbn [strictly_increasing] in H. now apply andb_true_iff in H as [_ H].
Qed.

Section BlockOrder.
Context {Geometry : Type}.
Variable exact_extract :
  NumPyRasterSource -> GeoDataFrame Geometry -> string -> list EngineRow.

(** X7. For a table of at least one geometry, when the engine lists the
    cell ids of every geometry in increasing order, the entries of the
    array [np_coverage] returns are in strictly increasing row-major
    order, geometry first: the array is sorted, as the COO constructor is
    told, and no coordinate is stored twice. *)
Theorem np_coverage_sorted x y (geometries : GeoDataFrame Geometry) strategy w :
  length (gdf_columns geometries) <= 1 ->
  well_answered exact_extract x y geometries w = true ->
  answers_ascending exact_extract x y geometries w = true ->
  exists c,
    outcome (np_coverage exact_extract x y geometries strategy w) = Ok c /\
    strictly_increasing (entry_positions c) = true /\
    List.NoDup (map fst (entries c)).
Proof.
  intros Hcols Hans Hasc.
  destruct (np_coverage_well_answered exact_extract x y geometries strategy w
              Hcols Hans) as (raster & Er & Hrows & Hn & Hrun).
  eexists. split; [rewrite Hrun; reflexivity|].
  unfold answers_ascending, engine_answer in Hasc. rewrite Er in Hasc.
  cbn [rbind] in Hasc.
  set (rows := exact_extract raster geometries w) in *.
  assert (Hpos : strictly_increasing
            (entry_positions (columns_coo (get_dtype w geometries) rows
               (gdf_len geometries) (length y) (length x))) = true).
  { unfold entry_positions.
    rewrite (entries_columns_coo _ _ _ _ _ _ Hrows).
    cbn [coo_shape columns_coo].
    rewrite (linear_rows_entries _ _ _ _ _ _ Hrows).
    apply linear_column_sorted; assumption. }
  split; [exact Hpos|].
  apply strictly_increasing_NoDup in Hpos. unfold entry_positions in Hpos.
  rewrite <- (map_map fst (linear_index _)) in Hpos.
  eapply List.NoDup_map_inv. exact Hpos.
Qed.

End BlockOrder.

Lemma np_coverage_sorted_witness :
  exists c,
    outcome (np_coverage rect_engine unit_x unit_y two_rects
               DEFAULT_STRATEGY "fraction") = Ok c /\
    strictly_increasing (entry_positions c) = true /\
    List.NoDup (map fst (entries c)).
Proof.
  apply (np_coverage_sorted rect_engine unit_x unit_y two_rects
           DEFAULT_STRATEGY "fraction").
  - simpl. lia.
  - vm_compute. reflexivity.
  - vm_compute. reflexivity.
Defined.

(** ** Merging the index coordinates *)

Lemma Qlist_eqb_eq (a b : list Q) : Qlist_eqb a b = true -> a = b.
Proof.
  revert b. induction a as [|u a IH]; intros [|v b] H; try discriminate;
    [reflexivity|].
  cbn [Qlist_eqb] in H. apply andb_true_iff in H as [Huv Hab].
  apply Q_eqb_eq in Huv. apply IH in Hab. congruence.
Qed.

(** A successful merge of one index coordinate leaves it in the
    coordinates and changes no other name. *)
Lemma merge_coord_ok {G} (m m1 : gmap string (CoordValue G)) dim v :
  merge_coord m dim v = Ok m1 ->
  m1 !! dim = Some (IndexCoord v) /\
  (forall k, k <> dim -> m1 !! k = m !! k) /\
  (forall k c, m !! k = Some c -> m1 !! k = Some c).
Proof.
  unfold merge_coord.
  destruct (m !! dim) as [[p|g|g|v']|] eqn:E; try discriminate.
  - destruct (Qlist_eqb v' v) eqn:Ev; [|discriminate].
    apply Qlist_eqb_eq in Ev. subst v'. intros [= <-]. auto.
  - intros [= <-]. split; [apply lookup_insert_eq|]. split.
    + intros k Hk. apply lookup_insert_ne. congruence.
    + intros k c Hc. rewrite lookup_insert_ne; [exact Hc|]. congruence.
Qed.

(** Merging never changes a coordinate that is already there. *)
Lemma merge_coords_keeps {G} (m m' : gmap string (CoordValue G)) cs :
  merge_coords m cs = Ok m' ->
  forall k c, m !! k = Some c -> m' !! k = Some c.
Proof.
  revert m. induction cs as [|[dim u] t IH]; intros m H k c Hc.
  - cbn [merge_coords] in H. injection H as <-. exact Hc.
  - cbn [merge_coords] in H.
    destruct (merge_coord m dim u) as [e|m1] eqn:E1; cbn [rbind] in H;
      [discriminate|].
    destruct (merge_coord_ok _ _ _ _ E1) as (_ & _ & Hkeep).
    eapply IH; [exact H|]. apply Hkeep. exact Hc.
Qed.

Lemma merge_coords_lookup {G} (m m' : gmap string (CoordValue G)) cs :
  merge_coords m cs = Ok m' ->
  (forall d v, In (d, v) cs -> m' !! d = Some (IndexCoord v)) /\
  (forall k, (forall v, ~ In (k, v) cs) -> m' !! k = m !! k).
Proof.
  revert m. induction cs as [|[dim u] t IH]; intros m H.
  - cbn [merge_coords] in H. injection H as <-.
    split; [intros d v []|reflexivity].
  - cbn [merge_coords] in H.
    destruct (merge_coord m dim u) as [e|m1] eqn:E1; cbn [rbind] in H;
      [discriminate|].
    destruct (merge_coord_ok _ _ _ _ E1) as (Hdim & Hother & _).
    destruct (IH _ H) as [Hin Hout].
    split.
    + intros d v [[= <- <-]|Hd]; [|now apply Hin].
      eapply merge_coords_keeps; [exact H|exact Hdim].
    + intros k Hk. rewrite Hout.
      * apply Hother. intros ->. apply (Hk u). now left.
      * intros v Hv. apply (Hk v). now right.
Qed.

(** Two different dimension names that are not yet coordinates always
    merge. *)
Lemma merge_index_coords_ok {G} obj xdim ydim (m : gmap string (CoordValue G)) :
  m !! xdim = None -> m !! ydim = None -> xdim <> ydim ->
  exists m', merge_coords m (index_coords obj xdim ydim) = Ok m'.
Proof.
  intros Hx Hy Hne. unfold index_coords. cbn [flat_map].
  destruct (obj_xindexes obj !! xdim) as [ix|];
    destruct (obj_xindexes obj !! ydim) as [iy|];
    cbn [app merge_coords]; unfold merge_coord;
    rewrite ?Hx, ?Hy; cbn [rbind];
    rewrite ?lookup_insert_ne by exact Hne; rewrite ?Hx, ?Hy; cbn [rbind];
    eexists; reflexivity.
Qed.

Lemma in_index_coords obj xdim ydim d v :
  In (d, v) (index_coords obj xdim ydim) <->
  (d = xdim \/ d = ydim) /\ obj_xindexes obj !! d = Some v.
Proof.
  unfold index_coords. cbn [flat_map]. rewrite app_nil_r, in_app_iff.
  destruct (obj_xindexes obj !! xdim) as [ix|] eqn:Ex;
    destruct (obj_xindexes obj !! ydim) as [iy|] eqn:Ey; cbn [In];
    split; intros H.
  all: repeat match goal with
       | H : _ \/ _ |- _ => destruct H
       | H : _ /\ _ |- _ => destruct H
       | H : False |- _ => destruct H
       | H : (_, _) = (_, _) |- _ => injection H as <- <-
       end; subst; auto; try congruence.
  all: try (rewrite Ex in *; match goal with H : Some _ = Some _ |- _ =>
              injection H as <- end; auto).
  all: try (rewrite Ey in *; match goal with H : Some _ = Some _ |- _ =>
              injection H as <- end; auto).
Qed.

(** ** The entry point *)

Section EntryPoint.
Context {Geometry : Type}.
Variable exact_extract :
  NumPyRasterSource -> GeoDataFrame Geometry -> string -> list EngineRow.
Variable is_in_memory : XrObject -> GeomTable Geometry -> bool.
Variable geometries_as_dask_array :
  GeomTable Geometry -> result (DaskArray Geometry).

(** X8. The [strategy] argument has no effect: [np_coverage] does not
    pass it to the engine and the block wrapper drops it, so two runs that
    differ only in the strategy are equal, engine calls and result, eager
    or lazy. *)
Theorem strategy_has_no_effect obj geometries xdim ydim w (s1 s2 : string)
    x y (table : GeoDataFrame Geometry) (dx dy : DaskArray Q)
    (dg : DaskArray Geometry) crs :
  np_coverage exact_extract x y table s1 w =
    np_coverage exact_extract x y table s2 w /\
  dask_coverage exact_extract dx dy dg w s1 crs =
    dask_coverage exact_extract dx dy dg w s2 crs /\
  coverage exact_extract is_in_memory geometries_as_dask_array
           obj geometries xdim ydim s1 w =
  coverage exact_extract is_in_memory geometries_as_dask_array
           obj geometries xdim ydim s2 w.
Proof. repeat split. Qed.

(** X9. An object without a "spatial_ref" coordinate is refused first:
    whatever the geometries, the dimension names and the helpers, the
    usage error is raised and the engine is not called. *)
Theorem coverage_requires_spatial_ref obj geometries xdim ydim strategy w :
  obj_spatial_ref obj = None ->
  coverage exact_extract is_in_memory geometries_as_dask_array
           obj geometries xdim ydim strategy w =
    ([], Err (ValueError "Xarray object must contain the `spatial_ref` variable.")).
Proof. intros H. unfold coverage. now rewrite H. Qed.

(** X10. For each of the five weighting modes a returned output is named
    "area" for the three area modes and "coverage" otherwise, carries
    units m2 or km2 with the mode's name less its unit suffix as long_name
    for the area modes, and no attribute for "fraction" and "none"; its
    dimensions are ("geometry", ydim, xdim). *)
Theorem output_labels (w : CoverageWeights) obj geometries xdim ydim strategy :
  match outcome (coverage exact_extract is_in_memory geometries_as_dask_array
                   obj geometries xdim ydim strategy (weight_name w)) with
  | inr out =>
      out_name out = expected_name w /\
      out_attrs out = expected_attrs w /\
      out_dims out = ["geometry"%string; ydim; xdim]
  | inl _ => True
  end.
Proof.
  rewrite coverage_split.
  destruct (obj_spatial_ref obj) as [s|]; [|exact I].
  rewrite outcome_bind.
  destruct (outcome (coverage_data _ _ _ _ _ _ _ _ _)) as [e|[out ga]];
    [exact I|].
  rewrite outcome_lift. unfold label_output.
  destruct (merge_coords _ _) as [e|coords]; cbn [rbind]; [exact I|].
  cbn [out_name out_attrs out_dims].
  destruct w; repeat split; vm_compute; reflexivity.
Qed.

(** The geometry coordinate the selected path hands on: the table's
    own geometry column when the table is a GeoDataFrame, which must then
    have exactly one column, and the chunked geometries of the helper
    otherwise. *)
Lemma coverage_data_geometry obj geometries xdim ydim strategy w data ga :
  outcome (coverage_data exact_extract is_in_memory geometries_as_dask_array
             obj geometries xdim ydim strategy w) = Ok (data, ga) ->
  if is_in_memory obj geometries || is_GeoDataFrame geometries
  then length (gdf_columns (table_frame geometries)) = 1 /\
       ga = GeometryCoord (gdf_geometry (table_frame geometries))
  else exists g, geometries_as_dask_array geometries = Ok g /\
                 ga = GeometryDaskCoord g.
Proof.
  assert (Hsq : forall a,
    to_numpy_squeeze (table_frame geometries) = Ok a ->
    length (gdf_columns (table_frame geometries)) = 1 /\
    a = gdf_geometry (table_frame geometries)).
  { unfold to_numpy_squeeze. intros a.
    destruct (length (gdf_columns (table_frame geometries)) =? 1) eqn:E;
      [|discriminate].
    apply Nat.eqb_eq in E. intros [= <-]. auto. }
  unfold coverage_data. destruct (is_in_memory obj geometries).
  - rewrite !outcome_bind, outcome_lift.
    destruct (obj_getitem obj xdim); [discriminate|].
    rewrite !outcome_bind, outcome_lift.
    destruct (obj_getitem obj ydim); [discriminate|].
    rewrite !outcome_bind.
    destruct (outcome (np_coverage _ _ _ _ _ _)); [discriminate|].
    rewrite !outcome_bind, outcome_lift.
    destruct (to_numpy_squeeze _) as [e|arr] eqn:Ea; [discriminate|].
    rewrite outcome_ret. intros [= _ <-]. cbn [orb].
    destruct (Hsq arr eq_refl) as [H1 ->]. auto.
  - rewrite !outcome_bind, outcome_lift.
    destruct (geometries_as_dask_array geometries) as [e|g]; [discriminate|].
    rewrite !outcome_bind, outcome_lift.
    destruct (coordinate_as_dask obj xdim) as [e|dx]; [discriminate|].
    rewrite !outcome_bind, outcome_lift.
    destruct (coordinate_as_dask obj ydim) as [e|dy]; [discriminate|].
    rewrite !outcome_bind.
    destruct (outcome (dask_coverage _ _ _ _ _ _ _)); [discriminate|].
    rewrite !outcome_bind. cbn [orb].
    destruct (is_GeoDataFrame geometries).
    + rewrite !outcome_bind, outcome_lift.
      destruct (to_numpy_squeeze _) as [e|arr] eqn:Ea; [discriminate|].
      rewrite !outcome_ret. intros [= _ <-].
      destruct (Hsq arr eq_refl) as [H1 ->]. auto.
    + rewrite !outcome_ret. intros [= _ <-]. exists g. auto.
Qed.

(** X11. The coordinates of a returned output, for dimension names
    other than "spatial_ref" and "geometry": "spatial_ref" holds the
    object's payload; "geometry" holds the geometry column of the table
    when the table is a GeoDataFrame, of exactly one column, and the
    chunked geometries of the helper when it is partitioned; each of xdim
    and ydim that has an index on the object holds that index; and there
    is no other coordinate. *)
Theorem output_coordinates obj geometries xdim ydim strategy w out :
  xdim <> "spatial_ref"%string -> xdim <> "geometry"%string ->
  ydim <> "spatial_ref"%string -> ydim <> "geometry"%string ->
  outcome (coverage exact_extract is_in_memory geometries_as_dask_array
             obj geometries xdim ydim strategy w) = Ok out ->
  exists s,
    obj_spatial_ref obj = Some s /\
    out_coords out !! "spatial_ref"%string = Some (SpatialRefCoord s) /\
    (if is_in_memory obj geometries || is_GeoDataFrame geometries
     then length (gdf_columns (table_frame geometries)) = 1 /\
          out_coords out !! "geometry"%string =
            Some (GeometryCoord (gdf_geometry (table_frame geometries)))
     else exists g,
          geometries_as_dask_array geometries = Ok g /\
          out_coords out !! "geometry"%string = Some (GeometryDaskCoord g)) /\
    (forall d idx, d = xdim \/ d = ydim ->
       obj_xindexes obj !! d = Some idx ->
       out_coords out !! d = Some (IndexCoord idx)) /\
    (forall k, k <> "spatial_ref"%string -> k <> "geometry"%string ->
       (forall idx, ~ ((k = xdim \/ k = ydim) /\
                       obj_xindexes obj !! k = Some idx)) ->
       out_coords out !! k = None).
Proof.
  intros Hxs Hxg Hys Hyg. rewrite coverage_split.
  destruct (obj_spatial_ref obj) as [s|]; [|discriminate].
  rewrite outcome_bind.
  destruct (outcome (coverage_data _ _ _ _ _ _ _ _ _)) as [e|[data ga]] eqn:Ed;
    [discriminate|].
  pose proof (coverage_data_geometry _ _ _ _ _ _ _ _ Ed) as Hga.
  rewrite outcome_lift. unfold label_output.
  destruct (merge_coords _ _) as [e|coords] eqn:Em; cbn [rbind];
    [discriminate|].
  intros [= <-]. cbn [out_coords].
  destruct (merge_coords_lookup _ _ _ Em) as [Hin Hout].
  exists s. split; [reflexivity|].
  assert (Hsr : forall v, ~ In ("spatial_ref"%string, v)
                            (index_coords obj xdim ydim)).
  { intros v Hv. apply in_index_coords in Hv as [[Hv|Hv] _]; congruence. }
  assert (Hge : forall v, ~ In ("geometry"%string, v)
                            (index_coords obj xdim ydim)).
  { intros v Hv. apply in_index_coords in Hv as [[Hv|Hv] _]; congruence. }
  assert (Hgeom : coords !! "geometry"%string = Some ga)
    by (rewrite (Hout _ Hge); apply lookup_insert_eq).
  split; [|split; [|split]].
  - rewrite (Hout _ Hsr), lookup_insert_ne by discriminate.
    apply lookup_insert_eq.
  - destruct (is_in_memory obj geometries || is_GeoDataFrame geometries).
    + destruct Hga as [H1 ->]. split; [exact H1|exact Hgeom].
    + destruct Hga as (g & Hg & ->). exists g. split; [exact Hg|exact Hgeom].
  - intros d idx Hd Hidx. apply Hin. apply in_index_coords. now split.
  - intros k Hk1 Hk2 Hk. rewrite Hout.
    + rewrite !lookup_insert_ne by congruence. apply lookup_empty.
    + intros v Hv. apply in_index_coords in Hv. exact (Hk v Hv).
Qed.

(** X12. On the in-memory path an object whose x or y coordinate has
    fewer than two values is refused with IndexError before the engine is
    called. *)
Theorem coverage_short_axis obj geometries xdim ydim strategy w s xd yd :
  obj_spatial_ref obj = Some s ->
  is_in_memory obj geometries = true ->
  obj_vars obj !! xdim = Some xd ->
  obj_vars obj !! ydim = Some yd ->
  length (gdf_columns (table_frame geometries)) <= 1 ->
  length (array_values xd) < 2 \/ length (array_values yd) < 2 ->
  coverage exact_extract is_in_memory geometries_as_dask_array
           obj geometries xdim ydim strategy w =
    ([], Err (IndexError "index out of bounds")).
Proof.
  intros Hs Hmem Hx Hy Hcols Hshort. rewrite coverage_split, Hs.
  unfold coverage_data, obj_getitem. rewrite Hmem, Hx, Hy, !bind_lift_ok.
  rewrite (np_coverage_adapter_error exact_extract _ _ _ _ _
             (IndexError "index out of bounds") Hcols
             (short_axis_raises _ _ _ Hshort)).
  reflexivity.
Qed.

(** X13. The in-memory path end to end, for two different dimension
    names other than "spatial_ref" and "geometry": for a table of one
    column and at least one geometry and an answer of the engine that is
    well formed and names no cell twice for a geometry, [coverage] calls
    the engine once, on the descriptor of the object's own axes, and
    returns the sparse array of the engine's columns as eager data with
    the table's geometries as the "geometry" coordinate. *)
Theorem coverage_in_memory obj geometries xdim ydim strategy w s xd yd :
  obj_spatial_ref obj = Some s ->
  is_in_memory obj geometries = true ->
  obj_vars obj !! xdim = Some xd ->
  obj_vars obj !! ydim = Some yd ->
  xdim <> ydim ->
  xdim <> "spatial_ref"%string -> xdim <> "geometry"%string ->
  ydim <> "spatial_ref"%string -> ydim <> "geometry"%string ->
  length (gdf_columns (table_frame geometries)) = 1 ->
  well_answered exact_extract (array_values xd) (array_values yd)
                (table_frame geometries) w = true ->
  exists raster rows out,
    xy_to_raster_source (array_values xd) (array_values yd)
      (Some (to_wkt (gdf_crs (table_frame geometries)))) = Ok raster /\
    rows = exact_extract raster (table_frame geometries) w /\
    coverage exact_extract is_in_memory geometries_as_dask_array
             obj geometries xdim ydim strategy w =
      ([mkCall raster (table_frame geometries) w], Ok out) /\
    out_data out =
      EagerData (columns_coo (get_dtype w geometries) rows
                   (gdf_len (table_frame geometries))
                   (length (array_values yd)) (length (array_values xd))) /\
    out_coords out !! "geometry"%string =
      Some (GeometryCoord (gdf_geometry (table_frame geometries))).
Proof.
  intros Hs Hmem Hx Hy Hne Hxs Hxg Hys Hyg Hcols Hans.
  destruct (np_coverage_well_answered exact_extract (array_values xd)
              (array_values yd) (table_frame geometries) strategy w
              ltac:(lia) Hans) as (raster & Er & Hrows & Hn & Hrun).
  exists raster, (exact_extract raster (table_frame geometries) w).
  destruct (merge_index_coords_ok obj xdim ydim
              (<["geometry"%string :=
                  GeometryCoord (gdf_geometry (table_frame geometries))]>
                 (<["spatial_ref"%string := SpatialRefCoord s]>
                    (∅ : gmap string (CoordValue Geometry)))))
    as (coords & Em); [| |exact Hne|].
  { rewrite !lookup_insert_ne by congruence. apply lookup_empty. }
  { rewrite !lookup_insert_ne by congruence. apply lookup_empty. }
  eexists. split; [exact Er|]. split; [reflexivity|].
  split; [|split].
  - rewrite coverage_split, Hs. unfold coverage_data, obj_getitem.
    rewrite Hmem, Hx, Hy, !bind_lift_ok. rewrite Hrun.
    unfold to_numpy_squeeze. rewrite Hcols. cbn [Nat.eqb].
    unfold label_output.
    cbn [bind lift ret fst snd app]. rewrite Em. cbn [rbind]. reflexivity.
  - reflexivity.
  - cbn [out_coords].
    destruct (merge_coords_lookup _ _ _ Em) as [_ Hout].
    rewrite Hout; [apply lookup_insert_eq|].
    intros v Hv. apply in_index_coords in Hv as [[Hv|Hv] _]; congruence.
Qed.

(** X14. On the chunked path an in-memory table whose number of columns
    is not one is refused by the squeeze of its array, after the lazy array
    is built and with numpy's message; the engine is not called. *)
Theorem chunked_path_table_squeeze obj table xdim ydim strategy w s g dx dy :
  obj_spatial_ref obj = Some s ->
  is_in_memory obj (InMemory table) = false ->
  geometries_as_dask_array (InMemory table) = Ok g ->
  coordinate_as_dask obj xdim = Ok dx ->
  coordinate_as_dask obj ydim = Ok dy ->
  ~ In 1 (da_chunks dx) -> ~ In 1 (da_chunks dy) ->
  length (gdf_columns table) <> 1 ->
  coverage exact_extract is_in_memory geometries_as_dask_array
           obj (InMemory table) xdim ydim strategy w =
    ([], Err (ValueError
       "cannot select an axis to squeeze out which has size not equal to one")).
Proof.
  intros Hs Hmem Hg Hx Hy Hcx Hcy Hcols.
  rewrite coverage_split, Hs. unfold coverage_data.
  rewrite Hmem, Hg, Hx, Hy, !bind_lift_ok.
  unfold dask_coverage.
  replace (existsb (fun c => c =? 1) (da_chunks dx)) with false
    by (symmetry; apply not_true_is_false; intros H;
        apply existsb_one in H; contradiction).
  replace (existsb (fun c => c =? 1) (da_chunks dy)) with false
    by (symmetry; apply not_true_is_false; intros H;
        apply existsb_one in H; contradiction).
  cbn [orb]. rewrite bind_ret. cbn [is_GeoDataFrame table_frame].
  unfold to_numpy_squeeze.
  replace (length (gdf_columns table) =? 1) with false
    by (symmetry; apply Nat.eqb_neq; exact Hcols).
  reflexivity.
Qed.

(** X15. On the chunked path a chunk of size 1 along x or y, declared by
    the object or carried by a dask coordinate, makes [coverage] raise the
    rechunk error, without an engine call. *)
Theorem coverage_unit_chunk obj geometries xdim ydim strategy w s g dx dy :
  obj_spatial_ref obj = Some s ->
  is_in_memory obj geometries = false ->
  geometries_as_dask_array geometries = Ok g ->
  coordinate_as_dask obj xdim = Ok dx ->
  coordinate_as_dask obj ydim = Ok dy ->
  In 1 (da_chunks dx) \/ In 1 (da_chunks dy) ->
  coverage exact_extract is_in_memory geometries_as_dask_array
           obj geometries xdim ydim strategy w =
    ([], Err (ValueError
       "exactextract does not support a chunksize of 1. Please rechunk to avoid this")).
Proof.
  intros Hs Hmem Hg Hx Hy Hone.
  rewrite coverage_split, Hs. unfold coverage_data.
  rewrite Hmem, Hg, Hx, Hy, !bind_lift_ok.
  unfold dask_coverage.
  replace (existsb (fun c => c =? 1) (da_chunks dx)
           || existsb (fun c => c =? 1) (da_chunks dy)) with true;
    [reflexivity|].
  symmetry. apply orb_true_iff.
  destruct Hone as [H|H]; [left|right]; now apply existsb_one.
Qed.

End EntryPoint.

Lemma coverage_requires_spatial_ref_witness :
  coverage rect_engine is_in_memory_spec geometries_as_dask_array_spec
           bare_obj (InMemory one_square) "x" "y" DEFAULT_STRATEGY "fraction" =
    ([], Err (ValueError "Xarray object must contain the `spatial_ref` variable.")).
Proof.
  apply (coverage_requires_spatial_ref rect_engine is_in_memory_spec
           geometries_as_dask_array_spec bare_obj (InMemory one_square)
           "x" "y" DEFAULT_STRATEGY "fraction").
  reflexivity.
Defined.

Lemma output_coordinates_witness :
  exists out,
    outcome (coverage rect_engine is_in_memory_spec geometries_as_dask_array_spec
               chunked_obj (Partitioned one_square [1]) "x" "y"
               DEFAULT_STRATEGY "fraction") = Ok out /\
    exists s,
      obj_spatial_ref chunked_obj = Some s /\
      out_coords out !! "spatial_ref"%string = Some (SpatialRefCoord s) /\
      (if is_in_memory_spec chunked_obj (Partitioned one_square [1])
          || is_GeoDataFrame (Partitioned one_square [1])
       then length (gdf_columns
                      (table_frame (Partitioned one_square [1]))) = 1 /\
            out_coords out !! "geometry"%string =
              Some (GeometryCoord
                      (gdf_geometry (table_frame (Partitioned one_square [1]))))
       else exists g,
            geometries_as_dask_array_spec (Partitioned one_square [1]) = Ok g /\
            out_coords out !! "geometry"%string = Some (GeometryDaskCoord g)) /\
      (forall d idx, d = "x"%string \/ d = "y"%string ->
         obj_xindexes chunked_obj !! d = Some idx ->
         out_coords out !! d = Some (IndexCoord idx)) /\
      (forall k, k <> "spatial_ref"%string -> k <> "geometry"%string ->
         (forall idx, ~ ((k = "x"%string \/ k = "y"%string) /\
                         obj_xindexes chunked_obj !! k = Some idx)) ->
         out_coords out !! k = None).
Proof.
  eexists. split; [vm_compute; reflexivity|].
  apply (output_coordinates rect_engine is_in_memory_spec
           geometries_as_dask_array_spec chunked_obj
           (Partitioned one_square [1]) "x" "y" DEFAULT_STRATEGY "fraction").
  - discriminate.
  - discriminate.
  - discriminate.
  - discriminate.
  - vm_compute. reflexivity.
Defined.

Lemma coverage_short_axis_witness :
  coverage rect_engine is_in_memory_spec geometries_as_dask_array_spec
           narrow_obj (InMemory one_square) "x" "y" DEFAULT_STRATEGY "fraction" =
    ([], Err (IndexError "index out of bounds")).
Proof.
  apply (coverage_short_axis rect_engine is_in_memory_spec
           geometries_as_dask_array_spec narrow_obj (InMemory one_square)
           "x" "y" DEFAULT_STRATEGY "fraction" "EPSG:32633"
           (NumpyData single_x) (NumpyData unit_y)).
  - reflexivity.
  - vm_compute. reflexivity.
  - vm_compute. reflexivity.
  - vm_compute. reflexivity.
  - simpl. lia.
  - left. simpl. lia.
Defined.

Lemma coverage_in_memory_witness :
  exists raster rows out,
    xy_to_raster_source unit_x unit_y (Some (to_wkt wgs84)) = Ok raster /\
    rows = rect_engine raster one_square "fraction" /\
    coverage rect_engine is_in_memory_spec geometries_as_dask_array_spec
             eager_obj (InMemory one_square) "x" "y"
             DEFAULT_STRATEGY "fraction" =
      ([mkCall raster one_square "fraction"], Ok out) /\
    out_data out =
      EagerData (columns_coo (get_dtype "fraction" (InMemory one_square))
                   rows (gdf_len one_square)
                   (length unit_y) (length unit_x)) /\
    out_coords out !! "geometry"%string =
      Some (GeometryCoord (gdf_geometry one_square)).
Proof.
  apply (coverage_in_memory rect_engine is_in_memory_spec
           geometries_as_dask_array_spec eager_obj (InMemory one_square)
           "x" "y" DEFAULT_STRATEGY "fraction" "EPSG:32633"
           (NumpyData unit_x) (NumpyData unit_y)).
  - reflexivity.
  - vm_compute. reflexivity.
  - vm_compute. reflexivity.
  - vm_compute. reflexivity.
  - discriminate.
  - discriminate.
  - discriminate.
  - discriminate.
  - discriminate.
  - reflexivity.
  - vm_compute. reflexivity.
Defined.

Lemma chunked_path_table_squeeze_witness :
  coverage rect_engine is_in_memory_spec geometries_as_dask_array_spec
           chunked_obj (InMemory two_columns) "x" "y"
           DEFAULT_STRATEGY "fraction" =
    ([], Err (ValueError
       "cannot select an axis to squeeze out which has size not equal to one")).
Proof.
  apply (chunked_path_table_squeeze rect_engine is_in_memory_spec
           geometries_as_dask_array_spec chunked_obj two_columns
           "x" "y" DEFAULT_STRATEGY "fraction" "EPSG:32633"
           (mkDask (gdf_geometry two_columns) [1])
           (mkDask unit_x [2; 2]) (mkDask unit_y [2; 2])).
  - reflexivity.
  - vm_compute. reflexivity.
  - reflexivity.
  - vm_compute. reflexivity.
  - vm_compute. reflexivity.
  - simpl. intros [H|[H|[]]]; discriminate.
  - simpl. intros [H|[H|[]]]; discriminate.
  - simpl. lia.
Defined.

Lemma coverage_unit_chunk_witness :
  coverage rect_engine is_in_memory_spec geometries_as_dask_array_spec
           unit_chunk_obj (InMemory one_square) "x" "y"
           DEFAULT_STRATEGY "fraction" =
    ([], Err (ValueError
       "exactextract does not support a chunksize of 1. Please rechunk to avoid this")).
Proof.
  apply (coverage_unit_chunk rect_engine is_in_memory_spec
           geometries_as_dask_array_spec unit_chunk_obj (InMemory one_square)
           "x" "y" DEFAULT_STRATEGY "fraction" "EPSG:32633"
           (mkDask (gdf_geometry one_square) [1])
           (mkDask unit_x [3; 1]) (mkDask unit_y [2; 2])).
  - reflexivity.
  - vm_compute. reflexivity.
  - reflexivity.
  - vm_compute. reflexivity.
  - vm_compute. reflexivity.
  - left. simpl. auto.
Defined.

(** ** The chunked array when it is forced *)

Lemma trace_sequence_map {G A B} (f : A -> M G B) (v : A -> B) (l : list A) :
  (forall a, In a l -> outcome (f a) = Ok (v a)) ->
  trace (sequence (map f l)) = flat_map (fun a => trace (f a)) l.
Proof.
  induction l as [|a l IH]; intros H; [reflexivity|].
  cbn [map sequence flat_map]. rewrite trace_bind, (H a) by now left.
  f_equal. rewrite trace_bind.
  rewrite (sequence_map_ok f v l) by (intros b Hb; apply H; now right).
  rewrite trace_ret, app_nil_r. apply IH. intros b Hb. apply H. now right.
Qed.

Lemma flat_map_ext_In {A B} (f h : A -> list B) (l : list A) :
  (forall a, In a l -> f a = h a) -> flat_map f l = flat_map h l.
Proof.
  induction l as [|a l IH]; intros H; [reflexivity|].
  cbn [flat_map]. rewrite (H a) by now left.
  f_equal. apply IH. intros b Hb. apply H. now right.
Qed.

Lemma compute_grid_trace {G A B C} (T : A -> B -> C -> M G COO)
    (V : A -> B -> C -> COO) (la : list A) (lb : list B) (lc : list C)
    chunks meta :
  (forall a b c, In a la -> In b lb -> In c lc ->
                 outcome (T a b c) = Ok (V a b c)) ->
  trace (compute (mkDaskCOO chunks
           (map (fun a => map (fun b => map (fun c => T a b c) lc) lb) la)
           meta)) =
    flat_map (fun a => flat_map (fun b => flat_map (fun c => trace (T a b c)) lc)
                                lb) la.
Proof.
  intros H. unfold compute. cbn [dc_tasks]. rewrite map_map.
  rewrite (trace_sequence_map _
             (fun a => map (fun b => map (fun c => V a b c) lc) lb)).
  - apply flat_map_ext_In. intros a Ha. rewrite map_map.
    rewrite (trace_sequence_map _ (fun b => map (fun c => V a b c) lc)).
    + apply flat_map_ext_In. intros b Hb.
      apply (trace_sequence_map _ (fun c => V a b c)).
      intros c Hc. now apply H.
    + intros b Hb. apply sequence_map_ok. intros c Hc. now apply H.
  - intros a Ha. rewrite map_map. apply sequence_map_ok. intros b Hb.
    apply sequence_map_ok. intros c Hc. now apply H.
Qed.

Lemma length_flat_map_const {A B} (f : A -> list B) (l : list A) (k : nat) :
  (forall a, In a l -> length (f a) = k) ->
  length (flat_map f l) = length l * k.
Proof.
  induction l as [|a l IH]; intros H; [reflexivity|].
  cbn [flat_map length]. rewrite length_app, (H a) by now left.
  rewrite IH by (intros b Hb; apply H; now right). lia.
Qed.

Lemma length_split_chunks {A} (chunks : list nat) (data : list A) :
  length (split_chunks chunks data) = length chunks.
Proof. now rewrite split_chunks_blocks, length_map, length_seq. Qed.

Lemma not_unit_chunk (chunks : list nat) :
  ~ In 1 chunks -> existsb (fun c => c =? 1) chunks = false.
Proof.
  intros H. apply not_true_is_false. intros E.
  apply existsb_one in E. contradiction.
Qed.

Section ForcedBlocks.
Context {Geometry : Type}.
Variable exact_extract :
  NumPyRasterSource -> GeoDataFrame Geometry -> string -> list EngineRow.

Lemma blocks_well_answered_at x y (geoms : list Geometry) crs w gch ych xch
    bg br bx :
  blocks_well_answered exact_extract x y geoms crs w gch ych xch = true ->
  bg < length gch -> br < length ych -> bx < length xch ->
  well_answered exact_extract (chunk_block xch x bx) (chunk_block ych y br)
    (GeoDataFrame_of_geometry (chunk_block gch geoms bg) crs) w = true.
Proof.
  unfold blocks_well_answered. intros H Hg Hr Hx.
  rewrite forallb_forall in H. specialize (H bg ltac:(apply in_seq; lia)).
  rewrite forallb_forall in H. specialize (H br ltac:(apply in_seq; lia)).
  rewrite forallb_forall in H. exact (H bx ltac:(apply in_seq; lia)).
Qed.

(** X16. Building the chunked array calls the engine for no block.
    Forcing it, when every block has at least one geometry and the engine
    answers every block with well-formed rows that name no cell twice,
    computes every block with exactly one engine call each, each on a
    one-column table carrying the CRS it was given, and the result mirrors
    the chunking: block (i, j, k) is a sparse array of the dtype of the
    weighting whose shape is the i-th geometry chunk by the j-th y chunk by
    the k-th x chunk. *)
Theorem forced_blocks_mirror_chunks x y (geoms : list Geometry) crs w strategy
    gch ych xch :
  list_sum gch = length geoms ->
  list_sum ych = length y ->
  list_sum xch = length x ->
  ~ In 1 ych -> ~ In 1 xch ->
  blocks_well_answered exact_extract x y geoms crs w gch ych xch = true ->
  trace (dask_coverage exact_extract (mkDask x xch) (mkDask y ych)
           (mkDask geoms gch) w strategy crs) = [] /\
  exists blocks,
    outcome (dask_coverage_computed exact_extract (mkDask x xch) (mkDask y ych)
               (mkDask geoms gch) w strategy crs) = Ok blocks /\
    length (trace (dask_coverage_computed exact_extract (mkDask x xch)
                     (mkDask y ych) (mkDask geoms gch) w strategy crs)) =
      length gch * (length ych * length xch) /\
    Forall (fun c => gdf_columns (call_vec c) = ["geometry"%string] /\
                     carries_crs crs c)
           (trace (dask_coverage_computed exact_extract (mkDask x xch)
                     (mkDask y ych) (mkDask geoms gch) w strategy crs)) /\
    forall bg br bx,
      bg < length gch -> br < length ych -> bx < length xch ->
      exists c,
        block_at blocks bg br bx = Some c /\
        coo_shape c = (nth bg gch 0, nth br ych 0, nth bx xch 0) /\
        coo_dtype c = get_dtype w geoms.
Proof.
  intros Hg Hy Hx Hych Hxch Hwell.
  split; [apply dask_coverage_trace|].
  pose (V := fun (gb : list Geometry) (yb xb : list Q) =>
    match outcome (coverage_np_dask_wrapper exact_extract gb xb yb w strategy crs)
    with
    | inr c => c
    | inl _ => mkCOO ([], [], []) [] float64 0%Q (0, 0, 0)
    end).
  assert (Hblock : forall bg br bx,
    bg < length gch -> br < length ych -> bx < length xch ->
    exists rb,
      xy_to_raster_source (chunk_block xch x bx) (chunk_block ych y br)
        (Some (to_wkt crs)) = Ok rb /\
      coverage_np_dask_wrapper exact_extract (chunk_block gch geoms bg)
        (chunk_block xch x bx) (chunk_block ych y br) w strategy crs =
      ([mkCall rb (GeoDataFrame_of_geometry (chunk_block gch geoms bg) crs) w],
       Ok (columns_coo (get_dtype w geoms)
             (exact_extract rb
                (GeoDataFrame_of_geometry (chunk_block gch geoms bg) crs) w)
             (length (chunk_block gch geoms bg))
             (length (chunk_block ych y br))
             (length (chunk_block xch x bx))))).
  { intros bg br bx Hbg Hbr Hbx.
    pose proof (blocks_well_answered_at _ _ _ _ _ _ _ _ _ _ _ Hwell Hbg Hbr Hbx)
      as Hwb.
    destruct (np_coverage_well_answered exact_extract
                (chunk_block xch x bx) (chunk_block ych y br)
                (GeoDataFrame_of_geometry (chunk_block gch geoms bg) crs)
                DEFAULT_STRATEGY w ltac:(cbn; lia) Hwb)
      as (rb & Erb & _ & _ & Hrunb).
    exists rb. split; [exact Erb|exact Hrunb]. }
  assert (HV : forall gb yb xb,
    In gb (split_chunks gch geoms) -> In yb (split_chunks ych y) ->
    In xb (split_chunks xch x) ->
    outcome (coverage_np_dask_wrapper exact_extract gb xb yb w strategy crs) =
      Ok (V gb yb xb)).
  { intros gb yb xb Hgb Hyb Hxb.
    apply in_split_chunks in Hgb as (bg & Hbg & ->).
    apply in_split_chunks in Hyb as (br & Hbr & ->).
    apply in_split_chunks in Hxb as (bx & Hbx & ->).
    destruct (Hblock bg br bx Hbg Hbr Hbx) as (rb & _ & Erun).
    unfold V. rewrite Erun. reflexivity. }
  assert (Hrun : dask_coverage_computed exact_extract (mkDask x xch)
                   (mkDask y ych) (mkDask geoms gch) w strategy crs =
                 compute (map_blocks exact_extract (mkDask geoms gch)
                            (mkDask x xch) (mkDask y ych) w strategy crs
                            (mkCOO ([], [], []) []
                               (get_dtype w (mkDask geoms gch)) 0%Q (0, 0, 0)))).
  { unfold dask_coverage_computed, dask_coverage. cbn [da_chunks].
    rewrite (not_unit_chunk xch Hxch), (not_unit_chunk ych Hych). cbn [orb].
    apply bind_ret. }
  rewrite Hrun. unfold map_blocks, da_blocks. cbn [da_chunks da_values].
  eexists. split; [|split; [|split]].
  - apply (compute_grid
             (fun gb yb xb =>
                coverage_np_dask_wrapper exact_extract gb xb yb w strategy crs)
             V). exact HV.
  - rewrite (compute_grid_trace
               (fun gb yb xb =>
                  coverage_np_dask_wrapper exact_extract gb xb yb w strategy crs)
               V _ _ _ _ _ HV).
    rewrite (length_flat_map_const _ _ (length ych * length xch)).
    + now rewrite length_split_chunks.
    + intros gb Hgb.
      rewrite (length_flat_map_const _ _ (length xch)).
      * now rewrite length_split_chunks.
      * intros yb Hyb.
        rewrite (length_flat_map_const _ _ 1).
        -- rewrite length_split_chunks. lia.
        -- intros xb Hxb.
           apply in_split_chunks in Hgb as (bg & Hbg & ->).
           apply in_split_chunks in Hyb as (br & Hbr & ->).
           apply in_split_chunks in Hxb as (bx & Hbx & ->).
           destruct (Hblock bg br bx Hbg Hbr Hbx) as (rb & _ & Erun).
           rewrite Erun. reflexivity.
  - rewrite (compute_grid_trace
               (fun gb yb xb =>
                  coverage_np_dask_wrapper exact_extract gb xb yb w strategy crs)
               V _ _ _ _ _ HV).
    apply List.Forall_forall. intros c Hc.
    apply in_flat_map in Hc as (gb & Hgb & Hc).
    apply in_flat_map in Hc as (yb & Hyb & Hc).
    apply in_flat_map in Hc as (xb & Hxb & Hc).
    apply in_split_chunks in Hgb as (bg & Hbg & ->).
    apply in_split_chunks in Hyb as (br & Hbr & ->).
    apply in_split_chunks in Hxb as (bx & Hbx & ->).
    destruct (Hblock bg br bx Hbg Hbr Hbx) as (rb & Erb & Erun).
    rewrite Erun in Hc. cbn [trace fst] in Hc. destruct Hc as [<-|[]].
    split; [reflexivity|]. unfold carries_crs. cbn [call_rast].
    eapply xy_to_raster_source_srs. exact Erb.
  - intros bg br bx Hbg Hbr Hbx.
    exists (V (chunk_block gch geoms bg) (chunk_block ych y br)
              (chunk_block xch x bx)).
    split.
    + apply block_at_grid; now apply nth_split_chunks.
    + destruct (Hblock bg br bx Hbg Hbr Hbx) as (rb & _ & Erun).
      unfold V. rewrite Erun. cbn [outcome snd coo_shape coo_dtype columns_coo].
      rewrite !length_chunk_block by assumption. split; reflexivity.
Qed.

End ForcedBlocks.

Lemma forced_blocks_mirror_chunks_witness :
  trace (dask_coverage rect_engine (mkDask unit_x [2; 2]) (mkDask unit_y [2; 2])
           (mkDask (gdf_geometry two_rects) [1; 1]) "fraction"
           DEFAULT_STRATEGY wgs84) = [] /\
  exists blocks,
    outcome (dask_coverage_computed rect_engine (mkDask unit_x [2; 2])
               (mkDask unit_y [2; 2]) (mkDask (gdf_geometry two_rects) [1; 1])
               "fraction" DEFAULT_STRATEGY wgs84) = Ok blocks /\
    length (trace (dask_coverage_computed rect_engine (mkDask unit_x [2; 2])
                     (mkDask unit_y [2; 2])
                     (mkDask (gdf_geometry two_rects) [1; 1])
                     "fraction" DEFAULT_STRATEGY wgs84)) =
      length [1; 1] * (length [2; 2] * length [2; 2]) /\
    Forall (fun c => gdf_columns (call_vec c) = ["geometry"%string] /\
                     carries_crs wgs84 c)
           (trace (dask_coverage_computed rect_engine (mkDask unit_x [2; 2])
                     (mkDask unit_y [2; 2])
                     (mkDask (gdf_geometry two_rects) [1; 1])
                     "fraction" DEFAULT_STRATEGY wgs84)) /\
    forall bg br bx,
      bg < length [1; 1] -> br < length [2; 2] -> bx < length [2; 2] ->
      exists c,
        block_at blocks bg br bx = Some c /\
        coo_shape c = (nth bg [1; 1] 0, nth br [2; 2] 0, nth bx [2; 2] 0) /\
        coo_dtype c = get_dtype "fraction" (gdf_geometry two_rects).
Proof.
  apply (forced_blocks_mirror_chunks rect_engine unit_x unit_y
           (gdf_geometry two_rects) wgs84 "fraction" DEFAULT_STRATEGY
           [1; 1] [2; 2] [2; 2]).
  - reflexivity.
  - reflexivity.
  - reflexivity.
  - simpl. intros [H|[H|[]]]; discriminate.
  - simpl. intros [H|[H|[]]]; discriminate.
  - vm_compute. reflexivity.
Defined.

(** ** Chunks of size zero *)

Lemma sequence_fails {G A} (ms : list (M G A)) (m : M G A) :
  In m ms -> is_ok (outcome m) = false ->
  is_ok (outcome (sequence ms)) = false.
Proof.
  induction ms as [|m' t IH]; intros Hin Hm; [destruct Hin|].
  cbn [sequence]. rewrite outcome_bind.
  destruct (outcome m') as [e|a] eqn:E; [reflexivity|].
  rewrite outcome_bind.
  destruct Hin as [->|Hin]; [rewrite E in Hm; discriminate|].
  specialize (IH Hin Hm).
  destruct (outcome (sequence t)); [reflexivity|discriminate].
Qed.

Section Layouts.
Context {Geometry : Type}.
Variable exact_extract :
  NumPyRasterSource -> GeoDataFrame Geometry -> string -> list EngineRow.

(** X17. The guard of [dask_coverage] tests for chunks equal to 1 only: a
    layout with an x chunk of size 0 and no chunk of size 1 is accepted and
    the lazy array is returned, but forcing it fails, in the block of the
    empty chunk at the latest. *)
Theorem zero_chunk_fails_when_forced x y (geoms : list Geometry) crs w strategy
    gch ych xch :
  In 0 xch -> ~ In 1 xch -> ~ In 1 ych ->
  gch <> [] -> ych <> [] ->
  is_ok (outcome (dask_coverage exact_extract (mkDask x xch) (mkDask y ych)
                    (mkDask geoms gch) w strategy crs)) = true /\
  is_ok (outcome (dask_coverage_computed exact_extract (mkDask x xch)
                    (mkDask y ych) (mkDask geoms gch) w strategy crs)) = false.
Proof.
  intros Hzero Hxch Hych Hgne Hyne.
  unfold dask_coverage_computed, dask_coverage. cbn [da_chunks].
  rewrite (not_unit_chunk xch Hxch), (not_unit_chunk ych Hych). cbn [orb].
  split; [reflexivity|]. rewrite bind_ret.
  unfold compute, map_blocks, da_blocks. cbn [dc_tasks da_chunks da_values].
  destruct (In_nth xch 0 0 Hzero) as (bx & Hbx & Ebx).
  assert (Hxb : In (chunk_block xch x bx) (split_chunks xch x))
    by (rewrite split_chunks_blocks; apply in_map, in_seq; lia).
  assert (Hlen : length (chunk_block xch x bx) = 0)
    by (unfold chunk_block; rewrite Ebx; reflexivity).
  assert (Hgb : exists gb, In gb (split_chunks gch geoms)).
  { destruct gch as [|c t]; [contradiction|]. eexists. now left. }
  assert (Hyb : exists yb, In yb (split_chunks ych y)).
  { destruct ych as [|c t]; [contradiction|]. eexists. now left. }
  destruct Hgb as (gb & Hgb). destruct Hyb as (yb & Hyb).
  eapply sequence_fails.
  - apply in_map. apply in_map. exact Hgb.
  - eapply sequence_fails.
    + apply in_map. apply in_map. exact Hyb.
    + eapply sequence_fails.
      * apply in_map. exact Hxb.
      * unfold coverage_np_dask_wrapper.
        rewrite (np_coverage_adapter_error exact_extract _ _ _ _ _
                   (IndexError "index out of bounds"));
          [reflexivity|cbn; lia|].
        apply short_axis_raises. left. lia.
Qed.

End Layouts.

Lemma zero_chunk_fails_when_forced_witness :
  is_ok (outcome (dask_coverage rect_engine (mkDask unit_x [4; 0])
                    (mkDask unit_y [2; 2]) (mkDask (gdf_geometry one_square) [1])
                    "fraction" DEFAULT_STRATEGY wgs84)) = true /\
  is_ok (outcome (dask_coverage_computed rect_engine (mkDask unit_x [4; 0])
                    (mkDask unit_y [2; 2]) (mkDask (gdf_geometry one_square) [1])
                    "fraction" DEFAULT_STRATEGY wgs84)) = false.
Proof.
  apply (zero_chunk_fails_when_forced rect_engine unit_x unit_y
           (gdf_geometry one_square) wgs84 "fraction" DEFAULT_STRATEGY
           [1] [2; 2] [4; 0]).
  - simpl. auto.
  - simpl. intros [H|[H|[]]]; discriminate.
  - simpl. intros [H|[H|[]]]; discriminate.
  - discriminate.
  - discriminate.
Defined.

(** ** Tables and chunks without a geometry *)

Section EmptyTables.
Context {Geometry : Type}.
Variable exact_extract :
  NumPyRasterSource -> GeoDataFrame Geometry -> string -> list EngineRow.

(** An answer without a row stops [np_coverage] at [np.vectorize],
    after the engine call. *)
Lemma np_coverage_no_rows x y (geometries : GeoDataFrame Geometry)
    strategy w raster :
  length (gdf_columns geometries) <= 1 ->
  xy_to_raster_source x y (Some (to_wkt (gdf_crs geometries))) = Ok raster ->
  exact_extract raster geometries w = [] ->
  np_coverage exact_extract x y geometries strategy w =
    ([mkCall raster geometries w],
     Err (ValueError
       "cannot call `vectorize` on size 0 inputs unless `otypes` is set")).
Proof.
  intros Hcols Er Hrows. unfold np_coverage.
  replace (1 <? length (gdf_columns geometries)) with false
    by (symmetry; apply Nat.ltb_ge; exact Hcols).
  rewrite Er. cbn [lift bind call_engine ret fst snd app].
  rewrite Hrows. reflexivity.
Qed.

(** X18. On a table of one column and no geometry, with axes of at least
    two centers and an engine that answers one row per geometry,
    [np_coverage] does not return an empty array: it calls the engine,
    once, and then raises the ValueError of [np.vectorize] on an input of
    size 0. *)
Theorem np_coverage_empty_table x y (geometries : GeoDataFrame Geometry)
    strategy w :
  length (gdf_columns geometries) <= 1 ->
  2 <= length x -> 2 <= length y ->
  gdf_len geometries = 0 ->
  (forall rast, length (exact_extract rast geometries w) = gdf_len geometries) ->
  exists raster,
    xy_to_raster_source x y (Some (to_wkt (gdf_crs geometries))) = Ok raster /\
    np_coverage exact_extract x y geometries strategy w =
      ([mkCall raster geometries w],
       Err (ValueError
         "cannot call `vectorize` on size 0 inputs unless `otypes` is set")).
Proof.
  intros Hcols Hx Hy Hlen Hrows.
  destruct (xy_to_raster_source_unfold x y
              (Some (to_wkt (gdf_crs geometries))) Hx Hy)
    as (mx & Mx & my & My & _ & _ & _ & _ & Er).
  eexists. split; [exact Er|].
  apply np_coverage_no_rows; [exact Hcols|exact Er|].
  specialize (Hrows
    {| rs_shape := (length y, length x); rs_fill := 1;
       rs_xmin := (mx - (second_center x - first_center x) / 2)%Q;
       rs_xmax := (Mx + (last_center x - penultimate_center x) / 2)%Q;
       rs_ymin := (my - y_start_half y)%Q;
       rs_ymax := (My + y_end_half y)%Q;
       rs_srs_wkt := Some (to_wkt (gdf_crs geometries)) |}).
  rewrite Hlen in Hrows.
  now destruct (exact_extract _ geometries w).
Qed.

Lemma np_coverage_no_geometry x y crs strategy w :
  (forall rast vec, gdf_geometry vec = [] -> exact_extract rast vec w = []) ->
  is_ok (outcome (np_coverage exact_extract x y
                    (GeoDataFrame_of_geometry [] crs) strategy w)) = false.
Proof.
  intros Hnone.
  destruct (xy_to_raster_source x y
              (Some (to_wkt (gdf_crs (GeoDataFrame_of_geometry
                                        (@nil Geometry) crs)))))
    as [e|raster] eqn:Er.
  - unfold np_coverage. cbn [GeoDataFrame_of_geometry gdf_columns length Nat.ltb
                               Nat.leb].
    rewrite Er. reflexivity.
  - rewrite (np_coverage_no_rows x y _ strategy w raster);
      [reflexivity|cbn; lia|exact Er|].
    apply Hnone. reflexivity.
Qed.

(** X19. A geometry chunk of size 0 passes the guard of [dask_coverage],
    which looks at the x and y chunks only, and the lazy array is
    returned; forcing it fails, in a block of the empty chunk at the
    latest, when the engine answers a table without a geometry with a
    table without a row. *)
Theorem empty_geometry_chunk_fails_when_forced x y (geoms : list Geometry)
    crs w strategy gch ych xch :
  In 0 gch -> ~ In 1 xch -> ~ In 1 ych ->
  ych <> [] -> xch <> [] ->
  (forall rast vec, gdf_geometry vec = [] -> exact_extract rast vec w = []) ->
  is_ok (outcome (dask_coverage exact_extract (mkDask x xch) (mkDask y ych)
                    (mkDask geoms gch) w strategy crs)) = true /\
  is_ok (outcome (dask_coverage_computed exact_extract (mkDask x xch)
                    (mkDask y ych) (mkDask geoms gch) w strategy crs)) = false.
Proof.
  intros Hzero Hxch Hych Hyne Hxne Hnone.
  unfold dask_coverage_computed, dask_coverage. cbn [da_chunks].
  rewrite (not_unit_chunk xch Hxch), (not_unit_chunk ych Hych). cbn [orb].
  split; [reflexivity|]. rewrite bind_ret.
  unfold compute, map_blocks, da_blocks. cbn [dc_tasks da_chunks da_values].
  destruct (In_nth gch 0 0 Hzero) as (bg & Hbg & Ebg).
  assert (Hgb : In (chunk_block gch geoms bg) (split_chunks gch geoms))
    by (rewrite split_chunks_blocks; apply in_map, in_seq; lia).
  assert (Hnil : chunk_block gch geoms bg = [])
    by (unfold chunk_block; rewrite Ebg; reflexivity).
  rewrite Hnil in Hgb.
  assert (Hyb : exists yb, In yb (split_chunks ych y)).
  { destruct ych as [|c t]; [contradiction|]. eexists. now left. }
  assert (Hxb : exists xb, In xb (split_chunks xch x)).
  { destruct xch as [|c t]; [contradiction|]. eexists. now left. }
  destruct Hyb as (yb & Hyb). destruct Hxb as (xb & Hxb).
  eapply sequence_fails.
  - apply in_map. apply in_map. exact Hgb.
  - eapply sequence_fails.
    + apply in_map. apply in_map. exact Hyb.
    + eapply sequence_fails.
      * apply in_map. exact Hxb.
      * unfold coverage_np_dask_wrapper.
        apply np_coverage_no_geometry. exact Hnone.
Qed.

End EmptyTables.

Lemma np_coverage_empty_table_witness :
  exists raster,
    xy_to_raster_source unit_x unit_y (Some (to_wkt (gdf_crs no_geometry))) =
      Ok raster /\
    np_coverage rect_engine unit_x unit_y no_geometry DEFAULT_STRATEGY "fraction" =
      ([mkCall raster no_geometry "fraction"],
       Err (ValueError
         "cannot call `vectorize` on size 0 inputs unless `otypes` is set")).
Proof.
  apply (np_coverage_empty_table rect_engine unit_x unit_y no_geometry
           DEFAULT_STRATEGY "fraction").
  - simpl. lia.
  - simpl. lia.
  - simpl. lia.
  - reflexivity.
  - intros rast. reflexivity.
Defined.

Lemma empty_geometry_chunk_fails_when_forced_witness :
  is_ok (outcome (dask_coverage rect_engine (mkDask unit_x [2; 2])
                    (mkDask unit_y [2; 2])
                    (mkDask (gdf_geometry one_square) [1; 0])
                    "fraction" DEFAULT_STRATEGY wgs84)) = true /\
  is_ok (outcome (dask_coverage_computed rect_engine (mkDask unit_x [2; 2])
                    (mkDask unit_y [2; 2])
                    (mkDask (gdf_geometry one_square) [1; 0])
                    "fraction" DEFAULT_STRATEGY wgs84)) = false.
Proof.
  apply (empty_geometry_chunk_fails_when_forced rect_engine unit_x unit_y
           (gdf_geometry one_square) wgs84 "fraction" DEFAULT_STRATEGY
           [1; 0] [2; 2] [2; 2]).
  - simpl. auto.
  - simpl. intros [H|[H|[]]]; discriminate.
  - simpl. intros [H|[H|[]]]; discriminate.
  - discriminate.
  - discriminate.
  - intros rast vec Hvec. unfold rect_engine. rewrite Hvec. reflexivity.
Defined.
